(** * orcsome: the event-dispatch core, embedded from [orcsome/wm.py]
    (the current dispatcher) and [orcsome/core.py] (its older twin).

    Python objects are rendered as follows.
    - dicts are [gmap]s, lists are [list]s; a dict of dicts is a map of maps;
    - a function object is a [callable]: a user function is named by a
      number, and the two lambdas built by [_on_create_manage] are
      constructors carrying the allocation stamp that stands for their
      object identity ([list.remove] compares by identity);
    - a closure returned to the caller ([inner], [remove]) is a first-order
      value ([binder], [remover]) with an interpreter;
    - an exception is a [completion]; a [for] loop over a list that handlers
      may mutate in place walks the live list by index. *)

From Stdlib Require Import ZArith Lia Ascii String.
From stdpp Require Import base option list gmap strings.

Local Open Scope Z_scope.

(** ** Values *)

Inductive exn :=
| KeyError
| ValueError
| AttributeError
| IndexError
| TypeError
| ReError
| KeyboardInterrupt
| SystemExit
| RestartException
| Exception (tag : nat).

Inductive completion :=
| Normal
| Raised (e : exn).

(** A keyword argument of [**matchers]. *)
Inductive kwval :=
| KStr (s : string)
| KInt (z : Z)
| KNone.

Inductive callable :=
| Fn (f : nat)
| MatchLambda (stamp : nat) (matchers : list (string * kwval)) (ofunc : callable)
| StartupLambda (stamp : nat) (oofunc : callable).

Inductive event_mask :=
| StructureNotifyMask
| PropertyChangeMask
| FocusChangeMask
| SubstructureNotifyMask.

(** Requests sent on [self.dpy]. *)
Inductive xrequest :=
| XSelectInput (w : Z) (interest : list event_mask)
| XGrabKey (code mask w : Z)
| XGrabKeyboard (w : Z)
| XUngrabKeyboard
| XGrabPointer (w : Z)
| XUngrabPointer
| XSync
| XSetErrorHandler.

Inductive logrecord :=
| LogError (msg : string)
| LogException (msg : string) (e : exn).

#[global] Instance exn_eq_dec : EqDecision exn.
Proof. solve_decision. Defined.
#[global] Instance completion_eq_dec : EqDecision completion.
Proof. solve_decision. Defined.
#[global] Instance kwval_eq_dec : EqDecision kwval.
Proof. solve_decision. Defined.
#[global] Instance callable_eq_dec : EqDecision callable.
Proof. solve_decision. Defined.

(** ** The dispatcher instance ([WM.__init__]) *)

Record WM := mkWM {
  key_handlers : gmap Z (gmap (Z * Z) callable);
  property_handlers : gmap Z (gmap (option Z) (list callable));
  create_handlers : list callable;
  destroy_handlers : gmap Z (list callable);
  init_handlers : list callable;
  deinit_handlers : list callable;
  signal_handlers : gmap string (list callable);
  grab_keyboard_handler : option callable;
  grab_pointer_handler : option callable;
  focus_history : list Z;
  startup : option bool;
  event_window : option Z;
  requests : list xrequest;
  logged : list logrecord;
  next_stamp : nat
}.

Definition new_WM : WM :=
  mkWM ∅ ∅ [] ∅ [] [] ∅ None None [] None None [] [] O.

(** Field updates ([self.field = v]). *)
Definition set_key_handlers (v : gmap Z (gmap (Z * Z) callable)) (s : WM) : WM :=
  mkWM v (property_handlers s) (create_handlers s) (destroy_handlers s)
    (init_handlers s) (deinit_handlers s) (signal_handlers s)
    (grab_keyboard_handler s) (grab_pointer_handler s) (focus_history s)
    (startup s) (event_window s) (requests s) (logged s) (next_stamp s).

Definition set_property_handlers (v : gmap Z (gmap (option Z) (list callable))) (s : WM) : WM :=
  mkWM (key_handlers s) v (create_handlers s) (destroy_handlers s)
    (init_handlers s) (deinit_handlers s) (signal_handlers s)
    (grab_keyboard_handler s) (grab_pointer_handler s) (focus_history s)
    (startup s) (event_window s) (requests s) (logged s) (next_stamp s).

Definition set_create_handlers (v : list callable) (s : WM) : WM :=
  mkWM (key_handlers s) (property_handlers s) v (destroy_handlers s)
    (init_handlers s) (deinit_handlers s) (signal_handlers s)
    (grab_keyboard_handler s) (grab_pointer_handler s) (focus_history s)
    (startup s) (event_window s) (requests s) (logged s) (next_stamp s).

Definition set_destroy_handlers (v : gmap Z (list callable)) (s : WM) : WM :=
  mkWM (key_handlers s) (property_handlers s) (create_handlers s) v
    (init_handlers s) (deinit_handlers s) (signal_handlers s)
    (grab_keyboard_handler s) (grab_pointer_handler s) (focus_history s)
    (startup s) (event_window s) (requests s) (logged s) (next_stamp s).

Definition set_init_handlers (v : list callable) (s : WM) : WM :=
  mkWM (key_handlers s) (property_handlers s) (create_handlers s) (destroy_handlers s)
    v (deinit_handlers s) (signal_handlers s)
    (grab_keyboard_handler s) (grab_pointer_handler s) (focus_history s)
    (startup s) (event_window s) (requests s) (logged s) (next_stamp s).

Definition set_signal_handlers (v : gmap string (list callable)) (s : WM) : WM :=
  mkWM (key_handlers s) (property_handlers s) (create_handlers s) (destroy_handlers s)
    (init_handlers s) (deinit_handlers s) v
    (grab_keyboard_handler s) (grab_pointer_handler s) (focus_history s)
    (startup s) (event_window s) (requests s) (logged s) (next_stamp s).

Definition set_grab_keyboard_handler (v : option callable) (s : WM) : WM :=
  mkWM (key_handlers s) (property_handlers s) (create_handlers s) (destroy_handlers s)
    (init_handlers s) (deinit_handlers s) (signal_handlers s)
    v (grab_pointer_handler s) (focus_history s)
    (startup s) (event_window s) (requests s) (logged s) (next_stamp s).

Definition set_grab_pointer_handler (v : option callable) (s : WM) : WM :=
  mkWM (key_handlers s) (property_handlers s) (create_handlers s) (destroy_handlers s)
    (init_handlers s) (deinit_handlers s) (signal_handlers s)
    (grab_keyboard_handler s) v (focus_history s)
    (startup s) (event_window s) (requests s) (logged s) (next_stamp s).

Definition set_focus_history (v : list Z) (s : WM) : WM :=
  mkWM (key_handlers s) (property_handlers s) (create_handlers s) (destroy_handlers s)
    (init_handlers s) (deinit_handlers s) (signal_handlers s)
    (grab_keyboard_handler s) (grab_pointer_handler s) v
    (startup s) (event_window s) (requests s) (logged s) (next_stamp s).

Definition set_startup (v : option bool) (s : WM) : WM :=
  mkWM (key_handlers s) (property_handlers s) (create_handlers s) (destroy_handlers s)
    (init_handlers s) (deinit_handlers s) (signal_handlers s)
    (grab_keyboard_handler s) (grab_pointer_handler s) (focus_history s)
    v (event_window s) (requests s) (logged s) (next_stamp s).

Definition set_event_window (v : option Z) (s : WM) : WM :=
  mkWM (key_handlers s) (property_handlers s) (create_handlers s) (destroy_handlers s)
    (init_handlers s) (deinit_handlers s) (signal_handlers s)
    (grab_keyboard_handler s) (grab_pointer_handler s) (focus_history s)
    (startup s) v (requests s) (logged s) (next_stamp s).

Definition set_next_stamp (v : nat) (s : WM) : WM :=
  mkWM (key_handlers s) (property_handlers s) (create_handlers s) (destroy_handlers s)
    (init_handlers s) (deinit_handlers s) (signal_handlers s)
    (grab_keyboard_handler s) (grab_pointer_handler s) (focus_history s)
    (startup s) (event_window s) (requests s) (logged s) v.

(** A call [X.f(self.dpy, ...)]: the request goes out on the connection. *)
Definition send (r : xrequest) (s : WM) : WM :=
  mkWM (key_handlers s) (property_handlers s) (create_handlers s) (destroy_handlers s)
    (init_handlers s) (deinit_handlers s) (signal_handlers s)
    (grab_keyboard_handler s) (grab_pointer_handler s) (focus_history s)
    (startup s) (event_window s) (requests s ++ [r]) (logged s) (next_stamp s).

(** [logger.error(...)] and [logger.exception(...)]. *)
Definition log (r : logrecord) (s : WM) : WM :=
  mkWM (key_handlers s) (property_handlers s) (create_handlers s) (destroy_handlers s)
    (init_handlers s) (deinit_handlers s) (signal_handlers s)
    (grab_keyboard_handler s) (grab_pointer_handler s) (focus_history s)
    (startup s) (event_window s) (requests s) (logged s ++ [r]) (next_stamp s).

(** The registries the cleanup protocol and the removal handles act on. *)
Definition registries (s : WM) :=
  (key_handlers s, property_handlers s, create_handlers s,
   destroy_handlers s, signal_handlers s, focus_history s).

(** ** Python built-ins used by the source *)

(** [str.split(sep)] for a one-character separator: never the empty list. *)
Fixpoint split (sep : ascii) (s : string) : list string :=
  match s with
  | EmptyString => [EmptyString]
  | String a r =>
      if decide (a = sep) then EmptyString :: split sep r
      else match split sep r with
           | h :: t => String a h :: t
           | [] => [String a EmptyString]
           end
  end.

(** [list.remove(x)]: drops the first item equal to [x]; [None] stands for
    the [ValueError] raised when there is none. *)
Fixpoint list_remove {A} `{EqDecision A} (x : A) (l : list A) : option (list A) :=
  match l with
  | [] => None
  | y :: r => if decide (y = x) then Some r else cons y <$> list_remove x r
  end.

(** ** The [xlib] binding *)

(** The module [orcsome/xlib.py] is not among the sources.  Its modifier
    masks, the root window and its lookups are parameters of the model. *)
Record xlib := {
  ShiftMask : Z;
  LockMask : Z;
  ControlMask : Z;
  Mod1Mask : Z;
  Mod2Mask : Z;
  Mod4Mask : Z;
  NoSymbol : Z;
  XStringToKeysym : string → Z;
  XKeysymToKeycode : Z → Z;
  DefaultRootWindow : Z;
  AtomCache : string → Z
}.

(** The core protocol's values, used for concrete runs.  Key names are
    resolved only for one-letter names, to the character code; atoms are
    numbered injectively. *)
Definition x11 : xlib := {|
  ShiftMask := 1;
  LockMask := 2;
  ControlMask := 4;
  Mod1Mask := 8;
  Mod2Mask := 16;
  Mod4Mask := 64;
  NoSymbol := 0;
  XStringToKeysym := λ key,
    match key with
    | String a EmptyString => Z.of_nat (nat_of_ascii a)
    | _ => 0
    end;
  XKeysymToKeycode := λ sym, sym - 59;
  DefaultRootWindow := 1;
  AtomCache := λ name, Z.pos (encode name)
|}.

(** ** Registration ([wm.py], lines 12-248 and 646-664) *)

(** What [bind_key] returns: [lambda func: func], or the closure [inner]
    over [window], [modmask] and [code]. *)
Inductive binder :=
| IdentityBinder
| KeyBinder (window modmask code : Z).

(** The closures [remove] that registration attaches as [func.remove]. *)
Inductive remover :=
| RemoveKeys (window : Z) (keys : list (Z * Z))
| RemoveCreate (func : callable)
| RemoveProperty (window : option Z) (props : list string) (func : callable)
| RemoveSignal (signal : string) (func : callable).

Section Registration.
Context (X : xlib).

Definition MODIFICATORS : gmap string Z :=
  list_to_map
    [("Alt"%string, Mod1Mask X); ("Control"%string, ControlMask X);
     ("Ctrl"%string, ControlMask X); ("Shift"%string, ShiftMask X);
     ("Win"%string, Mod4Mask X); ("Mod"%string, Mod4Mask X)].

Definition IGNORED_MOD_MASKS : list Z :=
  [0; LockMask X; Mod2Mask X; Z.lor (LockMask X) (Mod2Mask X)].

(** [for m in mod: modmask |= MODIFICATORS[m]]; [None] is the [KeyError]. *)
Fixpoint fold_modifiers (mods : list string) (modmask : Z) : option Z :=
  match mods with
  | [] => Some modmask
  | m :: rest =>
      match MODIFICATORS !! m with
      | Some bit => fold_modifiers rest (Z.lor modmask bit)
      | None => None
      end
  end.

Definition invalid_key (keydef : string) : logrecord :=
  LogError ("Invalid key [" +:+ keydef +:+ "]").

Definition bind_key (window : Z) (keydef : string) (s : WM) : binder * WM :=
  let parts := split "+" keydef in
  let mods := removelast parts in
  let key := List.last parts EmptyString in
  match fold_modifiers mods 0 with
  | None => (IdentityBinder, log (invalid_key keydef) s)
  | Some modmask =>
      let sym := XStringToKeysym X key in
      if decide (sym = NoSymbol X) then
        (IdentityBinder, log (invalid_key keydef) s)
      else (KeyBinder window modmask (XKeysymToKeycode X sym), s)
  end.

(** [self.key_handlers.setdefault(window, {})[k] = func] *)
Definition key_store (window : Z) (k : Z * Z) (func : callable) (s : WM) : WM :=
  set_key_handlers
    (<[window := <[k := func]> (default ∅ (key_handlers s !! window))]>
       (key_handlers s)) s.

(** The loop of [inner]: returns the list [keys] it accumulated. *)
Fixpoint grab_all (window modmask code : Z) (func : callable)
    (imasks : list Z) (keys : list (Z * Z)) (s : WM) : list (Z * Z) * WM :=
  match imasks with
  | [] => (keys, s)
  | imask :: rest =>
      let mask := Z.lor modmask imask in
      let s1 := send (XGrabKey code mask window) s in
      let s2 := key_store window (mask, code) func s1 in
      grab_all window modmask code func rest (keys ++ [(mask, code)]) s2
  end.

(** Applying the binder to a handler: the function returned and the
    [remove] attribute set on it, if one is. *)
Definition apply_binder (b : binder) (func : callable) (s : WM)
    : callable * option remover * WM :=
  match b with
  | IdentityBinder => (func, None, s)
  | KeyBinder window modmask code =>
      let '(keys, s') := grab_all window modmask code func IGNORED_MOD_MASKS [] s in
      (func, Some (RemoveKeys window keys), s')
  end.

(** [on_key]: a leading window number scopes the binding, else it
    goes to the root window. *)
Definition on_key (window : option Z) (key : string) (s : WM) : binder * WM :=
  bind_key (default (DefaultRootWindow X) window) key s.

(** [inner] of [_on_create_manage]: both call shapes apply it to the
    handler.  Each lambda takes the next allocation stamp. *)
Definition _on_create_manage (ignore_startup : bool)
    (matchers : list (string * kwval)) (func : callable) (s : WM)
    : callable * option remover * WM :=
  let '(func1, s1) :=
    match matchers with
    | [] => (func, s)
    | _ :: _ => (MatchLambda (next_stamp s) matchers func,
                 set_next_stamp (S (next_stamp s)) s)
    end in
  let '(func2, s2) :=
    if ignore_startup then
      (StartupLambda (next_stamp s1) func1, set_next_stamp (S (next_stamp s1)) s1)
    else (func1, s1) in
  (func2, Some (RemoveCreate func2),
   set_create_handlers (create_handlers s2 ++ [func2]) s2).

Definition on_create := _on_create_manage true.
Definition on_manage := _on_create_manage false.

Definition on_destroy (window : Z) (func : callable) (s : WM)
    : callable * option remover * WM :=
  (func, None,
   set_destroy_handlers
     (<[window := default [] (destroy_handlers s !! window) ++ [func]]>
        (destroy_handlers s)) s).

(** [self.property_handlers.setdefault(atom, {}).setdefault(window, []).append(func)] *)
Definition property_store (atom : Z) (window : option Z) (func : callable) (s : WM) : WM :=
  let per_window := default ∅ (property_handlers s !! atom) in
  set_property_handlers
    (<[atom := <[window := default [] (per_window !! window) ++ [func]]> per_window]>
       (property_handlers s)) s.

(** [on_property_change]: [window] is the leading window number
    if there is one, [props] the property names.  With no argument at all
    [args[0]] raises. *)
Definition on_property_change (window : option Z) (props : list string)
    (func : callable) (s : WM) : completion * option remover * WM :=
  match window, props with
  | None, [] => (Raised IndexError, None, s)
  | _, _ =>
      (Normal, Some (RemoveProperty window props func),
       foldl (λ s' p, property_store (AtomCache X p) window func s') s props)
  end.

Definition on_signal (signal : string) (func : callable) (s : WM)
    : callable * option remover * WM :=
  (func, Some (RemoveSignal signal func),
   set_signal_handlers
     (<[signal := default [] (signal_handlers s !! signal) ++ [func]]>
        (signal_handlers s)) s).

Definition on_init (func : callable) (s : WM) : callable * WM :=
  (func, set_init_handlers (init_handlers s ++ [func]) s).

(** *** The bodies of the [remove] closures *)

(** [for k in keys: del self.key_handlers[window][k]] *)
Fixpoint remove_keys (window : Z) (keys : list (Z * Z)) (s : WM) : completion * WM :=
  match keys with
  | [] => (Normal, s)
  | k :: rest =>
      match key_handlers s !! window with
      | None => (Raised KeyError, s)
      | Some per_window =>
          match per_window !! k with
          | None => (Raised KeyError, s)
          | Some _ =>
              remove_keys window rest
                (set_key_handlers (<[window := delete k per_window]> (key_handlers s)) s)
          end
      end
  end.

(** [for p in props: self.property_handlers[atom][window].remove(func)] *)
Fixpoint remove_property (window : option Z) (props : list string)
    (func : callable) (s : WM) : completion * WM :=
  match props with
  | [] => (Normal, s)
  | p :: rest =>
      let atom := AtomCache X p in
      match property_handlers s !! atom with
      | None => (Raised KeyError, s)
      | Some per_window =>
          match per_window !! window with
          | None => (Raised KeyError, s)
          | Some l =>
              match list_remove func l with
              | None => (Raised ValueError, s)
              | Some l' =>
                  remove_property window rest func
                    (set_property_handlers
                       (<[atom := <[window := l']> per_window]> (property_handlers s)) s)
              end
          end
      end
  end.

Definition invoke_remove (r : remover) (s : WM) : completion * WM :=
  match r with
  | RemoveKeys window keys => remove_keys window keys s
  | RemoveCreate func =>
      match list_remove func (create_handlers s) with
      | None => (Raised ValueError, s)
      | Some l' => (Normal, set_create_handlers l' s)
      end
  | RemoveProperty window props func => remove_property window props func s
  | RemoveSignal signal func =>
      match signal_handlers s !! signal with
      | None => (Raised KeyError, s)
      | Some l =>
          match list_remove func l with
          | None => (Raised ValueError, s)
          | Some l' =>
              (Normal, set_signal_handlers (<[signal := l']> (signal_handlers s)) s)
          end
      end
  end.

End Registration.

(** What the model asks of the absent [xlib] constants: the two
    ignorable modifiers are distinct non-zero masks, and share no bit with
    the masks of the modifier table. *)
Definition ignorable_bits_free (X : xlib) : Prop :=
  LockMask X ≠ 0 ∧ Mod2Mask X ≠ 0 ∧ Z.land (LockMask X) (Mod2Mask X) = 0 ∧
  ∀ m bit, MODIFICATORS X !! m = Some bit →
           Z.land bit (Z.lor (LockMask X) (Mod2Mask X)) = 0.

(** Two states that differ at most in the key bindings and in the
    requests sent. *)
Definition same_but_keys (s s' : WM) : Prop :=
  property_handlers s' = property_handlers s ∧
  create_handlers s' = create_handlers s ∧
  destroy_handlers s' = destroy_handlers s ∧
  init_handlers s' = init_handlers s ∧
  deinit_handlers s' = deinit_handlers s ∧
  signal_handlers s' = signal_handlers s ∧
  grab_keyboard_handler s' = grab_keyboard_handler s ∧
  grab_pointer_handler s' = grab_pointer_handler s ∧
  focus_history s' = focus_history s ∧
  startup s' = startup s ∧
  event_window s' = event_window s ∧
  logged s' = logged s ∧
  next_stamp s' = next_stamp s.

(** The handler bound to [(mask, code)] on [window], if any. *)
Definition key_binding (s : WM) (window : Z) (k : Z * Z) : option callable :=
  key_handlers s !! window ≫= (.!! k).

(** The subscriber list stored for [atom] and [window], if there is one. *)
Definition property_slot (s : WM) (atom : Z) (window : option Z) : option (list callable) :=
  property_handlers s !! atom ≫= (.!! window).

(** How often a property name interned as [atom] occurs in [props]. *)
Definition occurrences (X : xlib) (atom : Z) (props : list string) : nat :=
  length (filter (λ p, AtomCache X p = atom) props).

(** ** Dispatch ([wm.py], lines 329-494 and 612-644) *)

(** One entry per call the dispatcher makes, with what the callee can
    observe on entry. *)
Inductive invocation :=
| Call (h : callable) (startup_seen : option bool) (window_seen : option Z)
| CallGrab (h : callable) (pressed : bool) (state keycode : Z).

#[global] Instance invocation_eq_dec : EqDecision invocation.
Proof. solve_decision. Defined.

Inductive xevent :=
| KeyPress (window state keycode : Z)
| KeyRelease (window state keycode : Z)
| CreateNotify (window : Z)
| DestroyNotify (window : Z)
| FocusIn (window : Z)
| PropertyNotify (window atom state : Z)
| OtherEvent (type : Z).

(** What [X.XPending] answers inside [run]. *)
Inductive pending :=
| PendingInterrupt
| Pending (queued : list xevent).

(** What one [select] of [run] yields: an interrupt, or the readable
    descriptors with what is then read from each. *)
Inductive wakeup :=
| SelectInterrupt
| Readable (fd : option (list pending)) (rfifo : option (list string)).

(** Control flow of the loops of [run]. *)
Inductive verdict :=
| Continue
| Return (b : bool).

Definition outcome : Type := completion * WM * list invocation.

Definition after (t : list invocation) {A B} (o : option (A * B * list invocation))
    : option (A * B * list invocation) :=
  (λ '(a, b, t'), (a, b, t ++ t')) <$> o.

Section Dispatch.
Context (X : xlib).
(** [Window.matches] lives in [orcsome/wrappers.py], which is not among
    the sources; user functions are arbitrary code acting on the
    instance. *)
Context (matches : Z → list (string * kwval) → bool).
Context (body : nat → WM → completion * WM).
Context (grab_body : nat → bool → Z → Z → WM → completion * WM).

(** [h()] *)
Fixpoint call (h : callable) (s : WM) : outcome :=
  let here := Call h (startup s) (event_window s) in
  match h with
  | Fn f => let '(c, s') := body f s in (c, s', [here])
  | MatchLambda _ matchers ofunc =>
      match event_window s with
      | None => (Raised AttributeError, s, [here])
      | Some w =>
          if matches w matchers then
            let '(c, s', t) := call ofunc s in (c, s', here :: t)
          else (Normal, s, [here])
      end
  | StartupLambda _ oofunc =>
      match startup s with
      | None => (Raised AttributeError, s, [here])
      | Some true => (Normal, s, [here])
      | Some false => let '(c, s', t) := call oofunc s in (c, s', here :: t)
      end
  end.

(** [h(pressed, state, keycode)] *)
Definition call_grab (h : callable) (pressed : bool) (state keycode : Z) (s : WM)
    : outcome :=
  let here := CallGrab h pressed state keycode in
  match h with
  | Fn f => let '(c, s') := grab_body f pressed state keycode s in (c, s', [here])
  | _ => (Raised TypeError, s, [here])
  end.

(** [for h in seq: h()] where [seq] is a list owned by the instance:
    the iterator holds an index into the list as it is at each step, so
    appends and removals made by a handler are seen.  [live] reads the
    list back from the instance.  The loop ends when the index runs off
    the list; [fuel] bounds the number of steps.

    The instance is a value here, so the list object the source walks is
    identified with the place where the instance holds it.  For
    [self.create_handlers] and [self.init_handlers] that is the source
    exactly: the attribute is never rebound, [stop] empties it in place.
    For a list stored in a dict ([destroy_handlers], [property_handlers],
    [signal_handlers]) the source binds the list once and keeps walking
    that object; reading the place back gives the same list as long as
    the handlers edit it in place (registration appends, [remove] calls
    [list.remove]).  A handler that empties the dict or drops the entry
    ([stop], [_clean_window_data]) detaches the object from its place:
    the source goes on with the detached list, the loop below ends.
    Every statement below that says which handlers of such a list are
    called is about handlers that leave the walked entry in its place:
    it either assumes that they do not change the registry, or runs
    handlers that only call [remove]. *)
Fixpoint for_each (fuel : nat) (live : WM → list callable) (i : nat) (s : WM)
    : option outcome :=
  match fuel with
  | O => None
  | S fuel' =>
      match live s !! i with
      | None => Some (Normal, s, [])
      | Some h =>
          let '(c, s', t) := call h s in
          match c with
          | Raised e => Some (Raised e, s', t)
          | Normal => after t (for_each fuel' live (S i) s')
          end
      end
  end.

(** Dispatch over a snapshot, as the specification asks for it: every
    handler of [hs], in order, each exactly once, up to the first fault. *)
Fixpoint call_all (hs : list callable) (s : WM) : outcome :=
  match hs with
  | [] => (Normal, s, [])
  | h :: rest =>
      let '(c, s', t) := call h s in
      match c with
      | Raised e => (Raised e, s', t)
      | Normal => let '(c', s'', t') := call_all rest s' in (c', s'', t ++ t')
      end
  end.

Definition process_create_window (fuel : nat) (window : Z) (s : WM) : option outcome :=
  let s1 := send (XSelectInput window
                    [StructureNotifyMask; PropertyChangeMask; FocusChangeMask]) s in
  let s2 := set_event_window (Some window) s1 in
  for_each fuel create_handlers 0 s2.



Definition handle_keypress (window state keycode : Z) (s : WM) : outcome :=
  match grab_keyboard_handler s with
  | Some g => call_grab g true state keycode s
  | None =>
      match key_handlers s !! window ≫= (.!! (state, keycode)) with
      | None => (Normal, s, [])
      | Some handler => call handler (set_event_window (Some window) s)
      end
  end.

Definition handle_keyrelease (window state keycode : Z) (s : WM) : outcome :=
  match grab_keyboard_handler s with
  | Some g => call_grab g false state keycode s
  | None => (Normal, s, [])
  end.

Definition handle_create (fuel : nat) (window : Z) (s : WM) : option outcome :=
  process_create_window fuel window (set_startup (Some false) s).

(** [_clean_window_data].  The second statement only reads the entry.
    The last loop walks a copy of the items and rewrites or drops each
    property's per-window dict. *)
Definition _clean_window_data (window : Z) (s : WM) : WM :=
  let s1 := set_key_handlers (delete window (key_handlers s)) s in
  let s2 := s1 in
  let s3 := set_focus_history
              (default (focus_history s2) (list_remove window (focus_history s2))) s2 in
  set_property_handlers
    (omap (λ whandlers : gmap (option Z) (list callable),
             let whandlers' := delete (Some window) whandlers in
             if decide (whandlers' = ∅) then None else Some whandlers')
          (property_handlers s3)) s3.

Definition destroy_listeners (window : Z) (s : WM) : list callable :=
  default [] (destroy_handlers s !! window).

(** [handle_destroy]: [try ... except KeyError ... else ... finally].
    [handlers] is bound once in the source; the loop reads the entry of
    [window] back at each step (see [for_each]). *)
Definition handle_destroy (fuel : nat) (window : Z) (s : WM) : option outcome :=
  '(r, s', t) ←
    match destroy_handlers s !! window with
    | None => Some (Normal, s, [])
    | Some _ =>
        for_each fuel (destroy_listeners window) 0 (set_event_window (Some window) s)
    end;
  Some (r, _clean_window_data window s', t).

Definition subscribers (atom : Z) (window : option Z) (s : WM) : list callable :=
  default [] (property_handlers s !! atom ≫= (.!! window)).

(** [handle_property].  [wphandlers] is bound once in the source; the two
    loops read the lists of [atom] back at each step (see [for_each]). *)
Definition handle_property (fuel : nat) (window atom state : Z) (s : WM) : option outcome :=
  if decide (state = 0 ∧ is_Some (property_handlers s !! atom)) then
    let s1 := set_event_window (Some window) s in
    '(r, s2, t) ← for_each fuel (subscribers atom (Some window)) 0 s1;
    match r with
    | Raised e => Some (Raised e, s2, t)
    | Normal => after t (for_each fuel (subscribers atom None) 0 s2)
    end
  else Some (Normal, s, []).

Definition handle_focusin (window : Z) (s : WM) : outcome :=
  let h := default (focus_history s) (list_remove window (focus_history s)) in
  (Normal, set_focus_history (h ++ [window]) s, []).

(** The table [handlers] of [run]; [None] is the [KeyError]. *)
Definition handlers (e : xevent) : option (nat → WM → option outcome) :=
  match e with
  | KeyPress w st kc => Some (λ _ s, Some (handle_keypress w st kc s))
  | KeyRelease w st kc => Some (λ _ s, Some (handle_keyrelease w st kc s))
  | CreateNotify w => Some (λ fuel s, handle_create fuel w s)
  | DestroyNotify w => Some (λ fuel s, handle_destroy fuel w s)
  | FocusIn w => Some (λ _ s, Some (handle_focusin w s))
  | PropertyNotify w a st => Some (λ fuel s, handle_property fuel w a st s)
  | OtherEvent _ => None
  end.

(** The three [except] clauses of [run]. *)
Definition guard (c : completion) (s : WM) : verdict * WM :=
  match c with
  | Normal => (Continue, s)
  | Raised KeyboardInterrupt | Raised SystemExit => (Return true, s)
  | Raised RestartException => (Return false, s)
  | Raised e => (Continue, log (LogException "Boo" e) s)
  end.

(** [while i > 0]: the events [XNextEvent] hands out, in order. *)
Fixpoint next_events (fuel : nat) (queued : list xevent) (s : WM)
    : option (verdict * WM * list invocation) :=
  match queued with
  | [] => Some (Continue, s, [])
  | e :: rest =>
      match handlers e with
      | None => next_events fuel rest s
      | Some h =>
          '(c, s1, t) ← h fuel s;
          match guard c s1 with
          | (Return b, s2) => Some (Return b, s2, t)
          | (Continue, s2) => after t (next_events fuel rest s2)
          end
      end
  end.

(** [while True: i = X.XPending(...)] *)
Fixpoint drain (fuel : nat) (answers : list pending) (s : WM)
    : option (verdict * WM * list invocation) :=
  match answers with
  | [] => Some (Continue, s, [])
  | PendingInterrupt :: _ => Some (Return true, s, [])
  | Pending [] :: _ => Some (Continue, s, [])
  | Pending queued :: rest =>
      '(v, s1, t) ← next_events fuel queued s;
      match v with
      | Return b => Some (Return b, s1, t)
      | Continue => after t (drain fuel rest s1)
      end
  end.

Definition signal_listeners (name : string) (s : WM) : list callable :=
  default [] (signal_handlers s !! name).

(** [for h in self.signal_handlers[s]] with its own [try] per handler.
    The list is read back from its entry at each step (see [for_each]). *)
Fixpoint emit_each (fuel : nat) (name : string) (i : nat) (s : WM)
    : option (verdict * WM * list invocation) :=
  match fuel with
  | O => None
  | S fuel' =>
      match signal_listeners name s !! i with
      | None => Some (Continue, s, [])
      | Some h =>
          let '(c, s1, t) := call h s in
          match guard c s1 with
          | (Return b, s2) => Some (Return b, s2, t)
          | (Continue, s2) => after t (emit_each fuel' name (S i) s2)
          end
      end
  end.

Fixpoint signals (fuel : nat) (names : list string) (s : WM)
    : option (verdict * WM * list invocation) :=
  match names with
  | [] => Some (Continue, s, [])
  | name :: rest =>
      '(v, s1, t) ←
        (if decide (is_Some (signal_handlers s !! name))
         then emit_each fuel name 0 s else Some (Continue, s, []));
      match v with
      | Return b => Some (Return b, s1, t)
      | Continue => after t (signals fuel rest s1)
      end
  end.

(** [run], over the wake-ups the process receives.  [Continue] at the
    end of the script: [run] is blocked in [select] again. *)
Fixpoint run (fuel : nat) (script : list wakeup) (s : WM)
    : option (verdict * WM * list invocation) :=
  match script with
  | [] => Some (Continue, s, [])
  | SelectInterrupt :: _ => Some (Return true, s, [])
  | Readable fd rfifo :: rest =>
      '(v, s1, t) ← drain fuel (default [] fd) s;
      match v with
      | Return b => Some (Return b, s1, t)
      | Continue =>
          '(v', s2, t') ← signals fuel (default [] rfifo) s1;
          match v' with
          | Return b => Some (Return b, s2, t ++ t')
          | Continue => after (t ++ t') (run fuel rest s2)
          end
      end
  end.

(** *** Exclusive grabs; [reply] is the server's answer *)

Definition grab_keyboard (reply : Z) (func : callable) (s : WM) : bool * WM :=
  match grab_keyboard_handler s with
  | Some _ => (false, s)
  | None =>
      let s1 := send (XGrabKeyboard (DefaultRootWindow X)) s in
      if decide (reply = 0) then (true, set_grab_keyboard_handler (Some func) s1)
      else (false, s1)
  end.

Definition ungrab_keyboard (reply : Z) (s : WM) : Z * WM :=
  (reply, send XUngrabKeyboard (set_grab_keyboard_handler None s)).

Definition grab_pointer (reply : Z) (func : callable) (s : WM) : bool * WM :=
  match grab_pointer_handler s with
  | Some _ => (false, s)
  | None =>
      let s1 := send (XGrabPointer (DefaultRootWindow X)) s in
      if decide (reply = 0) then (true, set_grab_pointer_handler (Some func) s1)
      else (false, s1)
  end.

Definition ungrab_pointer (reply : Z) (s : WM) : Z * WM :=
  (reply, send XUngrabPointer (set_grab_pointer_handler None s)).

End Dispatch.

(** What a trace entry says of the startup flag its callee found. *)
Definition saw_startup (b : bool) (i : invocation) : Prop :=
  match i with
  | Call _ seen _ => seen = Some b
  | CallGrab _ _ _ _ => True
  end.

(** The function a trace entry names. *)
Definition callee (i : invocation) : callable :=
  match i with
  | Call h _ _ => h
  | CallGrab h _ _ _ => h
  end.

(** The stop and restart requests, which [run] does not log. *)
Definition control (e : exn) : Prop :=
  e = KeyboardInterrupt ∨ e = SystemExit ∨ e = RestartException.

(** A script in which no [select] and no [XPending] is interrupted. *)
Definition uninterrupted (script : list wakeup) : Prop :=
  Forall (λ w, match w with
               | SelectInterrupt => False
               | Readable fd _ => Forall (λ p, p ≠ PendingInterrupt) (default [] fd)
               end) script.

(** ** The older dispatcher ([core.py]): window matcher and key masks *)

Module Core.

(** [IGNORED_MOD_MASKS] of [core.py], line 19. *)
Definition IGNORED_MOD_MASKS (X : xlib) : list Z := [0; LockMask X; Mod2Mask X].

(** What the display server holds for a window: [WM_CLASS], the
    [WM_WINDOW_ROLE] property as (format, value), and the first item of
    [_NET_WM_DESKTOP]. *)
Record xwindow := {
  wm_class : option (string * string);
  wm_window_role : option (Z * string);
  net_wm_desktop : option Z
}.

(** The values [is_match] can return. *)
Inductive pyvalue :=
| PyTrue
| PyFalse
| PyNone
| PyMatchObject.

Definition truthy (v : pyvalue) : bool :=
  match v with
  | PyTrue | PyMatchObject => true
  | PyFalse | PyNone => false
  end.

(** Truth value of an argument that is [None] or a string. *)
Definition nonempty (o : option string) : bool :=
  match o with
  | None | Some EmptyString => false
  | Some _ => true
  end.

Definition get_window_role (window : xwindow) : option string :=
  match wm_window_role window with
  | None => None
  | Some (format, value) => if decide (format = 8) then Some value else None
  end.

Definition get_window_desktop (window : xwindow) : option Z :=
  match net_wm_desktop window with
  | Some d => if decide (d = 4294967295) then Some (-1) else Some d
  | None => None
  end.

Section Matcher.
(** The [re] module: [re.compile] (failing on a malformed pattern)
    and [pattern.match], which anchors at the start of the string. *)
Context {regex : Type}.
Context (re_compile : string → option regex).
Context (re_match : regex → string → bool).

Definition match_string (pattern : string) (data : option string)
    (re_cache : gmap string regex) : (exn + pyvalue) * gmap string regex :=
  match data with
  | None | Some EmptyString => (inr PyFalse, re_cache)
  | Some text =>
      match re_cache !! pattern with
      | Some r => (inr (if re_match r text then PyMatchObject else PyNone), re_cache)
      | None =>
          match re_compile pattern with
          | None => (inl ReError, re_cache)
          | Some r =>
              (inr (if re_match r text then PyMatchObject else PyNone),
               <[pattern := r]> re_cache)
          end
      end
  end.

(** One step [if match and pat: match = self.match_string(pat, attr)]. *)
Definition criterion (pat attr : option string)
    (st : (exn + pyvalue) * gmap string regex) : (exn + pyvalue) * gmap string regex :=
  match st with
  | (inl e, c) => (inl e, c)
  | (inr m, c) =>
      if truthy m && nonempty pat then match_string (default EmptyString pat) attr c
      else (inr m, c)
  end.

Definition is_match (window : xwindow) (name cls role : option string)
    (desktop : option Z) (re_cache : gmap string regex)
    : (exn + pyvalue) * gmap string regex :=
  let wname := fst <$> wm_class window in
  let wclass := snd <$> wm_class window in
  let st1 := criterion name wname (inr PyTrue, re_cache) in
  let st2 := criterion cls wclass st1 in
  let st3 := criterion role (get_window_role window) st2 in
  match st3 with
  | (inl e, c) => (inl e, c)
  | (inr m, c) =>
      match desktop with
      | Some d =>
          if truthy m then
            (inr (if decide (get_window_desktop window = Some d) then PyTrue else PyFalse), c)
          else (inr m, c)
      | None => (inr m, c)
      end
  end.

(** The matcher as the specification words it: a supplied pattern
    holds when the attribute is present and the pattern matches from
    its start; the desktop is compared for equality; what is omitted
    holds. *)
Definition spec_pattern_holds (pat attr : option string) : Prop :=
  match pat with
  | None => True
  | Some p => ∃ text r, attr = Some text ∧ re_compile p = Some r ∧ re_match r text = true
  end.

Definition spec_matches (window : xwindow) (name cls role : option string)
    (desktop : option Z) : Prop :=
  spec_pattern_holds name (fst <$> wm_class window) ∧
  spec_pattern_holds cls (snd <$> wm_class window) ∧
  spec_pattern_holds role (get_window_role window) ∧
  match desktop with
  | None => True
  | Some d => get_window_desktop window = Some d
  end.

(** The same, with the two guards of the source: an empty pattern
    counts as omitted, and an empty attribute counts as absent. *)
Definition pattern_holds (pat attr : option string) : Prop :=
  nonempty pat = true →
  ∃ p text r, pat = Some p ∧ attr = Some text ∧ text ≠ EmptyString ∧
              re_compile p = Some r ∧ re_match r text = true.

Definition code_matches (window : xwindow) (name cls role : option string)
    (desktop : option Z) : Prop :=
  pattern_holds name (fst <$> wm_class window) ∧
  pattern_holds cls (snd <$> wm_class window) ∧
  pattern_holds role (get_window_role window) ∧
  match desktop with
  | None => True
  | Some d => get_window_desktop window = Some d
  end.

Definition compiles (pat : option string) : Prop :=
  match pat with
  | None => True
  | Some p => is_Some (re_compile p)
  end.

(** The cache only ever holds what [re.compile] returned. *)
Definition cache_sound (re_cache : gmap string regex) : Prop :=
  ∀ p r, re_cache !! p = Some r → re_compile p = Some r.

End Matcher.

(** *** A small regular-expression engine for concrete runs

    Patterns made of literal characters, [.] and a postfixed [*]; any
    other metacharacter is outside the fragment and is refused. *)
Inductive atom :=
| AnyChar
| Literal (c : ascii).

Inductive item :=
| One (a : atom)
| Star (a : atom).

Definition metachar (c : ascii) : bool :=
  bool_decide (c ∈ ["*"; "+"; "?"; "("; ")"; "["; "]"; "{"; "}"; "|"; "^"; "$"; "\"]%char).

Definition atom_of (c : ascii) : atom :=
  if decide (c = "."%char) then AnyChar else Literal c.

Fixpoint simple_compile (p : string) : option (list item) :=
  match p with
  | EmptyString => Some []
  | String c r =>
      if metachar c then None
      else match r with
           | String "*" r' => cons (Star (atom_of c)) <$> simple_compile r'
           | _ => cons (One (atom_of c)) <$> simple_compile r
           end
  end.

Definition accepts (a : atom) (c : ascii) : bool :=
  match a with
  | AnyChar => negb (bool_decide (c = "010"%char))
  | Literal c' => bool_decide (c = c')
  end.

Fixpoint simple_match (r : list item) (text : string) : bool :=
  match r with
  | [] => true
  | One a :: r' =>
      match text with
      | EmptyString => false
      | String c rest => accepts a c && simple_match r' rest
      end
  | Star a :: r' =>
      (fix star (text : string) : bool :=
         simple_match r' text ||
         match text with
         | EmptyString => false
         | String c rest => accepts a c && star rest
         end) text
  end.

End Core.

(** ** Commands and shutdown ([wm.py], lines 286-307 and 496-610) *)

(** What a command puts on the connection.  A client message goes to the
    root window and names its target window. *)
Inductive wire :=
| XSendEvent (window message_type : Z) (data : list Z)
| XFlush
| XChangeProperty (window property type format : Z) (values : list Z)
| XUngrabKey (window : Z).

#[global] Instance wire_eq_dec : EqDecision wire.
Proof. solve_decision. Defined.

(** [_send_event]: [data] is filled with zeros and cut to five items.
    The repetition count [5 - len(data)] is taken as zero when negative. *)
Definition _send_event (window mtype : Z) (data : list Z) : list wire :=
  [XSendEvent window mtype (take 5 (data ++ replicate (5 - length data) 0))].

Definition _flush : list wire := [XFlush].

(** A Python truth value stored in a list of longs. *)
Definition as_long (b : bool) : Z := if b then 1 else 0.

Section Commands.
Context (X : xlib).
(** [X.CurrentTime], a constant of the absent [xlib] module. *)
Context (CurrentTime : Z).

Definition activate_desktop (num : Z) : list wire :=
  if decide (num < 0) then []
  else _send_event (DefaultRootWindow X) (AtomCache X "_NET_CURRENT_DESKTOP") [num]
       ++ _flush.

Definition focus_window (window : Z) : list wire :=
  _send_event window (AtomCache X "_NET_ACTIVE_WINDOW") [2; CurrentTime] ++ _flush.

Definition close_window (window : Z) : list wire :=
  _send_event window (AtomCache X "_NET_CLOSE_WINDOW") [CurrentTime] ++ _flush.

Definition change_window_desktop (window desktop : Z) : list wire :=
  if decide (desktop < 0) then []
  else _send_event window (AtomCache X "_NET_WM_DESKTOP") [desktop] ++ _flush.

(** [activate_window_desktop]; [wd] is [window.desktop] and
    [current_desktop] the property of that name, both read from the
    server.  The result is [True], [False] or [None]. *)
Definition activate_window_desktop (wd : option Z) (current_desktop : Z)
    : option bool * list wire :=
  match wd with
  | Some d =>
      if decide (current_desktop ≠ d) then (Some true, activate_desktop d)
      else (Some false, [])
  | None => (None, [])
  end.

(** [set_window_state]; an argument left out is [None]. *)
Definition set_window_state (window : Z)
    (taskbar pager decorate otaskbar vmax hmax : option bool) : list wire :=
  let state_atom := AtomCache X "_NET_WM_STATE" in
  (match decorate with
   | Some d => _send_event window state_atom
                 [as_long (negb d); AtomCache X "_OB_WM_STATE_UNDECORATED"]
   | None => []
   end) ++
  (match taskbar with
   | Some b => _send_event window state_atom
                 [as_long (negb b); AtomCache X "_NET_WM_STATE_SKIP_TASKBAR"]
   | None => []
   end) ++
  (match vmax with
   | Some v =>
       if decide (Some v = hmax) then
         _send_event window state_atom
           [as_long v; AtomCache X "_NET_WM_STATE_MAXIMIZED_VERT";
            AtomCache X "_NET_WM_STATE_MAXIMIZED_HORZ"]
       else []
   | None => []
   end) ++
  (match otaskbar with
   | Some o =>
       [XChangeProperty window (AtomCache X "_ORCSOME_STATE") (AtomCache X "ATOM") 32
          (if o then [] else [AtomCache X "_ORCSOME_SKIP_TASKBAR"])]
   | None => []
   end) ++
  (match pager with
   | Some b => _send_event window state_atom
                 [as_long (negb b); AtomCache X "_NET_WM_STATE_SKIP_PAGER"]
   | None => []
   end) ++
  _flush.

End Commands.

(** [on_deinit] *)
Definition on_deinit (func : callable) (s : WM) : callable * WM :=
  (func,
   mkWM (key_handlers s) (property_handlers s) (create_handlers s) (destroy_handlers s)
     (init_handlers s) (deinit_handlers s ++ [func]) (signal_handlers s)
     (grab_keyboard_handler s) (grab_pointer_handler s) (focus_history s)
     (startup s) (event_window s) (requests s) (logged s) (next_stamp s)).

Section Shutdown.
Context (X : xlib).
Context (matches : Z → list (string * kwval) → bool).
Context (body : nat → WM → completion * WM).

(** [for h in self.deinit_handlers] of [stop]: every fault is caught and
    logged. *)
Fixpoint shutdown_each (fuel : nat) (i : nat) (s : WM) : option (WM * list invocation) :=
  match fuel with
  | O => None
  | S fuel' =>
      match deinit_handlers s !! i with
      | None => Some (s, [])
      | Some h =>
          let '(c, s1, t) := call matches body h s in
          let s2 := match c with
                    | Normal => s1
                    | Raised e => log (LogException "Shutdown error" e) s1
                    end in
          (λ '(s', t'), (s', t ++ t')) <$> shutdown_each fuel' (S i) s2
      end
  end.

(** [stop]; [clients] is what [get_clients] returns.  The key ungrabs
    are returned as what goes on the connection. *)
Definition stop (fuel : nat) (is_exit : bool) (clients : list Z) (s : WM)
    : option (WM * list wire * list invocation) :=
  let s1 :=
    set_signal_handlers ∅
      (set_focus_history []
         (set_destroy_handlers ∅
            (set_create_handlers []
               (set_property_handlers ∅ (set_key_handlers ∅ s))))) in
  let ungrabs :=
    if is_exit then []
    else XUngrabKey (DefaultRootWindow X) :: (XUngrabKey <$> clients) in
  '(s2, t) ← shutdown_each fuel 0 s1;
  Some (mkWM (key_handlers s2) (property_handlers s2) (create_handlers s2)
          (destroy_handlers s2) [] [] (signal_handlers s2)
          (grab_keyboard_handler s2) (grab_pointer_handler s2) (focus_history s2)
          (startup s2) (event_window s2) (requests s2) (logged s2) (next_stamp s2),
        ungrabs, t).

End Shutdown.

(** The desktop commands of [core.py], lines 232-253 and 429-438. *)
Module CoreDesktop.

Section Desktop.
Context (root : Z).
(** The atom [_NET_CURRENT_DESKTOP] as the display interns it. *)
Context (net_current_desktop : Z).

Definition set_current_desktop (num : Z) : list wire :=
  if decide (num < 0) then []
  else _send_event root net_current_desktop [num] ++ _flush.

Definition activate_window_desktop (window : Core.xwindow) (current_desktop : Z)
    : option bool * list wire :=
  match Core.get_window_desktop window with
  | Some wd =>
      if decide (current_desktop ≠ wd) then (Some true, set_current_desktop wd)
      else (Some false, [])
  | None => (None, [])
  end.

End Desktop.

End CoreDesktop.

(** The ignored-mask expansion of [bind_key] in [core.py], lines 73-87:
    the same loop over the three masks of [Core.IGNORED_MOD_MASKS]. *)
Definition core_apply_binder (X : xlib) (b : binder) (func : callable) (s : WM)
    : callable * option remover * WM :=
  match b with
  | IdentityBinder => (func, None, s)
  | KeyBinder window modmask code =>
      let '(keys, s') :=
        grab_all window modmask code func (Core.IGNORED_MOD_MASKS X) [] s in
      (func, Some (RemoveKeys window keys), s')
  end.

(** [find_clients] and [find_client] of [wm.py]; [matches] is
    [Window.matches] with the keyword arguments given. *)
Definition find_clients (matches : Z → list (string * kwval) → bool)
    (clients : list Z) (matchers : list (string * kwval)) : list Z :=
  filter (λ r, matches r matchers = true) clients.

Definition find_client (matches : Z → list (string * kwval) → bool)
    (clients : list Z) (matchers : list (string * kwval)) : option Z :=
  match find_clients matches clients matchers with
  | first :: _ => Some first
  | [] => None
  end.

(** What a deinit handler must leave alone for [stop] to end with empty
    registries: the registries, the deinit list and the two grab slots. *)
Definition shutdown_frame (s : WM) :=
  (registries s, deinit_handlers s, grab_keyboard_handler s, grab_pointer_handler s).

(** ** Concrete worlds *)

(** User code that does nothing, and a matcher that accepts any window. *)
Definition quiet (f : nat) (s : WM) : completion * WM := (Normal, s).
Definition quiet_grab (f : nat) (pressed : bool) (state keycode : Z) (s : WM)
    : completion * WM := (Normal, s).
Definition any_window (w : Z) (matchers : list (string * kwval)) : bool := true.

(** Window 7 with a key binding, a destruction listener, a property
    subscription and the focus. *)
Definition doomed : WM :=
  let '(_, _, s1) :=
    apply_binder x11 (fst (bind_key x11 7 "Ctrl+d" new_WM)) (Fn 1%nat)
                 (snd (bind_key x11 7 "Ctrl+d" new_WM)) in
  let '(_, _, s2) := on_destroy 7 (Fn 2%nat) s1 in
  let '(_, _, s3) := on_property_change x11 (Some 7) ["_NET_WM_DESKTOP"%string] (Fn 3%nat) s2 in
  snd (fst (handle_focusin 7 s3)).

(** Two creation listeners, the first of which calls its own removal
    handle when it runs. *)
Definition two_listeners : WM :=
  (on_manage [] (Fn 2%nat) (on_manage [] (Fn 1%nat) new_WM).2).2.

Definition self_removing (f : nat) (s : WM) : completion * WM :=
  if decide (f = 1%nat) then invoke_remove x11 (RemoveCreate (Fn 1%nat)) s
  else (Normal, s).

(** Two global subscribers of one property, the first of which
    unsubscribes itself when it runs, as in the docstring of
    [on_property_change]. *)
Definition two_subscribers : WM :=
  (on_property_change x11 None ["_NET_WM_DESKTOP"%string] (Fn 2%nat)
     (on_property_change x11 None ["_NET_WM_DESKTOP"%string] (Fn 1%nat) new_WM).2).2.

Definition self_unsubscribing (f : nat) (s : WM) : completion * WM :=
  if decide (f = 1%nat)
  then invoke_remove x11 (RemoveProperty None ["_NET_WM_DESKTOP"%string] (Fn 1%nat)) s
  else (Normal, s).

(** A global subscriber of a property, registered before a subscriber of
    the same property on window 7. *)
Definition watched : WM :=
  (on_property_change x11 (Some 7) ["_NET_WM_STATE"%string] (Fn 1%nat)
     (on_property_change x11 None ["_NET_WM_STATE"%string] (Fn 2%nat) new_WM).2).2.

(** Window 9 with two subscribers of one of its properties, and a global
    subscriber of the same property registered last; and user code in
    which the first subscriber of the window unsubscribes itself when it
    runs. *)
Definition window_subscribers : WM :=
  (on_property_change x11 None ["_NET_WM_STATE"%string] (Fn 2%nat)
     (on_property_change x11 (Some 9) ["_NET_WM_STATE"%string] (Fn 3%nat)
        (on_property_change x11 (Some 9) ["_NET_WM_STATE"%string] (Fn 1%nat) new_WM).2).2).2.

Definition window_unsubscribing (f : nat) (s : WM) : completion * WM :=
  if decide (f = 1%nat)
  then invoke_remove x11 (RemoveProperty (Some 9) ["_NET_WM_STATE"%string] (Fn 1%nat)) s
  else (Normal, s).

(** A listener registered with [on_create] (skipped during startup) and
    one registered with [on_manage]. *)
Definition skipper : WM :=
  (on_manage [] (Fn 2%nat) (on_create [] (Fn 1%nat) new_WM).2).2.


(** User code in which function 1 raises an ordinary fault, function 2
    asks for a restart and function 3 is interrupted. *)
Definition faulty (f : nat) (s : WM) : completion * WM :=
  match f with
  | 1%nat => (Raised (Exception 0), s)
  | 2%nat => (Raised RestartException, s)
  | 3%nat => (Raised KeyboardInterrupt, s)
  | _ => (Normal, s)
  end.

(** Two listeners of the signal [reload], the first of them function 1. *)
Definition signalled : WM :=
  (on_signal "reload" (Fn 4%nat) (on_signal "reload" (Fn 1%nat) new_WM).2).2.

(** User code in which function 1 raises an ordinary fault and every
    other function returns. *)
Definition failing (f : nat) (s : WM) : completion * WM :=
  if decide (f = 1%nat) then (Raised (Exception 0), s) else (Normal, s).

(** Two windows as the display server describes them: a terminal on
    desktop 2, and a window on every desktop whose instance name is the
    empty string. *)
Definition urxvt : Core.xwindow := {|
  Core.wm_class := Some ("urxvt"%string, "URxvt"%string);
  Core.wm_window_role := Some (8, "term"%string);
  Core.net_wm_desktop := Some 2
|}.

Definition nameless : Core.xwindow := {|
  Core.wm_class := Some (EmptyString, "Gimp"%string);
  Core.wm_window_role := None;
  Core.net_wm_desktop := Some 4294967295
|}.

(** The instance [doomed] with two deinit handlers, the first of them
    function 1, and a keyboard grab held. *)
Definition stopping : WM :=
  (grab_keyboard x11 0 (Fn 9%nat)
     (on_deinit (Fn 4%nat) (on_deinit (Fn 1%nat) doomed).2).2).2.

(** * Properties *)

(** ** Field and list facts *)

Lemma list_remove_None {A} `{EqDecision A} (x : A) (l : list A) :
  list_remove x l = None ↔ x ∉ l.
Proof.
  induction l as [|y l IH]; simpl.
  - split; [intros _; apply not_elem_of_nil | done].
  - destruct (decide (y = x)) as [->|Hne].
    + split; [done | intros Hn; exfalso; apply Hn; left].
    + rewrite fmap_None, IH, not_elem_of_cons. split; [by intros ?; split | by intros [_ ?]].
Qed.

Lemma list_remove_Some_not_in {A} `{EqDecision A} (x : A) (l l' : list A) :
  NoDup l → list_remove x l = Some l' → x ∉ l'.
Proof.
  revert l'. induction l as [|y l IH]; simpl; intros l' Hnd Hr; [done|].
  apply NoDup_cons in Hnd as [Hy Hnd].
  destruct (decide (y = x)) as [->|Hne].
  - by inversion Hr; subst.
  - destruct (list_remove x l) as [r|] eqn:E; simplify_eq/=.
    rewrite not_elem_of_cons. split; [congruence | by apply IH].
Qed.

Lemma list_remove_app_fresh {A} `{EqDecision A} (x : A) (l : list A) :
  x ∉ l → list_remove x (l ++ [x]) = Some l.
Proof.
  induction l as [|y l IH]; simpl; intros Hn.
  - by rewrite decide_True.
  - apply not_elem_of_cons in Hn as [Hne Hn].
    rewrite decide_False by congruence. by rewrite IH.
Qed.

(** ** Lifecycle cleaner *)

Lemma clean_keeps_destroy_handlers (w : Z) (s : WM) :
  destroy_handlers (_clean_window_data w s) = destroy_handlers s.
Proof. reflexivity. Qed.

Lemma clean_purges_keys (w : Z) (s : WM) :
  key_handlers (_clean_window_data w s) !! w = None.
Proof. simpl. apply lookup_delete_eq. Qed.

Lemma clean_purges_focus (w : Z) (s : WM) :
  NoDup (focus_history s) → w ∉ focus_history (_clean_window_data w s).
Proof.
  intros Hnd. simpl.
  destruct (list_remove w (focus_history s)) as [l|] eqn:E; simpl.
  - eapply list_remove_Some_not_in; eauto.
  - by apply list_remove_None.
Qed.

Lemma clean_purges_properties (w atom : Z) (s : WM) :
  (property_handlers (_clean_window_data w s) !! atom ≫= (.!! Some w)) = None.
Proof.
  simpl. rewrite lookup_omap.
  destruct (property_handlers s !! atom) as [wh|]; simpl; [|done].
  case_decide; simpl; [done|]. apply lookup_delete_eq.
Qed.

(** C1: the destroy path on a window that has a destruction listener.
    The listener runs, the cleanup runs after it and purges the key
    bindings, the property subscriptions and the focus history of the
    window, yet the destruction-listener map still holds the entry keyed
    by the window: [_clean_window_data] reads the entry without deleting
    it. *)
Theorem C1_destroy_entry_survives_cleanup :
  ∃ s',
    handle_destroy any_window quiet 2 7 doomed
      = Some (Normal, s', [Call (Fn 2%nat) None (Some 7)]) ∧
    key_handlers s' !! 7 = None ∧
    (∀ atom, (property_handlers s' !! atom ≫= (.!! Some 7)) = None) ∧
    (7 ∉ focus_history s') ∧
    destroy_handlers doomed !! 7 = Some [Fn 2%nat] ∧
    destroy_handlers s' !! 7 = Some [Fn 2%nat].
Proof.
  eexists. split; [vm_compute; reflexivity|].
  split; [vm_compute; reflexivity|].
  split.
  { intros atom. apply (clean_purges_properties 7 atom (set_event_window (Some 7) doomed)). }
  split; [|split; vm_compute; reflexivity].
  apply (clean_purges_focus 7 (set_event_window (Some 7) doomed)).
  vm_compute. apply NoDup_singleton.
Qed.

(** ** Key-spec compiler *)

Lemma fold_modifiers_None (X : xlib) (mods : list string) (acc : Z) :
  fold_modifiers X mods acc = None ↔ ∃ m, m ∈ mods ∧ MODIFICATORS X !! m = None.
Proof.
  revert acc. induction mods as [|m mods IH]; intros acc; simpl.
  - split; [done | intros (m & Hm & _); by apply elem_of_nil in Hm].
  - destruct (MODIFICATORS X !! m) as [bit|] eqn:E.
    + rewrite IH. split.
      * intros (m' & Hin & Hm'). exists m'. split; [by right | done].
      * intros (m' & Hin & Hm'). apply elem_of_cons in Hin as [->|Hin]; [congruence|].
        by exists m'.
    + split; [intros _; exists m; split; [left | done] | done].
Qed.

(** C9: a key spec with an unknown modifier token, or with a key name
    that resolves to no symbol, logs one configuration error, sends no
    grab request and changes no registry; the binder it returns hands the
    handler back, in any state, without a fault and without registering
    anything. *)
Theorem C9_invalid_key_spec_is_a_noop (X : xlib) (window : Z) (keydef : string)
    (func : callable) (s : WM) :
  (∃ m, m ∈ removelast (split "+" keydef) ∧ MODIFICATORS X !! m = None) ∨
  XStringToKeysym X (List.last (split "+" keydef) EmptyString) = NoSymbol X →
  ∃ b s',
    bind_key X window keydef s = (b, s') ∧
    logged s' = logged s ++ [invalid_key keydef] ∧
    requests s' = requests s ∧
    registries s' = registries s ∧
    grab_keyboard_handler s' = grab_keyboard_handler s ∧
    grab_pointer_handler s' = grab_pointer_handler s ∧
    ∀ s'', apply_binder X b func s'' = (func, None, s'').
Proof.
  intros H. exists IdentityBinder, (log (invalid_key keydef) s).
  split; [|by repeat split].
  unfold bind_key.
  destruct (fold_modifiers X (removelast (split "+" keydef)) 0) as [modmask|] eqn:E.
  - destruct H as [H|H].
    + apply (proj2 (fold_modifiers_None X _ 0)) in H. congruence.
    + by rewrite H, decide_True.
  - done.
Qed.

Lemma C9_invalid_key_spec_witness :
  ∃ b s',
    bind_key x11 1 "Hyper+x" new_WM = (b, s') ∧
    logged s' = logged new_WM ++ [invalid_key "Hyper+x"] ∧
    requests s' = requests new_WM ∧
    registries s' = registries new_WM ∧
    grab_keyboard_handler s' = grab_keyboard_handler new_WM ∧
    grab_pointer_handler s' = grab_pointer_handler new_WM ∧
    ∀ s'', apply_binder x11 b (Fn 1%nat) s'' = (Fn 1%nat, None, s'').
Proof.
  apply (C9_invalid_key_spec_is_a_noop x11 1 "Hyper+x" (Fn 1%nat) new_WM).
  left. exists "Hyper"%string. split; vm_compute; [left | reflexivity].
Defined.

(** ** Exclusive grab slots *)

Lemma set_grab_keyboard_same (s : WM) (o : option callable) :
  grab_keyboard_handler s = o → set_grab_keyboard_handler o s = s.
Proof. destruct s; simpl; intros ->; reflexivity. Qed.

Lemma set_grab_pointer_same (s : WM) (o : option callable) :
  grab_pointer_handler s = o → set_grab_pointer_handler o s = s.
Proof. destruct s; simpl; intros ->; reflexivity. Qed.

Lemma send_changes_instance (r : xrequest) (s : WM) : send r s ≠ s.
Proof.
  intros H. apply (f_equal (λ s0, length (requests s0))) in H.
  simpl in H. rewrite length_app in H. simpl in H. lia.
Qed.

(** C10, as the source has it.  Each slot is an option, so it holds at
    most one handler.  Acquiring a held slot answers false and leaves the
    whole instance as it was.  Releasing never fails and empties the
    slot, touching nothing else but the connection, to which it forwards
    the ungrab request whether the slot is held or not: on a free slot
    the release leaves the slots and the registries as they were, and
    still changes the instance by the request it sends; releasing twice
    leaves the slot and the registries as releasing once, and sends the
    request twice.  After a release, an acquire the server grants answers
    true and installs the new handler.  The same holds of the pointer
    slot. *)
Theorem C10_exclusive_grab_slots (X : xlib) (func : callable) (reply r1 r2 : Z) (s : WM) :
  (is_Some (grab_keyboard_handler s) → grab_keyboard X reply func s = (false, s)) ∧
  (grab_keyboard_handler (ungrab_keyboard r1 s).2 = None ∧
   grab_pointer_handler (ungrab_keyboard r1 s).2 = grab_pointer_handler s ∧
   registries (ungrab_keyboard r1 s).2 = registries s ∧
   requests (ungrab_keyboard r1 s).2 = requests s ++ [XUngrabKeyboard]) ∧
  (grab_keyboard_handler s = None →
   (ungrab_keyboard r1 s).2 = send XUngrabKeyboard s ∧ (ungrab_keyboard r1 s).2 ≠ s) ∧
  (grab_keyboard_handler (ungrab_keyboard r2 (ungrab_keyboard r1 s).2).2
     = grab_keyboard_handler (ungrab_keyboard r1 s).2 ∧
   registries (ungrab_keyboard r2 (ungrab_keyboard r1 s).2).2
     = registries (ungrab_keyboard r1 s).2 ∧
   requests (ungrab_keyboard r2 (ungrab_keyboard r1 s).2).2
     = requests s ++ [XUngrabKeyboard; XUngrabKeyboard]) ∧
  ((grab_keyboard X 0 func (ungrab_keyboard r1 s).2).1 = true ∧
   grab_keyboard_handler (grab_keyboard X 0 func (ungrab_keyboard r1 s).2).2 = Some func) ∧
  (is_Some (grab_pointer_handler s) → grab_pointer X reply func s = (false, s)) ∧
  (grab_pointer_handler (ungrab_pointer r1 s).2 = None ∧
   grab_keyboard_handler (ungrab_pointer r1 s).2 = grab_keyboard_handler s ∧
   registries (ungrab_pointer r1 s).2 = registries s ∧
   requests (ungrab_pointer r1 s).2 = requests s ++ [XUngrabPointer]) ∧
  (grab_pointer_handler s = None →
   (ungrab_pointer r1 s).2 = send XUngrabPointer s ∧ (ungrab_pointer r1 s).2 ≠ s) ∧
  (grab_pointer_handler (ungrab_pointer r2 (ungrab_pointer r1 s).2).2
     = grab_pointer_handler (ungrab_pointer r1 s).2 ∧
   registries (ungrab_pointer r2 (ungrab_pointer r1 s).2).2
     = registries (ungrab_pointer r1 s).2 ∧
   requests (ungrab_pointer r2 (ungrab_pointer r1 s).2).2
     = requests s ++ [XUngrabPointer; XUngrabPointer]) ∧
  ((grab_pointer X 0 func (ungrab_pointer r1 s).2).1 = true ∧
   grab_pointer_handler (grab_pointer X 0 func (ungrab_pointer r1 s).2).2 = Some func).
Proof.
  repeat apply conj; try reflexivity.
  - intros [h Hh]. unfold grab_keyboard. by rewrite Hh.
  - intros Hn. simpl. rewrite (set_grab_keyboard_same s None Hn).
    split; [done | apply send_changes_instance].
  - simpl. by rewrite <- app_assoc.
  - intros [h Hh]. unfold grab_pointer. by rewrite Hh.
  - intros Hn. simpl. rewrite (set_grab_pointer_same s None Hn).
    split; [done | apply send_changes_instance].
  - simpl. by rewrite <- app_assoc.
Qed.

Lemma C10_keyboard_grab_witness :
  grab_keyboard x11 0 (Fn 2%nat) (grab_keyboard x11 0 (Fn 1%nat) new_WM).2
    = (false, (grab_keyboard x11 0 (Fn 1%nat) new_WM).2) ∧
  (grab_keyboard x11 0 (Fn 2%nat)
     (ungrab_keyboard 0 (grab_keyboard x11 0 (Fn 1%nat) new_WM).2).2).1 = true.
Proof.
  pose proof (C10_exclusive_grab_slots x11 (Fn 2%nat) 0 0 0
                (grab_keyboard x11 0 (Fn 1%nat) new_WM).2) as (H1 & _ & _ & _ & (H5 & _) & _).
  split; [apply H1; vm_compute; eexists; reflexivity | exact H5].
Defined.

(** C10 as stated fails: on a fresh instance neither slot is held, and
    releasing the keyboard slot is not a no-op: the instance changes,
    because the ungrab request goes to the server; a second release sends
    it again.  The same for the pointer slot. *)
Lemma C10_release_of_free_slot_counterexample :
  grab_keyboard_handler new_WM = None ∧
  grab_pointer_handler new_WM = None ∧
  (ungrab_keyboard 0 new_WM).2 ≠ new_WM ∧
  requests new_WM = [] ∧
  requests (ungrab_keyboard 0 new_WM).2 = [XUngrabKeyboard] ∧
  requests (ungrab_keyboard 0 (ungrab_keyboard 0 new_WM).2).2
    = [XUngrabKeyboard; XUngrabKeyboard] ∧
  (ungrab_keyboard 0 (ungrab_keyboard 0 new_WM).2).2 ≠ (ungrab_keyboard 0 new_WM).2 ∧
  (ungrab_pointer 0 new_WM).2 ≠ new_WM ∧
  requests (ungrab_pointer 0 new_WM).2 = [XUngrabPointer].
Proof.
  repeat apply conj; try reflexivity.
  - intros H. by apply (f_equal requests) in H.
  - intros H. by apply (f_equal requests) in H.
  - intros H. by apply (f_equal requests) in H.
Qed.

(** ** Ignored-modifier expansion *)

Lemma lor_free_inj (m K A B : Z) :
  Z.land m K = 0 → Z.land A K = A → Z.land B K = B →
  Z.lor m A = Z.lor m B → A = B.
Proof.
  intros Hm HA HB Heq.
  assert (HA' : Z.land (Z.lor m A) K = A)
    by (rewrite Z.land_lor_distr_l, Hm, HA; apply Z.lor_0_l).
  assert (HB' : Z.land (Z.lor m B) K = B)
    by (rewrite Z.land_lor_distr_l, Hm, HB; apply Z.lor_0_l).
  rewrite <- HA', <- HB'. by rewrite Heq.
Qed.

Lemma ignored_masks_distinct (X : xlib) :
  ignorable_bits_free X → NoDup (IGNORED_MOD_MASKS X).
Proof.
  intros (HL & HM & Hd & _). unfold IGNORED_MOD_MASKS.
  assert (HK : Z.lor (LockMask X) (Mod2Mask X) ≠ 0)
    by (intros H0; apply Z.lor_eq_0_iff in H0 as [? _]; done).
  assert (HLM : LockMask X ≠ Mod2Mask X).
  { intros E. rewrite <- E, Z.land_diag in Hd. done. }
  assert (HLK : LockMask X ≠ Z.lor (LockMask X) (Mod2Mask X)).
  { intros E. apply HM.
    assert (H : Z.land (Mod2Mask X) (Z.lor (LockMask X) (Mod2Mask X)) = Mod2Mask X).
    { rewrite Z.land_lor_distr_r, Z.land_diag, (Z.land_comm (Mod2Mask X)), Hd.
      apply Z.lor_0_l. }
    rewrite <- E, Z.land_comm, Hd in H. done. }
  assert (HMK : Mod2Mask X ≠ Z.lor (LockMask X) (Mod2Mask X)).
  { intros E. apply HL.
    assert (H : Z.land (LockMask X) (Z.lor (LockMask X) (Mod2Mask X)) = LockMask X).
    { rewrite Z.land_lor_distr_r, Z.land_diag, Hd. apply Z.lor_0_r. }
    rewrite <- E, Hd in H. done. }
  repeat (apply NoDup_cons; split;
          [rewrite ?not_elem_of_cons; repeat split; try apply not_elem_of_nil; congruence|]).
  apply NoDup_nil_2.
Qed.

Lemma ignored_masks_within (X : xlib) (i : Z) :
  ignorable_bits_free X → i ∈ IGNORED_MOD_MASKS X →
  Z.land i (Z.lor (LockMask X) (Mod2Mask X)) = i.
Proof.
  intros (_ & _ & Hd & _) Hi. unfold IGNORED_MOD_MASKS in Hi.
  rewrite !elem_of_cons in Hi.
  destruct Hi as [->|[->|[->|[->|Hi]]]]; [| | | |by apply elem_of_nil in Hi].
  - apply Z.land_0_l.
  - rewrite Z.land_lor_distr_r, Z.land_diag, Hd. apply Z.lor_0_r.
  - rewrite Z.land_lor_distr_r, Z.land_diag, (Z.land_comm (Mod2Mask X)), Hd.
    apply Z.lor_0_l.
  - apply Z.land_diag.
Qed.

Lemma fold_modifiers_free (X : xlib) (mods : list string) (acc modmask : Z) :
  ignorable_bits_free X →
  Z.land acc (Z.lor (LockMask X) (Mod2Mask X)) = 0 →
  fold_modifiers X mods acc = Some modmask →
  Z.land modmask (Z.lor (LockMask X) (Mod2Mask X)) = 0.
Proof.
  intros HX. revert acc.
  induction mods as [|m mods IH]; simpl; intros acc Hacc Hf; [congruence|].
  destruct (MODIFICATORS X !! m) as [bit|] eqn:E; [|done].
  apply IH with (acc := Z.lor acc bit); [|done].
  destruct HX as (_ & _ & _ & Hbits).
  rewrite Z.land_lor_distr_l, Hacc, (Hbits m bit E). reflexivity.
Qed.

Lemma bind_key_parsed (X : xlib) (window : Z) (keydef : string) (s s' : WM)
    (w modmask code : Z) :
  bind_key X window keydef s = (KeyBinder w modmask code, s') →
  w = window ∧ s' = s ∧
  fold_modifiers X (removelast (split "+" keydef)) 0 = Some modmask.
Proof.
  unfold bind_key.
  destruct (fold_modifiers X (removelast (split "+" keydef)) 0) as [mm|]; [|done].
  case_decide; [done|]. intros [= <- <- _ <-]. done.
Qed.

Lemma expanded_keys_distinct (X : xlib) (modmask code : Z) :
  ignorable_bits_free X →
  Z.land modmask (Z.lor (LockMask X) (Mod2Mask X)) = 0 →
  NoDup ((λ i, (Z.lor modmask i, code)) <$> IGNORED_MOD_MASKS X).
Proof.
  intros HX Hm. apply NoDup_fmap_2_strong; [|by apply ignored_masks_distinct].
  intros i j Hi Hj [= Heq].
  eapply lor_free_inj; eauto using ignored_masks_within.
Qed.

Lemma same_but_keys_refl (s : WM) : same_but_keys s s.
Proof. by repeat split. Qed.

Lemma same_but_keys_trans (s1 s2 s3 : WM) :
  same_but_keys s1 s2 → same_but_keys s2 s3 → same_but_keys s1 s3.
Proof.
  unfold same_but_keys. intros H1 H2.
  repeat match goal with H : _ ∧ _ |- _ => destruct H as [? H] end.
  repeat split; congruence.
Qed.

Lemma key_store_binding (w : Z) (k k' : Z * Z) (func : callable) (s : WM) :
  key_binding (key_store w k func s) w k'
  = if decide (k' = k) then Some func else key_binding s w k'.
Proof.
  unfold key_binding, key_store. simpl. rewrite lookup_insert_eq. simpl.
  case_decide as Hk.
  - subst. apply lookup_insert_eq.
  - rewrite lookup_insert_ne by congruence.
    destruct (key_handlers s !! w); simpl; [done | apply lookup_empty].
Qed.

Lemma key_store_elsewhere (w w' : Z) (k : Z * Z) (func : callable) (s : WM) :
  w' ≠ w → key_handlers (key_store w k func s) !! w' = key_handlers s !! w'.
Proof. intros Hne. simpl. by rewrite lookup_insert_ne. Qed.

Lemma grab_all_spec (w modmask code : Z) (func : callable) (imasks : list Z) :
  ∀ (keys : list (Z * Z)) (s : WM),
    ∃ s', grab_all w modmask code func imasks keys s
          = (keys ++ ((λ i, (Z.lor modmask i, code)) <$> imasks), s') ∧
      requests s' = requests s ++ ((λ i, XGrabKey code (Z.lor modmask i) w) <$> imasks) ∧
      (∀ k, key_binding s' w k
            = if decide (k ∈ (λ i, (Z.lor modmask i, code)) <$> imasks)
              then Some func else key_binding s w k) ∧
      (∀ w', w' ≠ w → key_handlers s' !! w' = key_handlers s !! w') ∧
      same_but_keys s s'.
Proof.
  induction imasks as [|i rest IH]; intros keys s; simpl.
  - exists s. rewrite !app_nil_r. by repeat split.
  - destruct (IH (keys ++ [(Z.lor modmask i, code)])
                 (key_store w (Z.lor modmask i, code) func
                    (send (XGrabKey code (Z.lor modmask i) w) s)))
      as (s' & Heq & Hreq & Hbind & Hother & Hframe).
    exists s'. rewrite Heq, <- app_assoc. split; [done|].
    split; [rewrite Hreq; simpl; by rewrite <- app_assoc|].
    split; [|split].
    + intros k. rewrite Hbind, key_store_binding.
      repeat case_decide; try done; exfalso;
        rewrite elem_of_cons in *; naive_solver.
    + intros w' Hne. rewrite Hother by done. by rewrite key_store_elsewhere.
    + eapply same_but_keys_trans; [|exact Hframe]. by repeat split.
Qed.

Lemma remove_keys_spec (w : Z) (keys : list (Z * Z)) :
  ∀ s : WM,
    NoDup keys → (∀ k, k ∈ keys → is_Some (key_binding s w k)) →
    ∃ s', remove_keys w keys s = (Normal, s') ∧
      requests s' = requests s ∧
      (∀ k, key_binding s' w k = if decide (k ∈ keys) then None else key_binding s w k) ∧
      (∀ w', w' ≠ w → key_handlers s' !! w' = key_handlers s !! w') ∧
      same_but_keys s s'.
Proof.
  induction keys as [|k rest IH]; intros s Hnd Hall; simpl.
  - exists s. by repeat split.
  - apply NoDup_cons in Hnd as [Hk Hnd].
    destruct (Hall k ltac:(left)) as [h Hh]. unfold key_binding in Hh.
    destruct (key_handlers s !! w) as [pw|] eqn:Ew; simpl in Hh; [|done].
    rewrite Hh.
    set (s1 := set_key_handlers (<[w:=delete k pw]> (key_handlers s)) s).
    assert (Hb1 : ∀ k', key_binding s1 w k'
                        = if decide (k' = k) then None else key_binding s w k').
    { intros k'. unfold key_binding, s1. simpl. rewrite lookup_insert_eq, Ew. simpl.
      case_decide; [subst; apply lookup_delete_eq | by apply lookup_delete_ne]. }
    destruct (IH s1 Hnd) as (s' & Heq & Hreq & Hbind & Hother & Hframe).
    { intros k' Hin. rewrite Hb1. rewrite decide_False by (intros ->; done).
      apply Hall. by right. }
    exists s'. split; [done|]. split; [by rewrite Hreq|]. split; [|split].
    + intros k'. rewrite Hbind, Hb1.
      repeat case_decide; try done; exfalso;
        rewrite elem_of_cons in *; naive_solver.
    + intros w' Hne. rewrite Hother by done. unfold s1. simpl.
      by rewrite lookup_insert_ne.
    + eapply same_but_keys_trans; [|exact Hframe]. by repeat split.
Qed.

Lemma remove_keys_missing (w : Z) (k : Z * Z) (rest : list (Z * Z)) (s : WM) :
  key_binding s w k = None → remove_keys w (k :: rest) s = (Raised KeyError, s).
Proof.
  unfold key_binding. simpl.
  destruct (key_handlers s !! w) as [pw|]; simpl; [|done]. by intros ->.
Qed.

(** C3: a key spec that parses to the mask [modmask] and the key code
    [code] on [window].  Applying the binder to [func] records [func]
    under the four pairs [(modmask | i, code)], [i] ranging over nothing,
    lock, the secondary modifier and both; the four pairs are distinct and
    no other binding of any window changes; one grab request per pair goes
    out, in that order; nothing else of the instance changes.  The one
    removal handle attached to [func] lists these four pairs, and invoking
    it completes without fault and deletes exactly them. *)
Theorem C3_four_grabs_under_one_handle (X : xlib) (window : Z) (keydef : string)
    (func : callable) (s s0 : WM) (w modmask code : Z) :
  ignorable_bits_free X →
  bind_key X window keydef s0 = (KeyBinder w modmask code, s) →
  let keys := [(modmask, code); (Z.lor modmask (LockMask X), code);
               (Z.lor modmask (Mod2Mask X), code);
               (Z.lor modmask (Z.lor (LockMask X) (Mod2Mask X)), code)] in
  w = window ∧ s = s0 ∧ NoDup keys ∧
  ∃ s',
    apply_binder X (KeyBinder w modmask code) func s
      = (func, Some (RemoveKeys window keys), s') ∧
    (∀ k, key_binding s' window k
          = if decide (k ∈ keys) then Some func else key_binding s window k) ∧
    (∀ w', w' ≠ window → key_handlers s' !! w' = key_handlers s !! w') ∧
    requests s' = requests s ++ ((λ k, XGrabKey k.2 k.1 window) <$> keys) ∧
    same_but_keys s s' ∧
    ∃ s'',
      invoke_remove X (RemoveKeys window keys) s' = (Normal, s'') ∧
      (∀ k, key_binding s'' window k
            = if decide (k ∈ keys) then None else key_binding s window k) ∧
      (∀ w', w' ≠ window → key_handlers s'' !! w' = key_handlers s !! w') ∧
      requests s'' = requests s' ∧
      same_but_keys s s''.
Proof.
  intros HX Hbind keys.
  apply bind_key_parsed in Hbind as (-> & -> & Hfold).
  assert (Hfree : Z.land modmask (Z.lor (LockMask X) (Mod2Mask X)) = 0)
    by exact (fold_modifiers_free X _ 0 modmask HX (Z.land_0_l _) Hfold).
  assert (Hkeys : keys = (λ i, (Z.lor modmask i, code)) <$> IGNORED_MOD_MASKS X)
    by (unfold keys; simpl; by rewrite Z.lor_0_r).
  assert (Hnd : NoDup keys) by (rewrite Hkeys; by apply expanded_keys_distinct).
  do 3 (split; [done|]).
  destruct (grab_all_spec window modmask code func (IGNORED_MOD_MASKS X) [] s0)
    as (s' & Heq & Hreq & Hb & Hother & Hframe).
  rewrite <- Hkeys in Heq, Hb. change ([] ++ keys) with keys in Heq.
  exists s'. unfold apply_binder. rewrite Heq.
  split; [done|]. split; [exact Hb|].
  split; [exact Hother|].
  split; [rewrite Hreq; unfold keys; simpl; by rewrite Z.lor_0_r|].
  split; [exact Hframe|].
  destruct (remove_keys_spec window keys s' Hnd) as (s'' & Hrm & Hreq' & Hb' & Hother' & Hframe').
  { intros k Hin. rewrite Hb. by rewrite decide_True. }
  exists s''. simpl. split; [done|]. split; [|split; [|split]].
  - intros k. rewrite Hb', Hb. by case_decide.
  - intros w' Hne. by rewrite Hother', Hother.
  - done.
  - eapply same_but_keys_trans; eauto.
Qed.

Lemma x11_bits_free : ignorable_bits_free x11.
Proof.
  repeat split; try done.
  intros m bit Hm. apply elem_of_list_to_map_2 in Hm.
  repeat (apply elem_of_cons in Hm as [[= _ ->]|Hm]; [reflexivity|]).
  by apply elem_of_nil in Hm.
Qed.

Lemma C3_four_grabs_witness :
  ignorable_bits_free x11 ∧
  bind_key x11 5 "Ctrl+Alt+t" new_WM = (KeyBinder 5 12 57, new_WM) ∧
  NoDup [(12, 57); (14, 57); (28, 57); (30, 57)] ∧
  ∃ s', apply_binder x11 (KeyBinder 5 12 57) (Fn 1%nat) new_WM
        = (Fn 1%nat, Some (RemoveKeys 5 [(12, 57); (14, 57); (28, 57); (30, 57)]), s') ∧
        requests s' = [XGrabKey 57 12 5; XGrabKey 57 14 5; XGrabKey 57 28 5; XGrabKey 57 30 5].
Proof.
  split; [exact x11_bits_free|]. split; [vm_compute; reflexivity|].
  destruct (C3_four_grabs_under_one_handle x11 5 "Ctrl+Alt+t" (Fn 1%nat) new_WM new_WM
              5 12 57 x11_bits_free ltac:(vm_compute; reflexivity))
    as (_ & _ & Hnd & s' & Happ & _ & _ & Hreq & _).
  split; [exact Hnd|]. exists s'. split; [exact Happ | exact Hreq].
Defined.

(** ** Removal handles *)

Lemma list_remove_replicate (func : callable) (base : list callable) (n : nat) :
  func ∉ base →
  list_remove func (base ++ replicate (S n) func) = Some (base ++ replicate n func).
Proof.
  induction base as [|y base IH]; intros Hn.
  - simpl. by rewrite decide_True.
  - apply not_elem_of_cons in Hn as [Hne Hn].
    rewrite <- app_comm_cons. cbn [list_remove].
    rewrite decide_False by congruence. by rewrite IH.
Qed.

Lemma property_slot_Some (s : WM) (atom : Z) (window : option Z) (l : list callable) :
  property_slot s atom window = Some l ↔
  ∃ pw, property_handlers s !! atom = Some pw ∧ pw !! window = Some l.
Proof.
  unfold property_slot. destruct (property_handlers s !! atom) as [pw|]; simpl.
  - split; [intros H; by exists pw | by intros (pw' & [= <-] & H)].
  - split; [done | by intros (pw' & ? & _)].
Qed.

Lemma property_store_slot (atom : Z) (window : option Z) (func : callable) (s : WM)
    (atom' : Z) (window' : option Z) :
  property_slot (property_store atom window func s) atom' window'
  = if decide (atom' = atom ∧ window' = window)
    then Some (default [] (property_slot s atom window) ++ [func])
    else property_slot s atom' window'.
Proof.
  unfold property_slot, property_store. simpl.
  destruct (decide (atom' = atom)) as [->|Ha].
  - rewrite lookup_insert_eq. simpl.
    destruct (decide (window' = window)) as [->|Hw].
    + rewrite decide_True by done. rewrite lookup_insert_eq.
      by destruct (property_handlers s !! atom).
    + rewrite decide_False by (by intros [_ ?]). rewrite lookup_insert_ne by done.
      destruct (property_handlers s !! atom); simpl; [done | apply lookup_empty].
  - rewrite decide_False by (by intros [? _]). by rewrite lookup_insert_ne.
Qed.

Lemma occurrences_cons (X : xlib) (atom : Z) (p : string) (props : list string) :
  occurrences X atom (p :: props)
  = if decide (AtomCache X p = atom) then S (occurrences X atom props)
    else occurrences X atom props.
Proof. unfold occurrences. rewrite filter_cons. by case_decide. Qed.

Ltac split_decides :=
  repeat case_decide; try done;
  try (exfalso; intuition (try lia; try congruence); fail).

Lemma subscribe_all_slot (X : xlib) (window : option Z) (func : callable)
    (props : list string) :
  ∀ (s : WM) (atom : Z) (window' : option Z),
    property_slot (foldl (λ s' p, property_store (AtomCache X p) window func s') s props)
                  atom window'
    = if decide (window' = window ∧ 0 < occurrences X atom props)%nat
      then Some (default [] (property_slot s atom window)
                 ++ replicate (occurrences X atom props) func)
      else property_slot s atom window'.
Proof.
  induction props as [|p props IH]; intros s atom window'.
  - simpl. rewrite decide_False; [done|]. unfold occurrences. simpl. lia.
  - cbn [foldl]. rewrite IH, !property_store_slot, occurrences_cons.
    destruct (decide (window' = window)) as [->|Hw]; [|split_decides].
    destruct (decide (AtomCache X p = atom)) as [<-|Hp]; [|split_decides].
    destruct (occurrences X (AtomCache X p) props) as [|k]; split_decides.
    simpl. by rewrite <- app_assoc.
Qed.

Lemma remove_property_spec (X : xlib) (window : option Z) (func : callable)
    (base : Z → list callable) (props : list string) :
  (∀ a, func ∉ base a) →
  ∀ (s : WM) (n : Z → nat),
    (∀ a, (0 < occurrences X a props)%nat →
          property_slot s a window = Some (base a ++ replicate (n a) func) ∧
          (occurrences X a props ≤ n a)%nat) →
    ∃ s', remove_property X window props func s = (Normal, s') ∧
      ∀ a w', property_slot s' a w'
              = if decide (w' = window ∧ 0 < occurrences X a props)%nat
                then Some (base a ++ replicate (n a - occurrences X a props) func)
                else property_slot s a w'.
Proof.
  intros Hbase. induction props as [|p props IH]; intros s n Hslots.
  - exists s. split; [done|]. intros a w'.
    rewrite decide_False; [done|]. unfold occurrences. simpl. lia.
  - cbn [remove_property].
    destruct (Hslots (AtomCache X p)) as [Hslot Hle].
    { rewrite occurrences_cons, decide_True by done. lia. }
    rewrite occurrences_cons, decide_True in Hle by done.
    destruct (n (AtomCache X p)) as [|m] eqn:En; [lia|].
    apply property_slot_Some in Hslot as (pw & Hpw & Hl).
    rewrite Hpw, Hl, (list_remove_replicate func _ m (Hbase _)).
    set (s1 := set_property_handlers _ s).
    assert (Hs1 : ∀ a w', property_slot s1 a w'
                          = if decide (a = AtomCache X p ∧ w' = window)
                            then Some (base a ++ replicate m func)
                            else property_slot s a w').
    { intros a w'. unfold property_slot, s1. simpl.
      destruct (decide (a = AtomCache X p)) as [->|Ha].
      - rewrite lookup_insert_eq. simpl.
        destruct (decide (w' = window)) as [->|Hw].
        + rewrite decide_True by done. apply lookup_insert_eq.
        + rewrite decide_False by (by intros [_ ?]). rewrite lookup_insert_ne by done.
          by rewrite Hpw.
      - rewrite decide_False by (by intros [? _]). by rewrite lookup_insert_ne. }
    destruct (IH s1 (λ a, if decide (a = AtomCache X p) then m else n a))
      as (s' & Hrm & Hs').
    { intros a Hocc. specialize (Hslots a).
      rewrite occurrences_cons in Hslots. rewrite Hs1.
      destruct (decide (a = AtomCache X p)) as [->|Ha].
      - rewrite decide_True by done. rewrite decide_True in Hslots by done.
        split; [done | lia].
      - rewrite decide_False by (by intros [? _]).
        rewrite decide_False in Hslots by congruence. by apply Hslots. }
    exists s'. split; [done|]. intros a w'. rewrite Hs', Hs1, occurrences_cons.
    destruct (decide (a = AtomCache X p)) as [->|Ha]; [|split_decides].
    destruct (decide (w' = window)) as [->|Hw]; [|split_decides].
    rewrite En.
    destruct (occurrences X (AtomCache X p) props) as [|k]; split_decides;
      do 3 f_equal; lia.
Qed.
Lemma key_removal_twice (X : xlib) (window modmask code : Z) (func : callable) (s : WM) :
  ignorable_bits_free X →
  Z.land modmask (Z.lor (LockMask X) (Mod2Mask X)) = 0 →
  ∃ keys s1 s2,
    apply_binder X (KeyBinder window modmask code) func s
      = (func, Some (RemoveKeys window keys), s1) ∧
    invoke_remove X (RemoveKeys window keys) s1 = (Normal, s2) ∧
    (∀ k, key_binding s2 window k
          = if decide (k ∈ keys) then None else key_binding s window k) ∧
    invoke_remove X (RemoveKeys window keys) s2 = (Raised KeyError, s2).
Proof.
  intros HX Hfree.
  pose proof (expanded_keys_distinct X modmask code HX Hfree) as Hnd.
  destruct (grab_all_spec window modmask code func (IGNORED_MOD_MASKS X) [] s)
    as (s1 & Heq & _ & Hb & _ & _).
  destruct (remove_keys_spec window _ s1 Hnd) as (s2 & Hrm & _ & Hb2 & _ & _).
  { intros k Hin. rewrite Hb. by rewrite decide_True. }
  exists ((λ i, (Z.lor modmask i, code)) <$> IGNORED_MOD_MASKS X), s1, s2.
  unfold apply_binder. rewrite Heq. split; [done|]. split; [exact Hrm|].
  split.
  { intros k. rewrite Hb2. case_decide; [done|]. rewrite Hb. by rewrite decide_False. }
  cbn [invoke_remove]. unfold IGNORED_MOD_MASKS at 1. rewrite fmap_cons.
  apply remove_keys_missing. rewrite Hb2. rewrite decide_True; [done|].
  unfold IGNORED_MOD_MASKS. rewrite fmap_cons. left.
Qed.

Lemma create_removal_twice (X : xlib) (ignore_startup : bool)
    (matchers : list (string * kwval)) (func h : callable) (r : option remover) (s s1 : WM) :
  _on_create_manage ignore_startup matchers func s = (h, r, s1) →
  h ∉ create_handlers s →
  ∃ s2, r = Some (RemoveCreate h) ∧
    invoke_remove X (RemoveCreate h) s1 = (Normal, s2) ∧
    create_handlers s2 = create_handlers s ∧
    invoke_remove X (RemoveCreate h) s2 = (Raised ValueError, s2).
Proof.
  unfold _on_create_manage.
  destruct matchers as [|m ms], ignore_startup; simpl; intros [= <- <- <-] Hfresh;
    eexists; (split; [reflexivity|]); simpl; rewrite (list_remove_app_fresh _ _ Hfresh);
    (split; [reflexivity|]); (split; [reflexivity|]); simpl;
    by rewrite (proj2 (list_remove_None _ _) Hfresh).
Qed.

Lemma signal_removal_twice (X : xlib) (name : string) (func h : callable)
    (r : option remover) (s s1 : WM) :
  on_signal name func s = (h, r, s1) →
  func ∉ signal_listeners name s →
  ∃ s2, r = Some (RemoveSignal name func) ∧
    invoke_remove X (RemoveSignal name func) s1 = (Normal, s2) ∧
    signal_listeners name s2 = signal_listeners name s ∧
    invoke_remove X (RemoveSignal name func) s2 = (Raised ValueError, s2).
Proof.
  unfold on_signal, signal_listeners. intros [= <- <- <-] Hfresh.
  eexists. split; [reflexivity|]. simpl. rewrite lookup_insert_eq.
  rewrite (list_remove_app_fresh _ _ Hfresh).
  split; [reflexivity|]. simpl. rewrite !lookup_insert_eq. simpl.
  split; [reflexivity|].
  by rewrite (proj2 (list_remove_None _ _) Hfresh).
Qed.

Lemma property_removal_twice (X : xlib) (window : option Z) (props : list string)
    (func : callable) (c : completion) (r : option remover) (s s1 : WM) :
  on_property_change X window props func s = (c, r, s1) →
  props ≠ [] →
  (∀ p, p ∈ props → func ∉ subscribers (AtomCache X p) window s) →
  ∃ s2, c = Normal ∧ r = Some (RemoveProperty window props func) ∧
    invoke_remove X (RemoveProperty window props func) s1 = (Normal, s2) ∧
    (∀ a w, subscribers a w s2 = subscribers a w s) ∧
    invoke_remove X (RemoveProperty window props func) s2 = (Raised ValueError, s2).
Proof.
  intros Hreg Hne Hfresh.
  assert (Hreg' : (c, r, s1) =
            (Normal, Some (RemoveProperty window props func),
             foldl (λ s' p, property_store (AtomCache X p) window func s') s props)).
  { rewrite <- Hreg. unfold on_property_change.
    destruct window, props; done. }
  injection Hreg' as -> -> ->.
  set (base := λ a, if decide (0 < occurrences X a props)%nat
                    then default [] (property_slot s a window) else []).
  assert (Hbase : ∀ a, func ∉ base a).
  { intros a. unfold base. case_decide as Hocc; [|apply not_elem_of_nil].
    unfold occurrences in Hocc.
    destruct (filter (λ p, AtomCache X p = a) props) as [|p l] eqn:Ef; [simpl in Hocc; lia|].
    assert (Hp : p ∈ filter (λ p, AtomCache X p = a) props) by (rewrite Ef; left).
    apply list_elem_of_filter in Hp as [<- Hp]. by apply Hfresh. }
  destruct (remove_property_spec X window func base props Hbase
              (foldl (λ s' p, property_store (AtomCache X p) window func s') s props)
              (λ a, occurrences X a props)) as (s2 & Hrm & Hs2).
  { intros a Hocc. rewrite subscribe_all_slot. rewrite decide_True by done.
    unfold base. rewrite decide_True by done. done. }
  exists s2. do 2 (split; [done|]). split; [exact Hrm|]. split.
  - intros a w. unfold subscribers. fold (property_slot s2 a w). fold (property_slot s a w).
    rewrite Hs2, subscribe_all_slot. unfold base.
    rewrite Nat.sub_diag. simpl. rewrite app_nil_r.
    split_decides. destruct H as [-> _]. by destruct (property_slot s a window).
  - destruct props as [|p props']; [done|]. simpl.
    pose proof (Hs2 (AtomCache X p) window) as Hp.
    rewrite decide_True in Hp by (split; [done|]; rewrite occurrences_cons, decide_True by done; lia).
    rewrite Nat.sub_diag in Hp. simpl in Hp. rewrite app_nil_r in Hp.
    apply property_slot_Some in Hp as (pw & Hpw & Hl).
    rewrite Hpw, Hl. by rewrite (proj2 (list_remove_None _ _) (Hbase _)).
Qed.

(** C2, as the source has it.  Registering a key binding, a creation
    listener, a property subscription or a signal listener attaches one
    removal handle to the handler; registering a destruction listener
    attaches none.  For a handler that the registry did not hold before,
    the first call of the handle completes and takes out what the
    registration put in; the second call raises a lookup fault
    ([KeyError] for key bindings, [ValueError] for the three list
    registries) and leaves the instance as it was. *)
Theorem C2_second_removal_raises_lookup_fault (X : xlib) (func : callable) (s : WM) :
  (∀ window modmask code,
     ignorable_bits_free X →
     Z.land modmask (Z.lor (LockMask X) (Mod2Mask X)) = 0 →
     ∃ keys s1 s2,
       apply_binder X (KeyBinder window modmask code) func s
         = (func, Some (RemoveKeys window keys), s1) ∧
       invoke_remove X (RemoveKeys window keys) s1 = (Normal, s2) ∧
       (∀ k, key_binding s2 window k
             = if decide (k ∈ keys) then None else key_binding s window k) ∧
       invoke_remove X (RemoveKeys window keys) s2 = (Raised KeyError, s2)) ∧
  (∀ ignore_startup matchers h r s1,
     _on_create_manage ignore_startup matchers func s = (h, r, s1) →
     h ∉ create_handlers s →
     ∃ s2, r = Some (RemoveCreate h) ∧
       invoke_remove X (RemoveCreate h) s1 = (Normal, s2) ∧
       create_handlers s2 = create_handlers s ∧
       invoke_remove X (RemoveCreate h) s2 = (Raised ValueError, s2)) ∧
  (∀ window props c r s1,
     on_property_change X window props func s = (c, r, s1) →
     props ≠ [] →
     (∀ p, p ∈ props → func ∉ subscribers (AtomCache X p) window s) →
     ∃ s2, c = Normal ∧ r = Some (RemoveProperty window props func) ∧
       invoke_remove X (RemoveProperty window props func) s1 = (Normal, s2) ∧
       (∀ a w, subscribers a w s2 = subscribers a w s) ∧
       invoke_remove X (RemoveProperty window props func) s2 = (Raised ValueError, s2)) ∧
  (∀ name h r s1,
     on_signal name func s = (h, r, s1) →
     func ∉ signal_listeners name s →
     ∃ s2, r = Some (RemoveSignal name func) ∧
       invoke_remove X (RemoveSignal name func) s1 = (Normal, s2) ∧
       signal_listeners name s2 = signal_listeners name s ∧
       invoke_remove X (RemoveSignal name func) s2 = (Raised ValueError, s2)) ∧
  (∀ window, (on_destroy window func s).1.2 = None).
Proof.
  split; [intros; by apply key_removal_twice|].
  split; [intros; by eapply create_removal_twice|].
  split; [intros; by eapply property_removal_twice|].
  split; [intros; by eapply signal_removal_twice|].
  reflexivity.
Qed.

Lemma C2_second_removal_witness :
  ∃ s2, invoke_remove x11 (RemoveCreate (Fn 1%nat)) (on_manage [] (Fn 1%nat) new_WM).2
          = (Normal, s2) ∧
        create_handlers s2 = [] ∧
        invoke_remove x11 (RemoveCreate (Fn 1%nat)) s2 = (Raised ValueError, s2).
Proof.
  destruct (C2_second_removal_raises_lookup_fault x11 (Fn 1%nat) new_WM)
    as (_ & Hcreate & _).
  destruct (Hcreate false [] (Fn 1%nat) (Some (RemoveCreate (Fn 1%nat)))
              (on_manage [] (Fn 1%nat) new_WM).2 eq_refl)
    as (s2 & _ & H1 & H2 & H3).
  - vm_compute. apply not_elem_of_nil.
  - exists s2. split; [exact H1|]. split; [exact H2 | exact H3].
Defined.

(** C2 as stated fails: a creation listener is registered and removed;
    calling its removal handle again raises [ValueError]; and a
    destruction listener comes back with no removal handle at all. *)
Lemma C2_removal_twice_counterexample :
  ∃ h rm s1 s2,
    on_manage [] (Fn 1%nat) new_WM = (h, Some rm, s1) ∧
    invoke_remove x11 rm s1 = (Normal, s2) ∧
    invoke_remove x11 rm s2 ≠ (Normal, s2) ∧
    invoke_remove x11 rm s2 = (Raised ValueError, s2) ∧
    (on_destroy 7 (Fn 1%nat) new_WM).1.2 = None.
Proof.
  eexists _, _, _, _. split; [vm_compute; reflexivity|].
  split; [vm_compute; reflexivity|]. split; [|split]; [|vm_compute; reflexivity..].
  vm_compute. intros [= ].
Qed.

(** ** Dispatch: frames and the snapshot reading *)

Section DispatchFacts.
Context (matches : Z → list (string * kwval) → bool).
Context (body : nat → WM → completion * WM).

Lemma call_frame {A} (proj : WM → A) :
  (∀ f s, proj (body f s).2 = proj s) →
  ∀ h s, proj (call matches body h s).1.2 = proj s.
Proof.
  intros Hbody. induction h as [f|n kw h IH|n h IH]; intros s; simpl.
  - specialize (Hbody f s). by destruct (body f s).
  - destruct (event_window s); [|done]. destruct (matches _ _); [|done].
    specialize (IH s). by destruct (call matches body h s) as [[??]?].
  - destruct (startup s) as [[|]|]; try done.
    specialize (IH s). by destruct (call matches body h s) as [[??]?].
Qed.

Lemma call_all_frame {A} (proj : WM → A) :
  (∀ f s, proj (body f s).2 = proj s) →
  ∀ hs s, proj (call_all matches body hs s).1.2 = proj s.
Proof.
  intros Hbody. induction hs as [|h hs IH]; intros s; simpl; [done|].
  pose proof (call_frame proj Hbody h s) as Hh.
  destruct (call matches body h s) as [[c s'] t]. simpl in Hh.
  destruct c; [|done].
  specialize (IH s'). destruct (call_all matches body hs s') as [[c' s''] t'].
  simpl in *. congruence.
Qed.

Lemma call_all_app (l1 l2 : list callable) (s : WM) :
  call_all matches body (l1 ++ l2) s
  = let '(c, s', t) := call_all matches body l1 s in
    match c with
    | Raised e => (Raised e, s', t)
    | Normal => let '(c', s'', t') := call_all matches body l2 s' in (c', s'', t ++ t')
    end.
Proof.
  revert s. induction l1 as [|h l1 IH]; intros s; simpl.
  - by destruct (call_all matches body l2 s) as [[??]?].
  - destruct (call matches body h s) as [[c s'] t]. destruct c; [|done].
    rewrite IH. destruct (call_all matches body l1 s') as [[c1 s1] t1].
    destruct c1; [|done].
    destruct (call_all matches body l2 s1) as [[c2 s2] t2]. by rewrite app_assoc.
Qed.

(** When no handler changes the list being walked, the live loop is the
    snapshot dispatch of what is left of the list. *)
Lemma for_each_snapshot (live : WM → list callable) :
  (∀ h s, live (call matches body h s).1.2 = live s) →
  ∀ fuel i s,
    (length (live s) - i < fuel)%nat →
    for_each matches body fuel live i s
    = Some (call_all matches body (drop i (live s)) s).
Proof.
  intros Hlive. induction fuel as [|fuel IH]; intros i s Hfuel; [lia|].
  simpl. destruct (live s !! i) as [h|] eqn:Ei.
  - rewrite (drop_S _ _ _ Ei). simpl.
    pose proof (Hlive h s) as Hh.
    destruct (call matches body h s) as [[c s'] t]. simpl in Hh.
    destruct c; [|done].
    apply lookup_lt_Some in Ei.
    rewrite IH by (rewrite Hh; lia). rewrite Hh. simpl.
    by destruct (call_all matches body (drop (S i) (live s)) s') as [[??]?].
  - apply lookup_ge_None in Ei. by rewrite drop_ge.
Qed.

End DispatchFacts.

Lemma subscribers_after_subscribe (X : xlib) (window : option Z) (props : list string)
    (func : callable) (c : completion) (r : option remover) (s s1 : WM)
    (a : Z) (w : option Z) :
  on_property_change X window props func s = (c, r, s1) →
  subscribers a w s1
  = subscribers a w s
    ++ replicate (if decide (w = window) then occurrences X a props else 0%nat) func.
Proof.
  unfold on_property_change. intros Hreg.
  assert (Hs1 : s1 = foldl (λ s' p, property_store (AtomCache X p) window func s') s props).
  { destruct window, props; by inversion Hreg. }
  subst s1. unfold subscribers.
  fold (property_slot s a w).
  fold (property_slot (foldl (λ s' p, property_store (AtomCache X p) window func s') s props) a w).
  rewrite subscribe_all_slot.
  destruct (decide (w = window)) as [->|Hw].
  - destruct (occurrences X a props) as [|k] eqn:Ek.
    + rewrite decide_False by lia. simpl. by rewrite app_nil_r.
    + rewrite decide_True by (split; [done | lia]). done.
  - rewrite decide_False by (by intros [? _]). simpl. by rewrite app_nil_r.
Qed.

(** A property event whose state field is not 0 (the value the
    dispatcher accepts) calls no subscriber and changes nothing, and so
    does an event for a property nobody subscribed to.  Otherwise, as
    long as no subscriber edits the property registry while it runs, the
    dispatch sets the event window and then is the in-order call of the
    window's own subscribers followed by the global ones, whatever the
    window, ending at the first fault.  Both lists are in registration
    order: a subscription appends the handler to the end of its list. *)
Theorem property_dispatch_order_without_edits
    (matches : Z → list (string * kwval) → bool) (body : nat → WM → completion * WM)
    (fuel : nat) (window atom state : Z) (s : WM) :
  (∀ f s0, property_handlers (body f s0).2 = property_handlers s0) →
  (length (subscribers atom (Some window) s) < fuel)%nat →
  (length (subscribers atom None s) < fuel)%nat →
  (state ≠ 0 ∨ property_handlers s !! atom = None →
   handle_property matches body fuel window atom state s = Some (Normal, s, [])) ∧
  (state = 0 → is_Some (property_handlers s !! atom) →
   handle_property matches body fuel window atom state s
   = Some (call_all matches body
             (subscribers atom (Some window) s ++ subscribers atom None s)
             (set_event_window (Some window) s))) ∧
  (∀ X w props func c r s1 a w',
     on_property_change X w props func s = (c, r, s1) →
     subscribers a w' s1
     = subscribers a w' s
       ++ replicate (if decide (w' = w) then occurrences X a props else 0%nat) func).
Proof.
  intros Hbody Hf1 Hf2. split; [|split].
  - intros H. unfold handle_property. rewrite decide_False; [done|].
    intros [H1 H2]. destruct H as [H|H]; [done|]. rewrite H in H2. by destruct H2.
  - intros Hst Hsome. unfold handle_property. rewrite decide_True by done.
    assert (Hlive : ∀ k h s0, subscribers atom k (call matches body h s0).1.2
                              = subscribers atom k s0).
    { intros k h s0. unfold subscribers.
      by rewrite (call_frame matches body property_handlers Hbody). }
    rewrite (for_each_snapshot matches body _ (Hlive (Some window))) by (unfold subscribers in *; simpl; lia).
    rewrite drop_0. simpl. rewrite call_all_app.
    change (subscribers atom (Some window) (set_event_window (Some window) s))
      with (subscribers atom (Some window) s).
    pose proof (call_all_frame matches body property_handlers Hbody
                  (subscribers atom (Some window) s) (set_event_window (Some window) s)) as Hfr.
    destruct (call_all matches body (subscribers atom (Some window) s)
                (set_event_window (Some window) s)) as [[c s2] t].
    simpl in Hfr. destruct c; [|done].
    assert (Hsub : subscribers atom None s2 = subscribers atom None s)
      by (unfold subscribers; by rewrite Hfr).
    rewrite (for_each_snapshot matches body _ (Hlive None)) by (rewrite Hsub; lia).
    rewrite drop_0, Hsub. simpl.
    by destruct (call_all matches body (subscribers atom None s) s2) as [[??]?].
  - intros. by eapply subscribers_after_subscribe.
Qed.

Lemma property_dispatch_order_witness :
  ∃ s' t,
    handle_property any_window quiet 3 7 (AtomCache x11 "_NET_WM_STATE") 0 watched
      = Some (Normal, s', t) ∧
    callee <$> t = [Fn 1%nat; Fn 2%nat].
Proof.
  destruct (property_dispatch_order_without_edits any_window quiet 3 7
              (AtomCache x11 "_NET_WM_STATE") 0 watched) as (_ & Hgo & _).
  - intros f s0. reflexivity.
  - vm_compute. lia.
  - vm_compute. lia.
  - rewrite Hgo; [|reflexivity|vm_compute; eexists; reflexivity].
    eexists _, _. split; vm_compute; reflexivity.
Defined.

(** C7: the echo gate holds, the order does not survive a subscriber
    that unsubscribes itself.  Window 9 has the subscribers 1 and 3 of a
    property, registered in this order, and 2 is a global subscriber of
    the same property.  An event whose state field is not 0 calls nobody
    and changes nothing.  For a change on window 9 the claim asks for the
    calls 1, 3, 2.  When subscriber 1 calls its removal handle while it
    runs, the dispatcher calls 1 and 2 only: it walks the window's own
    list, which the removal shifts under its index, so subscriber 3,
    registered for the window when dispatch began and still registered
    afterwards, is never called. *)
Theorem C7_unsubscribing_subscriber_hides_the_next :
  subscribers (AtomCache x11 "_NET_WM_STATE") (Some 9) window_subscribers
    = [Fn 1%nat; Fn 3%nat] ∧
  subscribers (AtomCache x11 "_NET_WM_STATE") None window_subscribers = [Fn 2%nat] ∧
  handle_property any_window window_unsubscribing 5 9
    (AtomCache x11 "_NET_WM_STATE") 1 window_subscribers
    = Some (Normal, window_subscribers, []) ∧
  callee <$> (call_all any_window window_unsubscribing
                (subscribers (AtomCache x11 "_NET_WM_STATE") (Some 9) window_subscribers
                 ++ subscribers (AtomCache x11 "_NET_WM_STATE") None window_subscribers)
                (set_event_window (Some 9) window_subscribers)).2
    = [Fn 1%nat; Fn 3%nat; Fn 2%nat] ∧
  (∃ s', handle_property any_window window_unsubscribing 5 9
           (AtomCache x11 "_NET_WM_STATE") 0 window_subscribers
           = Some (Normal, s', [Call (Fn 1%nat) None (Some 9);
                                Call (Fn 2%nat) None (Some 9)]) ∧
         subscribers (AtomCache x11 "_NET_WM_STATE") (Some 9) s' = [Fn 3%nat] ∧
         subscribers (AtomCache x11 "_NET_WM_STATE") None s' = [Fn 2%nat]).
Proof.
  split; [vm_compute; reflexivity|]. split; [vm_compute; reflexivity|].
  split; [vm_compute; reflexivity|]. split; [vm_compute; reflexivity|].
  eexists; repeat split; vm_compute; reflexivity.
Qed.

(** C5: the dispatcher walks the registry's own list, not a copy.  With
    two creation listeners of which the first calls its removal handle
    while it runs, a creation event calls the first only: the second was
    registered when dispatch began, is still registered afterwards, and
    is never called, where a dispatch over the list as it stood calls
    both.  The same happens to the second of two subscribers of a
    property when the first unsubscribes itself, the use shown in the
    docstring of [on_property_change]. *)
Theorem C5_self_removal_skips_next_handler :
  create_handlers two_listeners = [Fn 1%nat; Fn 2%nat] ∧
  (∃ s', handle_create any_window self_removing 5 9 two_listeners
           = Some (Normal, s', [Call (Fn 1%nat) (Some false) (Some 9)]) ∧
         create_handlers s' = [Fn 2%nat]) ∧
  callee <$> (call_all any_window self_removing (create_handlers two_listeners)
                two_listeners).2
    = [Fn 1%nat; Fn 2%nat] ∧
  subscribers (AtomCache x11 "_NET_WM_DESKTOP") None two_subscribers
    = [Fn 1%nat; Fn 2%nat] ∧
  (∃ s', handle_property any_window self_unsubscribing 5 9
           (AtomCache x11 "_NET_WM_DESKTOP") 0 two_subscribers
           = Some (Normal, s', [Call (Fn 1%nat) None (Some 9)]) ∧
         subscribers (AtomCache x11 "_NET_WM_DESKTOP") None s' = [Fn 2%nat]).
Proof.
  split; [reflexivity|]. split; [eexists; split; vm_compute; reflexivity|].
  split; [vm_compute; reflexivity|]. split; [vm_compute; reflexivity|].
  eexists; split; vm_compute; reflexivity.
Qed.

(** ** The startup flag *)

Section StartupFacts.
Context (matches : Z → list (string * kwval) → bool).
Context (body : nat → WM → completion * WM).
Context (grab_body : nat → bool → Z → Z → WM → completion * WM).
Hypothesis body_keeps_startup : ∀ f s, startup (body f s).2 = startup s.
Hypothesis grab_keeps_startup :
  ∀ f pressed st kc s, startup (grab_body f pressed st kc s).2 = startup s.

Lemma call_saw (b : bool) (h : callable) (s : WM) :
  startup s = Some b →
  Forall (saw_startup b) (call matches body h s).2 ∧
  startup (call matches body h s).1.2 = Some b.
Proof.
  intros Hs. split; [|by rewrite (call_frame matches body startup body_keeps_startup)].
  induction h as [f|n kw h IH|n h IH]; simpl.
  - destruct (body f s). simpl. by apply Forall_singleton.
  - destruct (event_window s); [|by apply Forall_singleton].
    destruct (matches _ _); [|by apply Forall_singleton].
    destruct (call matches body h s) as [[??]?]. simpl in *. by apply Forall_cons.
  - rewrite Hs. destruct b; [by apply Forall_singleton|].
    destruct (call matches body h s) as [[??]?]. simpl in *. by apply Forall_cons.
Qed.

Lemma call_grab_saw (b : bool) (h : callable) (pressed : bool) (st kc : Z) (s : WM) :
  startup s = Some b →
  Forall (saw_startup b) (call_grab grab_body h pressed st kc s).2 ∧
  startup (call_grab grab_body h pressed st kc s).1.2 = Some b.
Proof.
  intros Hs. destruct h; simpl; try (split; [by apply Forall_singleton | done]).
  pose proof (grab_keeps_startup f pressed st kc s) as Hg.
  destruct (grab_body f pressed st kc s). simpl in *.
  split; [by apply Forall_singleton | congruence].
Qed.

Lemma for_each_saw (b : bool) (live : WM → list callable) (fuel : nat) :
  ∀ i s c s' t,
    startup s = Some b →
    for_each matches body fuel live i s = Some (c, s', t) →
    Forall (saw_startup b) t ∧ startup s' = Some b.
Proof.
  induction fuel as [|fuel IH]; intros i s c s' t Hs Hrun; [done|].
  simpl in Hrun. destruct (live s !! i) as [h|].
  - destruct (call_saw b h s Hs) as [Ht Hs1].
    destruct (call matches body h s) as [[c1 s1] t1]. simpl in *.
    destruct c1.
    + destruct (for_each matches body fuel live (S i) s1) as [[[c2 s2] t2]|] eqn:E;
        [|done].
      simpl in Hrun. injection Hrun as <- <- <-.
      destruct (IH _ _ _ _ _ Hs1 E) as [Ht2 Hs2].
      split; [by apply Forall_app | done].
    + by injection Hrun as <- <- <-.
  - injection Hrun as <- <- <-. by split.
Qed.

Lemma process_create_window_saw (b : bool) (fuel : nat) (w : Z) (s s' : WM)
    (c : completion) (t : list invocation) :
  startup s = Some b →
  process_create_window matches body fuel w s = Some (c, s', t) →
  Forall (saw_startup b) t ∧ startup s' = Some b.
Proof. intros Hs. unfold process_create_window. by apply for_each_saw. Qed.


Lemma handle_create_saw (fuel : nat) (w : Z) (s s' : WM) (c : completion)
    (t : list invocation) :
  handle_create matches body fuel w s = Some (c, s', t) →
  Forall (saw_startup false) t ∧ startup s' = Some false.
Proof. unfold handle_create. by apply process_create_window_saw. Qed.

Lemma handlers_keep_startup (b : bool) (e : xevent) (h : nat → WM → option outcome)
    (fuel : nat) (s s' : WM) (c : completion) (t : list invocation) :
  handlers matches body grab_body e = Some h →
  h fuel s = Some (c, s', t) →
  startup s = Some b →
  Forall (saw_startup (match e with CreateNotify _ => false | _ => b end)) t ∧
  startup s' = Some (match e with CreateNotify _ => false | _ => b end).
Proof.
  intros He Hrun Hs. destruct e; simpl in He; try done; injection He as <-.
  - injection Hrun as Hrun. unfold handle_keypress in Hrun.
    destruct (grab_keyboard_handler s) as [g|].
    + pose proof (call_grab_saw b g true state keycode s Hs) as [H1 H2].
      rewrite Hrun in H1, H2. by split.
    + destruct (key_handlers s !! window ≫= _) as [h|].
      * pose proof (call_saw b h (set_event_window (Some window) s) Hs) as [H1 H2].
        rewrite Hrun in H1, H2. by split.
      * injection Hrun as <- <- <-. by split.
  - injection Hrun as Hrun. unfold handle_keyrelease in Hrun.
    destruct (grab_keyboard_handler s) as [g|].
    + pose proof (call_grab_saw b g false state keycode s Hs) as [H1 H2].
      rewrite Hrun in H1, H2. by split.
    + injection Hrun as <- <- <-. by split.
  - by apply handle_create_saw in Hrun.
  - unfold handle_destroy in Hrun.
    destruct (destroy_handlers s !! window).
    + destruct (for_each _ _ _ _ _ _) as [[[c1 s1] t1]|] eqn:E; [|done].
      simpl in Hrun. injection Hrun as <- <- <-.
      by apply (for_each_saw b) in E.
    + simpl in Hrun. injection Hrun as <- <- <-. by split.
  - injection Hrun as <- <- <-. by split.
  - unfold handle_property in Hrun. case_decide.
    + destruct (for_each _ _ _ _ _ _) as [[[c1 s1] t1]|] eqn:E1; [|done].
      apply (for_each_saw b) in E1 as [Ht1 Hs1]; [|done].
      simpl in Hrun. destruct c1.
      * destruct (for_each matches body fuel _ 0 s1) as [[[c2 s2] t2]|] eqn:E2; [|done].
        apply (for_each_saw b) in E2 as [Ht2 Hs2]; [|done].
        simpl in Hrun. injection Hrun as <- <- <-. split; [by apply Forall_app | done].
      * by injection Hrun as <- <- <-.
    + injection Hrun as <- <- <-. by split.
Qed.

Lemma guard_keeps_startup (c : completion) (s : WM) :
  startup (guard c s).2 = startup s.
Proof. destruct c as [|[]]; reflexivity. Qed.

Lemma next_events_false (fuel : nat) (queued : list xevent) :
  ∀ s v s' t,
    startup s = Some false →
    next_events matches body grab_body fuel queued s = Some (v, s', t) →
    Forall (saw_startup false) t ∧ startup s' = Some false.
Proof.
  induction queued as [|e queued IH]; intros s v s' t Hs Hrun; simpl in Hrun.
  - injection Hrun as <- <- <-. by split.
  - destruct (handlers matches body grab_body e) as [h|] eqn:He; [|by eapply IH].
    destruct (h fuel s) as [[[c1 s1] t1]|] eqn:E1; [|done].
    destruct (handlers_keep_startup false e h fuel s s1 c1 t1 He E1 Hs) as [Ht1 Hs1].
    assert (Ht1' : Forall (saw_startup false) t1) by (by destruct e).
    assert (Hs1' : startup s1 = Some false) by (by destruct e).
    simpl in Hrun. pose proof (guard_keeps_startup c1 s1) as Hg.
    destruct (guard c1 s1) as [[|b] s2]; simpl in Hg.
    + destruct (next_events matches body grab_body fuel queued s2)
        as [[[v3 s3] t3]|] eqn:E3; [|done].
      simpl in Hrun. injection Hrun as <- <- <-.
      destruct (IH s2 v3 s3 t3) as [Ht3 Hs3]; [congruence | done |].
      split; [by apply Forall_app | done].
    + injection Hrun as <- <- <-. split; [done | congruence].
Qed.

Lemma drain_false (fuel : nat) (answers : list pending) :
  ∀ s v s' t,
    startup s = Some false →
    drain matches body grab_body fuel answers s = Some (v, s', t) →
    Forall (saw_startup false) t ∧ startup s' = Some false.
Proof.
  induction answers as [|[|queued] answers IH]; intros s v s' t Hs Hrun; simpl in Hrun.
  - injection Hrun as <- <- <-. by split.
  - injection Hrun as <- <- <-. by split.
  - destruct queued as [|e queued]; [injection Hrun as <- <- <-; by split|].
    destruct (next_events matches body grab_body fuel (e :: queued) s)
      as [[[v1 s1] t1]|] eqn:E1; [|done].
    destruct (next_events_false _ _ _ _ _ _ Hs E1) as [Ht1 Hs1].
    simpl in Hrun. destruct v1.
    + destruct (drain matches body grab_body fuel answers s1) as [[[v2 s2] t2]|] eqn:E2;
        [|done].
      simpl in Hrun. injection Hrun as <- <- <-.
      destruct (IH _ _ _ _ Hs1 E2). split; [by apply Forall_app | done].
    + by injection Hrun as <- <- <-.
Qed.

Lemma emit_each_false (name : string) (fuel : nat) :
  ∀ i s v s' t,
    startup s = Some false →
    emit_each matches body fuel name i s = Some (v, s', t) →
    Forall (saw_startup false) t ∧ startup s' = Some false.
Proof.
  induction fuel as [|fuel IH]; intros i s v s' t Hs Hrun; [done|].
  simpl in Hrun. destruct (signal_listeners name s !! i) as [h|].
  - destruct (call_saw false h s Hs) as [Ht1 Hs1].
    destruct (call matches body h s) as [[c1 s1] t1]. simpl in *.
    pose proof (guard_keeps_startup c1 s1) as Hg.
    destruct (guard c1 s1) as [[|b] s2]; simpl in Hg.
    + destruct (emit_each matches body fuel name (S i) s2) as [[[v3 s3] t3]|] eqn:E3;
        [|done].
      simpl in Hrun. injection Hrun as <- <- <-.
      destruct (IH (S i) s2 v3 s3 t3) as [Ht3 Hs3]; [congruence | done |].
      split; [by apply Forall_app | done].
    + injection Hrun as <- <- <-. split; [done | congruence].
  - injection Hrun as <- <- <-. by split.
Qed.

Lemma signals_false (fuel : nat) (names : list string) :
  ∀ s v s' t,
    startup s = Some false →
    signals matches body fuel names s = Some (v, s', t) →
    Forall (saw_startup false) t ∧ startup s' = Some false.
Proof.
  induction names as [|name names IH]; intros s v s' t Hs Hrun; simpl in Hrun.
  - injection Hrun as <- <- <-. by split.
  - assert (H1 : ∀ v1 s1 t1,
               (if decide (is_Some (signal_handlers s !! name))
                then emit_each matches body fuel name 0 s else Some (Continue, s, []))
               = Some (v1, s1, t1) →
               Forall (saw_startup false) t1 ∧ startup s1 = Some false).
    { intros v1 s1 t1. case_decide; [by apply emit_each_false|].
      intros [= <- <- <-]. by split. }
    destruct (if decide (is_Some (signal_handlers s !! name)) then _ else _)
      as [[[v1 s1] t1]|]; [|done].
    destruct (H1 _ _ _ eq_refl) as [Ht1 Hs1].
    simpl in Hrun. destruct v1.
    + destruct (signals matches body fuel names s1) as [[[v2 s2] t2]|] eqn:E2; [|done].
      simpl in Hrun. injection Hrun as <- <- <-.
      destruct (IH _ _ _ _ Hs1 E2). split; [by apply Forall_app | done].
    + by injection Hrun as <- <- <-.
Qed.

Lemma run_false (fuel : nat) (script : list wakeup) :
  ∀ s v s' t,
    startup s = Some false →
    run matches body grab_body fuel script s = Some (v, s', t) →
    Forall (saw_startup false) t ∧ startup s' = Some false.
Proof.
  induction script as [|[|fd rfifo] script IH]; intros s v s' t Hs Hrun; simpl in Hrun.
  - injection Hrun as <- <- <-. by split.
  - injection Hrun as <- <- <-. by split.
  - destruct (drain matches body grab_body fuel (default [] fd) s)
      as [[[v1 s1] t1]|] eqn:E1; [|done].
    destruct (drain_false _ _ _ _ _ _ Hs E1) as [Ht1 Hs1].
    simpl in Hrun. destruct v1; [|by injection Hrun as <- <- <-].
    destruct (signals matches body fuel (default [] rfifo) s1)
      as [[[v2 s2] t2]|] eqn:E2; [|done].
    destruct (signals_false _ _ _ _ _ _ Hs1 E2) as [Ht2 Hs2].
    simpl in Hrun. destruct v2.
    + destruct (run matches body grab_body fuel script s2) as [[[v3 s3] t3]|] eqn:E3;
        [|done].
      simpl in Hrun. injection Hrun as <- <- <-.
      destruct (IH _ _ _ _ Hs2 E3). split; [|done].
      apply Forall_app; split; [apply Forall_app; by split | done].
    + injection Hrun as <- <- <-. split; [by apply Forall_app | done].
Qed.

End StartupFacts.

(** ** Focus history *)

Lemma filter_absent (w : Z) (l : list Z) : w ∉ l → filter (λ x, x ≠ w) l = l.
Proof.
  induction l as [|y l IH]; intros Hn; [done|].
  apply not_elem_of_cons in Hn as [Hne Hn].
  rewrite filter_cons_True by congruence. f_equal. by apply IH.
Qed.

Lemma list_remove_NoDup_filter (w : Z) (l : list Z) :
  NoDup l → default l (list_remove w l) = filter (λ x, x ≠ w) l.
Proof.
  induction l as [|y l IH]; intros Hnd; [done|].
  apply NoDup_cons in Hnd as [Hy Hnd]. cbn [list_remove].
  destruct (decide (y = w)) as [->|Hne].
  - rewrite filter_cons_False by (intros H; by apply H). simpl.
    symmetry. by apply filter_absent.
  - rewrite filter_cons_True by done.
    specialize (IH Hnd). destruct (list_remove w l) as [l'|]; simpl in *; by f_equal.
Qed.

(** A focus-in event moves the window to the end of the history: on a
    history without repetition, the other windows keep their order, the
    window comes last, and the history stays without repetition. *)
Theorem focusin_moves_window_to_tail
    (window : Z) (s : WM) :
  NoDup (focus_history s) →
  (handle_focusin window s).1.1 = Normal ∧
  focus_history (handle_focusin window s).1.2
    = filter (λ x, x ≠ window) (focus_history s) ++ [window] ∧
  NoDup (focus_history (handle_focusin window s).1.2) ∧
  registries (set_focus_history (focus_history s) (handle_focusin window s).1.2)
    = registries s.
Proof.
  intros Hnd. split; [done|]. unfold handle_focusin. simpl.
  rewrite (list_remove_NoDup_filter window _ Hnd). split; [done|]. split; [|done].
  apply NoDup_app. split; [by apply NoDup_filter|]. split; [|apply NoDup_singleton].
  intros x Hx Hw. apply list_elem_of_filter in Hx as [Hx _].
  apply list_elem_of_singleton in Hw. done.
Qed.

Lemma focusin_moves_window_to_tail_witness :
  focus_history
    (handle_focusin 1 (handle_focusin 2 (handle_focusin 1 new_WM).1.2).1.2).1.2 = [2; 1].
Proof.
  destruct (focusin_moves_window_to_tail 1
              (handle_focusin 2 (handle_focusin 1 new_WM).1.2).1.2) as (_ & H & _).
  - vm_compute. repeat constructor; set_solver.
  - rewrite H. vm_compute. reflexivity.
Defined.

(** ** Key presses against the key bindings *)

Lemma apply_binder_spec (X : xlib) (w m c : Z) (func : callable) (s : WM) :
  ∃ s1,
    apply_binder X (KeyBinder w m c) func s
      = (func, Some (RemoveKeys w ((λ i, (Z.lor m i, c)) <$> IGNORED_MOD_MASKS X)), s1) ∧
    (∀ k, key_binding s1 w k
          = if decide (k ∈ (λ i, (Z.lor m i, c)) <$> IGNORED_MOD_MASKS X)
            then Some func else key_binding s w k) ∧
    (∀ w', w' ≠ w → key_handlers s1 !! w' = key_handlers s !! w') ∧
    same_but_keys s s1.
Proof.
  destruct (grab_all_spec w m c func (IGNORED_MOD_MASKS X) [] s)
    as (s1 & Heq & _ & Hb & Ho & Hframe).
  exists s1. unfold apply_binder. rewrite Heq. done.
Qed.

(** A handler bound with a key spec is called for a press of the key
    under the requested modifiers joined with any of the four ignorable
    combinations, with the event window set; a press under any other
    state or key code finds what was bound there before, so nothing if
    nothing was. *)
Theorem bound_key_fires_under_ignored_modifiers (X : xlib)
    (matches : Z → list (string * kwval) → bool) (body : nat → WM → completion * WM)
    (grab_body : nat → bool → Z → Z → WM → completion * WM)
    (window modmask code : Z) (func : callable) (s : WM) :
  grab_keyboard_handler s = None →
  (∀ i, i ∈ IGNORED_MOD_MASKS X →
     handle_keypress matches body grab_body window (Z.lor modmask i) code
       (apply_binder X (KeyBinder window modmask code) func s).2
     = call matches body func
         (set_event_window (Some window)
            (apply_binder X (KeyBinder window modmask code) func s).2)) ∧
  (∀ state keycode,
     (state, keycode) ∉ (λ i, (Z.lor modmask i, code)) <$> IGNORED_MOD_MASKS X →
     key_binding (apply_binder X (KeyBinder window modmask code) func s).2
       window (state, keycode) = key_binding s window (state, keycode) ∧
     (key_binding s window (state, keycode) = None →
      handle_keypress matches body grab_body window state keycode
        (apply_binder X (KeyBinder window modmask code) func s).2
      = (Normal, (apply_binder X (KeyBinder window modmask code) func s).2, []))).
Proof.
  intros Hgrab.
  destruct (apply_binder_spec X window modmask code func s) as (s1 & Heq & Hb & _ & Hframe).
  rewrite Heq. cbn [snd].
  assert (Hg : grab_keyboard_handler s1 = None).
  { destruct Hframe as (_ & _ & _ & _ & _ & _ & Hg & _). congruence. }
  split.
  - intros i Hi. unfold handle_keypress. rewrite Hg.
    fold (key_binding s1 window (Z.lor modmask i, code)). rewrite Hb.
    rewrite decide_True; [done|].
    by apply (list_elem_of_fmap_2 (λ i, (Z.lor modmask i, code))).
  - intros state keycode Hnot. rewrite Hb, decide_False by done. split; [done|].
    intros Hnone. unfold handle_keypress. rewrite Hg.
    fold (key_binding s1 window (state, keycode)).
    by rewrite Hb, decide_False, Hnone by done.
Qed.

Lemma bound_key_fires_witness :
  (call any_window quiet (Fn 1%nat)
     (set_event_window (Some 1)
        (apply_binder x11 (KeyBinder 1 12 57) (Fn 1%nat) new_WM).2)).2
  = [Call (Fn 1%nat) None (Some 1)] ∧
  (handle_keypress any_window quiet quiet_grab 1 (Z.lor 12 2) 57
     (apply_binder x11 (KeyBinder 1 12 57) (Fn 1%nat) new_WM).2).2
  = [Call (Fn 1%nat) None (Some 1)].
Proof.
  destruct (bound_key_fires_under_ignored_modifiers x11 any_window quiet quiet_grab
              1 12 57 (Fn 1%nat) new_WM eq_refl) as [Hfire _].
  split; [vm_compute; reflexivity|].
  rewrite (Hfire 2); [vm_compute; reflexivity|].
  vm_compute. right. left.
Defined.

(** With no keyboard grab held, once the removal handle of a key binding
    has run, a press under any of the four modifier variants calls
    nothing and changes nothing.  (While a grab is held every press goes
    to the grab handler, bound or not.) *)
Theorem removed_key_no_longer_fires (X : xlib)
    (matches : Z → list (string * kwval) → bool) (body : nat → WM → completion * WM)
    (grab_body : nat → bool → Z → Z → WM → completion * WM)
    (window modmask code : Z) (func : callable) (s s1 s2 : WM)
    (keys : list (Z * Z)) (i : Z) :
  ignorable_bits_free X →
  Z.land modmask (Z.lor (LockMask X) (Mod2Mask X)) = 0 →
  grab_keyboard_handler s = None →
  apply_binder X (KeyBinder window modmask code) func s
    = (func, Some (RemoveKeys window keys), s1) →
  invoke_remove X (RemoveKeys window keys) s1 = (Normal, s2) →
  i ∈ IGNORED_MOD_MASKS X →
  handle_keypress matches body grab_body window (Z.lor modmask i) code s2
  = (Normal, s2, []).
Proof.
  intros HX Hfree Hgrab Happ Hrm Hi.
  pose proof (expanded_keys_distinct X modmask code HX Hfree) as Hnd.
  destruct (apply_binder_spec X window modmask code func s) as (s1' & Heq & Hb & _ & Hframe).
  rewrite Heq in Happ. injection Happ as Hk Hs. subst keys s1.
  destruct (remove_keys_spec window _ s1' Hnd) as (s2' & Hrm' & _ & Hb2 & _ & Hframe2).
  { intros k Hin. rewrite Hb. by rewrite decide_True. }
  cbn [invoke_remove] in Hrm. pose proof (eq_trans (eq_sym Hrm') Hrm) as Hs2. injection Hs2 as <-.
  unfold handle_keypress.
  assert (Hg : grab_keyboard_handler s2' = None).
  { destruct Hframe as (_ & _ & _ & _ & _ & _ & Hg1 & _).
    destruct Hframe2 as (_ & _ & _ & _ & _ & _ & Hg2 & _). congruence. }
  rewrite Hg. fold (key_binding s2' window (Z.lor modmask i, code)).
  rewrite Hb2, decide_True; [done|].
  by apply (list_elem_of_fmap_2 (λ i, (Z.lor modmask i, code))).
Qed.

Lemma removed_key_no_longer_fires_witness :
  ∃ keys s1 s2,
    apply_binder x11 (KeyBinder 5 12 57) (Fn 1%nat) new_WM
      = (Fn 1%nat, Some (RemoveKeys 5 keys), s1) ∧
    (handle_keypress any_window quiet quiet_grab 5 (Z.lor 12 2) 57 s1).2
      = [Call (Fn 1%nat) None (Some 5)] ∧
    invoke_remove x11 (RemoveKeys 5 keys) s1 = (Normal, s2) ∧
    handle_keypress any_window quiet quiet_grab 5 (Z.lor 12 2) 57 s2 = (Normal, s2, []).
Proof.
  eexists _, _, _. split; [vm_compute; reflexivity|].
  split; [vm_compute; reflexivity|]. split; [vm_compute; reflexivity|].
  eapply (removed_key_no_longer_fires x11 any_window quiet quiet_grab 5 12 57 (Fn 1%nat)
            new_WM _ _ _ 2 x11_bits_free).
  - reflexivity.
  - reflexivity.
  - vm_compute. reflexivity.
  - vm_compute. reflexivity.
  - vm_compute. right. left.
Defined.

(** While the keyboard grab is held, a key press and a key release go
    to the grab handler with the event's state and key code and to
    nothing else, whatever is bound to the key; with no grab held a key
    release calls nothing. *)
Theorem keyboard_grab_takes_all_key_events (X : xlib)
    (matches : Z → list (string * kwval) → bool) (body : nat → WM → completion * WM)
    (grab_body : nat → bool → Z → Z → WM → completion * WM)
    (g : callable) (window state keycode : Z) (s : WM) :
  grab_keyboard_handler s = None →
  (grab_keyboard X 0 g s).1 = true ∧
  key_handlers (grab_keyboard X 0 g s).2 = key_handlers s ∧
  handle_keypress matches body grab_body window state keycode (grab_keyboard X 0 g s).2
    = call_grab grab_body g true state keycode (grab_keyboard X 0 g s).2 ∧
  handle_keyrelease grab_body window state keycode (grab_keyboard X 0 g s).2
    = call_grab grab_body g false state keycode (grab_keyboard X 0 g s).2 ∧
  handle_keyrelease grab_body window state keycode s = (Normal, s, []).
Proof.
  intros Hfree. unfold grab_keyboard, handle_keypress, handle_keyrelease.
  rewrite Hfree. simpl. done.
Qed.

Lemma keyboard_grab_takes_all_key_events_witness :
  (handle_keypress any_window quiet quiet_grab 5 12 57
     (grab_keyboard x11 0 (Fn 9%nat)
        (apply_binder x11 (KeyBinder 5 12 57) (Fn 1%nat) new_WM).2).2).2
  = [CallGrab (Fn 9%nat) true 12 57].
Proof.
  destruct (keyboard_grab_takes_all_key_events x11 any_window quiet quiet_grab (Fn 9%nat)
              5 12 57 (apply_binder x11 (KeyBinder 5 12 57) (Fn 1%nat) new_WM).2)
    as (_ & _ & H & _).
  - vm_compute. reflexivity.
  - rewrite H. vm_compute. reflexivity.
Defined.

(** ** The lifecycle cleaner and the other windows *)

Lemma list_remove_filter_others (w : Z) (l : list Z) :
  filter (λ x, x ≠ w) (default l (list_remove w l)) = filter (λ x, x ≠ w) l.
Proof.
  induction l as [|y l IH]; [done|]. cbn [list_remove].
  destruct (decide (y = w)) as [->|Hne].
  - simpl. by rewrite filter_cons_False by (intros H; by apply H).
  - destruct (list_remove w l) as [l'|]; simpl in *; [|done].
    by rewrite !filter_cons_True, IH by done.
Qed.

(** Cleaning up after one window leaves every other window alone: their
    key bindings, their property subscriptions and the global ones, the
    order of the other windows in the focus history, and the creation,
    destruction and signal listeners are as before.  No property is left
    with an empty subscription table. *)
Theorem clean_window_data_spares_other_windows (window : Z) (s : WM) :
  (∀ w', w' ≠ window →
     key_handlers (_clean_window_data window s) !! w' = key_handlers s !! w') ∧
  (∀ atom k, k ≠ Some window →
     property_slot (_clean_window_data window s) atom k = property_slot s atom k) ∧
  (∀ atom, property_handlers (_clean_window_data window s) !! atom ≠ Some ∅) ∧
  filter (λ x, x ≠ window) (focus_history (_clean_window_data window s))
    = filter (λ x, x ≠ window) (focus_history s) ∧
  create_handlers (_clean_window_data window s) = create_handlers s ∧
  destroy_handlers (_clean_window_data window s) = destroy_handlers s ∧
  signal_handlers (_clean_window_data window s) = signal_handlers s ∧
  grab_keyboard_handler (_clean_window_data window s) = grab_keyboard_handler s ∧
  grab_pointer_handler (_clean_window_data window s) = grab_pointer_handler s.
Proof.
  split; [|split; [|split; [|split]]]; try done.
  - intros w' Hne. simpl. by apply lookup_delete_ne.
  - intros atom k Hk. unfold property_slot. simpl. rewrite lookup_omap.
    destruct (property_handlers s !! atom) as [pw|]; simpl; [|done].
    case_decide as He; simpl.
    + rewrite <- (lookup_delete_ne pw (Some window) k) by done.
      rewrite He. symmetry. apply lookup_empty.
    + by apply lookup_delete_ne.
  - intros atom. simpl. rewrite lookup_omap.
    destruct (property_handlers s !! atom) as [pw|]; simpl; [|done].
    case_decide; [done|]. congruence.
  - simpl. apply list_remove_filter_others.
Qed.

(** On a focus history without repetition, cleaning up twice is
    cleaning up once. *)
Theorem clean_window_data_idempotent (window : Z) (s : WM) :
  NoDup (focus_history s) →
  _clean_window_data window (_clean_window_data window s) = _clean_window_data window s.
Proof.
  intros Hnd. unfold _clean_window_data. simpl.
  assert (Hk : delete window (delete window (key_handlers s)) = delete window (key_handlers s)).
  { apply map_eq. intros w'. destruct (decide (w' = window)) as [->|Hne].
    - by rewrite !lookup_delete_eq.
    - by rewrite !lookup_delete_ne. }
  set (l1 := default (focus_history s) (list_remove window (focus_history s))).
  assert (Hf : default l1 (list_remove window l1) = l1).
  { assert (Hn : window ∉ l1).
    { unfold l1. destruct (list_remove window (focus_history s)) as [l'|] eqn:E; simpl.
      - eapply list_remove_Some_not_in; eauto.
      - by apply list_remove_None. }
    by rewrite (proj2 (list_remove_None _ _) Hn). }
  set (f := λ whandlers : gmap (option Z) (list callable),
              if decide (delete (Some window) whandlers = ∅) then None
              else Some (delete (Some window) whandlers)).
  assert (Hp : omap f (omap f (property_handlers s)) = omap f (property_handlers s)).
  { apply map_eq. intros a. rewrite !lookup_omap.
    destruct (property_handlers s !! a) as [pw|]; simpl; [|done].
    assert (Hd : delete (Some window) (delete (Some window) pw) = delete (Some window) pw).
    { apply map_eq. intros k. destruct (decide (k = Some window)) as [->|Hne].
      - by rewrite !lookup_delete_eq.
      - by rewrite !lookup_delete_ne. }
    unfold f. destruct (decide (delete (Some window) pw = ∅)) as [He|He]; simpl; [done|].
    rewrite Hd. by rewrite decide_False. }
  rewrite Hk, Hf. fold f. rewrite Hp. reflexivity.
Qed.

Lemma clean_window_data_idempotent_witness :
  _clean_window_data 7 (_clean_window_data 7 doomed) = _clean_window_data 7 doomed.
Proof.
  apply (clean_window_data_idempotent 7 doomed).
  vm_compute. apply NoDup_singleton.
Defined.

(** A destroy event that is processed to the end leaves no key binding
    and no property subscription of the window, whatever its destruction
    listeners did and whether or not one of them raised. *)
Theorem destroy_event_purges_keys_and_subscriptions
    (matches : Z → list (string * kwval) → bool) (body : nat → WM → completion * WM)
    (fuel : nat) (window : Z) (s s' : WM) (c : completion) (t : list invocation) :
  handle_destroy matches body fuel window s = Some (c, s', t) →
  key_handlers s' !! window = None ∧
  (∀ atom, property_slot s' atom (Some window) = None) ∧
  (∀ state keycode, key_binding s' window (state, keycode) = None).
Proof.
  unfold handle_destroy. intros Hrun.
  destruct (match destroy_handlers s !! window with
            | Some _ => _ | None => _ end) as [[[c1 s1] t1]|]; [|done].
  simpl in Hrun. injection Hrun as <- <- <-.
  split; [apply clean_purges_keys|]. split.
  - intros atom. apply clean_purges_properties.
  - intros state keycode. unfold key_binding. by rewrite clean_purges_keys.
Qed.

Lemma destroy_event_purges_witness :
  ∃ s', handle_destroy any_window quiet 2 7 doomed
          = Some (Normal, s', [Call (Fn 2%nat) None (Some 7)]) ∧
        key_handlers s' !! 7 = None.
Proof.
  eexists. split; [vm_compute; reflexivity|].
  eapply (destroy_event_purges_keys_and_subscriptions any_window quiet 2 7 doomed).
  vm_compute. reflexivity.
Defined.

(** ** The startup flag over the life of the dispatcher *)



(** A creation event clears the startup flag before any listener runs,
    and no event that [run] dispatches afterwards sets it again: every
    call made from then on finds it cleared. *)
Theorem startup_cleared_from_first_create_event_on
    (matches : Z → list (string * kwval) → bool) (body : nat → WM → completion * WM)
    (grab_body : nat → bool → Z → Z → WM → completion * WM) :
  (∀ f s, startup (body f s).2 = startup s) →
  (∀ f pressed st kc s, startup (grab_body f pressed st kc s).2 = startup s) →
  (∀ fuel window s c s' t,
     handle_create matches body fuel window s = Some (c, s', t) →
     Forall (saw_startup false) t ∧ startup s' = Some false) ∧
  (∀ fuel script s v s' t,
     startup s = Some false →
     run matches body grab_body fuel script s = Some (v, s', t) →
     Forall (saw_startup false) t ∧ startup s' = Some false).
Proof.
  intros Hbody Hgrab. split.
  - intros fuel window s c s' t. by apply handle_create_saw.
  - intros fuel script s v s' t. by apply run_false.
Qed.

Lemma startup_cleared_witness :
  ∃ s', handle_create any_window quiet 3 6 skipper
          = Some (Normal, s', [Call (StartupLambda 0 (Fn 1%nat)) (Some false) (Some 6);
                               Call (Fn 1%nat) (Some false) (Some 6);
                               Call (Fn 2%nat) (Some false) (Some 6)]) ∧
        startup s' = Some false.
Proof.
  eexists. split; [vm_compute; reflexivity|].
  destruct (startup_cleared_from_first_create_event_on any_window quiet quiet_grab) as [H _].
  - intros f s. reflexivity.
  - intros f p st kc s. reflexivity.
  - eapply (H 3%nat 6 skipper). vm_compute. reflexivity.
Defined.

(** ** Creation and destruction listeners *)

(** [on_create] registers the handler under two wrappers, the startup
    check outermost and the matcher check inside it.  Called while the
    startup flag is set, the registered function returns at once and the
    handler does not run.  Called with the flag cleared, it checks the
    matchers once against the event window, and the handler runs exactly
    when there are no matchers or the window matches. *)
Theorem on_create_skips_startup_then_checks_matchers
    (matches : Z → list (string * kwval) → bool) (body : nat → WM → completion * WM)
    (matchers : list (string * kwval)) (func h : callable) (r : option remover)
    (s s1 : WM) :
  on_create matchers func s = (h, r, s1) →
  create_handlers s1 = create_handlers s ++ [h] ∧
  r = Some (RemoveCreate h) ∧
  (∀ s2, startup s2 = Some true →
     call matches body h s2 = (Normal, s2, [Call h (Some true) (event_window s2)])) ∧
  (∀ s2 w, startup s2 = Some false → event_window s2 = Some w →
     (call matches body h s2).1
     = (if bool_decide (matchers = []) || matches w matchers
        then (call matches body func s2).1 else (Normal, s2)) ∧
     (call matches body h s2).2
     = Call h (Some false) (Some w)
       :: (if bool_decide (matchers = []) then []
           else [Call (MatchLambda (next_stamp s) matchers func) (Some false) (Some w)])
       ++ (if bool_decide (matchers = []) || matches w matchers
           then (call matches body func s2).2 else [])).
Proof.
  unfold on_create, _on_create_manage.
  destruct matchers as [|m ms]; simpl; intros [= <- <- <-].
  - do 2 (split; [done|]). split.
    + intros s2 Hs. simpl. by rewrite Hs.
    + intros s2 w Hs Hw. simpl. rewrite Hs, Hw.
      by destruct (call matches body func s2) as [[c s3] t].
  - do 2 (split; [done|]). split.
    + intros s2 Hs. simpl. by rewrite Hs.
    + intros s2 w Hs Hw. simpl. rewrite Hs, Hw.
      destruct (matches w (m :: ms)); [|done].
      by destruct (call matches body func s2) as [[c s3] t].
Qed.

Lemma on_create_skips_startup_witness :
  call any_window quiet (StartupLambda 0 (Fn 1%nat)) (set_startup (Some true) new_WM)
  = (Normal, set_startup (Some true) new_WM,
     [Call (StartupLambda 0 (Fn 1%nat)) (Some true) None]).
Proof.
  destruct (on_create_skips_startup_then_checks_matchers any_window quiet [] (Fn 1%nat)
              (StartupLambda 0 (Fn 1%nat)) (Some (RemoveCreate (StartupLambda 0 (Fn 1%nat))))
              new_WM (on_create [] (Fn 1%nat) new_WM).2 eq_refl) as (_ & _ & H & _).
  apply (H (set_startup (Some true) new_WM)). reflexivity.
Defined.

Lemma for_each_enough_fuel
    (matches : Z → list (string * kwval) → bool) (body : nat → WM → completion * WM)
    (proj : WM → list callable) (fuel : nat) (s : WM) :
  (∀ f s0, proj (body f s0).2 = proj s0) →
  (length (proj s) < fuel)%nat →
  for_each matches body fuel proj 0 s = Some (call_all matches body (proj s) s).
Proof.
  intros Hbody Hfuel.
  rewrite (for_each_snapshot matches body proj) by
    (first [intros h s0; apply (call_frame matches body proj Hbody) | lia]).
  by rewrite drop_0.
Qed.

(** A creation event calls the creation listeners in registration
    order, each once, up to the first fault, after selecting input on the
    new window and setting the event window, as long as no listener edits
    the list of creation listeners while it runs.  Registration appends
    to the end of the list. *)
Theorem creation_listeners_run_in_registration_order
    (matches : Z → list (string * kwval) → bool) (body : nat → WM → completion * WM)
    (fuel : nat) (window : Z) (s : WM) :
  (∀ f s0, create_handlers (body f s0).2 = create_handlers s0) →
  (length (create_handlers s) < fuel)%nat →
  handle_create matches body fuel window s
  = Some (call_all matches body (create_handlers s)
            (set_event_window (Some window)
               (send (XSelectInput window
                        [StructureNotifyMask; PropertyChangeMask; FocusChangeMask])
                  (set_startup (Some false) s)))) ∧
  (∀ ignore_startup matchers func h r s1,
     _on_create_manage ignore_startup matchers func s = (h, r, s1) →
     create_handlers s1 = create_handlers s ++ [h]).
Proof.
  intros Hbody Hfuel. split.
  - unfold handle_create, process_create_window.
    by rewrite (for_each_enough_fuel matches body create_handlers) by done.
  - unfold _on_create_manage. intros ignore_startup matchers func h r s1.
    destruct matchers, ignore_startup; simpl; by intros [= <- <- <-].
Qed.

Lemma creation_listeners_order_witness :
  callee <$> (call_all any_window quiet (create_handlers skipper)
                (set_event_window (Some 6)
                   (send (XSelectInput 6
                            [StructureNotifyMask; PropertyChangeMask; FocusChangeMask])
                      (set_startup (Some false) skipper)))).2
  = [StartupLambda 0 (Fn 1%nat); Fn 1%nat; Fn 2%nat] ∧
  ∃ o, handle_create any_window quiet 3 6 skipper = Some o ∧
       callee <$> o.2 = [StartupLambda 0 (Fn 1%nat); Fn 1%nat; Fn 2%nat].
Proof.
  split; [vm_compute; reflexivity|].
  destruct (creation_listeners_run_in_registration_order any_window quiet 3 6 skipper)
    as [H _].
  - intros f s0. reflexivity.
  - vm_compute. lia.
  - eexists. split; [exact H|]. vm_compute. reflexivity.
Defined.

(** A destroy event calls the window's destruction listeners in
    registration order, up to the first fault, as long as no listener
    edits the destruction listeners while it runs; the cleanup then runs
    once on the state the listeners left, after a fault as well.  With no
    listener registered only the cleanup runs. *)
Theorem destroy_listeners_run_then_cleanup
    (matches : Z → list (string * kwval) → bool) (body : nat → WM → completion * WM)
    (fuel : nat) (window : Z) (s : WM) :
  (∀ f s0, destroy_handlers (body f s0).2 = destroy_handlers s0) →
  (length (destroy_listeners window s) < fuel)%nat →
  (destroy_handlers s !! window = None →
   handle_destroy matches body fuel window s
   = Some (Normal, _clean_window_data window s, [])) ∧
  (is_Some (destroy_handlers s !! window) →
   handle_destroy matches body fuel window s
   = Some ((call_all matches body (destroy_listeners window s)
              (set_event_window (Some window) s)).1.1,
           _clean_window_data window
             (call_all matches body (destroy_listeners window s)
                (set_event_window (Some window) s)).1.2,
           (call_all matches body (destroy_listeners window s)
              (set_event_window (Some window) s)).2)) ∧
  (∀ w func, destroy_listeners w (on_destroy w func s).2 = destroy_listeners w s ++ [func]).
Proof.
  intros Hbody Hfuel. split; [|split].
  - intros Hnone. unfold handle_destroy. by rewrite Hnone.
  - intros [l Hl]. unfold handle_destroy. rewrite Hl.
    rewrite (for_each_enough_fuel matches body (destroy_listeners window)).
    + simpl. change (destroy_listeners window (set_event_window (Some window) s))
        with (destroy_listeners window s).
      by destruct (call_all _ _ _ _) as [[??]?].
    + intros f s0. unfold destroy_listeners. by rewrite Hbody.
    + exact Hfuel.
  - intros w func. unfold destroy_listeners, on_destroy. simpl.
    by rewrite lookup_insert_eq.
Qed.

Lemma destroy_listeners_run_then_cleanup_witness :
  handle_destroy any_window quiet 2 7 doomed
  = Some (Normal,
          _clean_window_data 7
            (call_all any_window quiet (destroy_listeners 7 doomed)
               (set_event_window (Some 7) doomed)).1.2,
          [Call (Fn 2%nat) None (Some 7)]).
Proof.
  destruct (destroy_listeners_run_then_cleanup any_window quiet 2 7 doomed) as (_ & H & _).
  - intros f s0. reflexivity.
  - vm_compute. lia.
  - rewrite H; [reflexivity|]. vm_compute. eexists. reflexivity.
Defined.

(** ** The run loop and faults *)

Section RunFacts.
Context (matches : Z → list (string * kwval) → bool).
Context (body : nat → WM → completion * WM).
Context (grab_body : nat → bool → Z → Z → WM → completion * WM).
Hypothesis body_no_control : ∀ f s e, (body f s).1 = Raised e → ¬ control e.
Hypothesis grab_no_control :
  ∀ f pressed st kc s e, (grab_body f pressed st kc s).1 = Raised e → ¬ control e.

Lemma call_no_control (h : callable) (s : WM) (e : exn) :
  (call matches body h s).1.1 = Raised e → ¬ control e.
Proof.
  induction h as [f|n kw h IH|n h IH]; simpl.
  - pose proof (body_no_control f s e). by destruct (body f s).
  - destruct (event_window s).
    + destruct (matches _ _); [|done].
      by destruct (call matches body h s) as [[??]?].
    + simpl. intros [= <-] [H|[H|H]]; done.
  - destruct (startup s) as [[|]|]; try done.
    + by destruct (call matches body h s) as [[??]?].
    + simpl. intros [= <-] [H|[H|H]]; done.
Qed.

Lemma call_grab_no_control (h : callable) (pressed : bool) (st kc : Z) (s : WM) (e : exn) :
  (call_grab grab_body h pressed st kc s).1.1 = Raised e → ¬ control e.
Proof.
  destruct h; simpl; try (intros [= <-] [H|[H|H]]; done).
  pose proof (grab_no_control f pressed st kc s e).
  by destruct (grab_body f pressed st kc s).
Qed.

Lemma for_each_no_control (live : WM → list callable) (fuel : nat) :
  ∀ i s e s' t,
    for_each matches body fuel live i s = Some (Raised e, s', t) → ¬ control e.
Proof.
  induction fuel as [|fuel IH]; intros i s e s' t Hrun; [done|].
  simpl in Hrun. destruct (live s !! i) as [h|]; [|done].
  pose proof (call_no_control h s) as Hc.
  destruct (call matches body h s) as [[c1 s1] t1]. simpl in Hc. destruct c1.
  - destruct (for_each matches body fuel live (S i) s1) as [[[c2 s2] t2]|] eqn:E; [|done].
    simpl in Hrun. injection Hrun as -> <- <-. by eapply IH.
  - injection Hrun as <- <- <-. by apply Hc.
Qed.

Lemma handlers_no_control (ev : xevent) (h : nat → WM → option outcome)
    (fuel : nat) (s s' : WM) (e : exn) (t : list invocation) :
  handlers matches body grab_body ev = Some h →
  h fuel s = Some (Raised e, s', t) → ¬ control e.
Proof.
  intros He Hrun. destruct ev; simpl in He; try done; injection He as <-.
  - injection Hrun as Hrun. unfold handle_keypress in Hrun.
    destruct (grab_keyboard_handler s) as [g|].
    + apply (call_grab_no_control g true state keycode s). by rewrite Hrun.
    + destruct (key_handlers s !! window ≫= _) as [h|]; [|done].
      apply (call_no_control h (set_event_window (Some window) s)). by rewrite Hrun.
  - injection Hrun as Hrun. unfold handle_keyrelease in Hrun.
    destruct (grab_keyboard_handler s) as [g|]; [|done].
    apply (call_grab_no_control g false state keycode s). by rewrite Hrun.
  - by apply for_each_no_control in Hrun.
  - unfold handle_destroy in Hrun. destruct (destroy_handlers s !! window).
    + destruct (for_each _ _ _ _ _ _) as [[[c1 s1] t1]|] eqn:E; [|done].
      simpl in Hrun. injection Hrun as -> <- <-. by apply for_each_no_control in E.
    + done.
  - done.
  - unfold handle_property in Hrun. case_decide; [|done].
    destruct (for_each _ _ _ _ _ _) as [[[c1 s1] t1]|] eqn:E1; [|done].
    simpl in Hrun. destruct c1.
    + destruct (for_each matches body fuel _ 0 s1) as [[[c2 s2] t2]|] eqn:E2; [|done].
      simpl in Hrun. injection Hrun as -> <- <-. by apply for_each_no_control in E2.
    + injection Hrun as <- <- <-. by apply for_each_no_control in E1.
Qed.

Lemma guard_continues (c : completion) (s : WM) :
  (∀ e, c = Raised e → ¬ control e) → (guard c s).1 = Continue.
Proof.
  intros Hc. destruct c as [|e]; [done|].
  specialize (Hc e eq_refl). unfold control in Hc.
  destruct e; try done; exfalso; apply Hc; auto.
Qed.

Lemma next_events_continue (fuel : nat) (queued : list xevent) :
  ∀ s v s' t,
    next_events matches body grab_body fuel queued s = Some (v, s', t) → v = Continue.
Proof.
  induction queued as [|ev queued IH]; intros s v s' t Hrun; simpl in Hrun.
  - by injection Hrun as <- <- <-.
  - destruct (handlers matches body grab_body ev) as [h|] eqn:He; [|by eapply IH].
    destruct (h fuel s) as [[[c1 s1] t1]|] eqn:E1; [|done]. simpl in Hrun.
    pose proof (guard_continues c1 s1) as Hg.
    destruct (guard c1 s1) as [v2 s2]. simpl in Hg. rewrite Hg in Hrun.
    + destruct (next_events matches body grab_body fuel queued s2)
        as [[[v3 s3] t3]|] eqn:E3; [|done].
      simpl in Hrun. injection Hrun as <- <- <-. by eapply IH.
    + intros e ->. by eapply handlers_no_control.
Qed.

Lemma drain_continue (fuel : nat) (answers : list pending) :
  Forall (λ p, p ≠ PendingInterrupt) answers →
  ∀ s v s' t,
    drain matches body grab_body fuel answers s = Some (v, s', t) → v = Continue.
Proof.
  induction answers as [|[|queued] answers IH]; intros Hok s v s' t Hrun; simpl in Hrun.
  - by injection Hrun as <- <- <-.
  - apply Forall_cons in Hok as [Hp _]. done.
  - apply Forall_cons in Hok as [_ Hok].
    destruct queued as [|ev queued]; [by injection Hrun as <- <- <-|].
    destruct (next_events matches body grab_body fuel (ev :: queued) s)
      as [[[v1 s1] t1]|] eqn:E1; [|done].
    apply next_events_continue in E1 as ->. simpl in Hrun.
    destruct (drain matches body grab_body fuel answers s1) as [[[v2 s2] t2]|] eqn:E2;
      [|done].
    simpl in Hrun. injection Hrun as <- <- <-. by eapply IH.
Qed.

Lemma emit_each_continue (name : string) (fuel : nat) :
  ∀ i s v s' t,
    emit_each matches body fuel name i s = Some (v, s', t) → v = Continue.
Proof.
  induction fuel as [|fuel IH]; intros i s v s' t Hrun; [done|].
  simpl in Hrun. destruct (signal_listeners name s !! i) as [h|].
  - pose proof (call_no_control h s) as Hc.
    destruct (call matches body h s) as [[c1 s1] t1]. simpl in Hc.
    pose proof (guard_continues c1 s1) as Hg.
    destruct (guard c1 s1) as [v2 s2]. simpl in Hg. rewrite Hg in Hrun.
    + destruct (emit_each matches body fuel name (S i) s2) as [[[v3 s3] t3]|] eqn:E3;
        [|done].
      simpl in Hrun. injection Hrun as <- <- <-. by eapply IH.
    + intros e ->. by apply Hc.
  - by injection Hrun as <- <- <-.
Qed.

Lemma signals_continue (fuel : nat) (names : list string) :
  ∀ s v s' t, signals matches body fuel names s = Some (v, s', t) → v = Continue.
Proof.
  induction names as [|name names IH]; intros s v s' t Hrun; simpl in Hrun.
  - by injection Hrun as <- <- <-.
  - assert (H1 : ∀ v1 s1 t1,
               (if decide (is_Some (signal_handlers s !! name))
                then emit_each matches body fuel name 0 s else Some (Continue, s, []))
               = Some (v1, s1, t1) → v1 = Continue).
    { intros v1 s1 t1. case_decide; [by apply emit_each_continue|]. by intros [= <- <- <-]. }
    destruct (if decide (is_Some (signal_handlers s !! name)) then _ else _)
      as [[[v1 s1] t1]|]; [|done].
    rewrite (H1 _ _ _ eq_refl) in Hrun. simpl in Hrun.
    destruct (signals matches body fuel names s1) as [[[v2 s2] t2]|] eqn:E2; [|done].
    simpl in Hrun. injection Hrun as <- <- <-. by eapply IH.
Qed.

Lemma run_continue (fuel : nat) (script : list wakeup) :
  uninterrupted script →
  ∀ s v s' t, run matches body grab_body fuel script s = Some (v, s', t) → v = Continue.
Proof.
  induction script as [|[|fd rfifo] script IH]; intros Hok s v s' t Hrun; simpl in Hrun.
  - by injection Hrun as <- <- <-.
  - apply Forall_cons in Hok as [[] _].
  - apply Forall_cons in Hok as [Hfd Hok].
    destruct (drain matches body grab_body fuel (default [] fd) s)
      as [[[v1 s1] t1]|] eqn:E1; [|done].
    apply (drain_continue _ _ Hfd) in E1 as ->. simpl in Hrun.
    destruct (signals matches body fuel (default [] rfifo) s1)
      as [[[v2 s2] t2]|] eqn:E2; [|done].
    apply signals_continue in E2 as ->. simpl in Hrun.
    destruct (run matches body grab_body fuel script s2) as [[[v3 s3] t3]|] eqn:E3; [|done].
    simpl in Hrun. injection Hrun as <- <- <-. by eapply IH.
Qed.

End RunFacts.

(** When the handler of a queued event raises, what [run] does depends on
    the fault alone.  An ordinary fault is logged and the events queued
    behind it are processed from the state the handler left; an interrupt
    or an exit request makes [run] return true, a restart request makes
    it return false, and in both cases the events still queued, the
    signals and the rest of the input are left unprocessed. *)
Theorem event_fault_is_logged_or_ends_run
    (matches : Z → list (string * kwval) → bool) (body : nat → WM → completion * WM)
    (grab_body : nat → bool → Z → Z → WM → completion * WM)
    (fuel : nat) (ev : xevent) (h : nat → WM → option outcome) (rest : list xevent)
    (more : list pending) (rfifo : option (list string)) (script : list wakeup)
    (s s1 : WM) (x : exn) (t : list invocation) :
  handlers matches body grab_body ev = Some h →
  h fuel s = Some (Raised x, s1, t) →
  (¬ control x →
   next_events matches body grab_body fuel (ev :: rest) s
   = after t (next_events matches body grab_body fuel rest
                (log (LogException "Boo" x) s1))) ∧
  (x = KeyboardInterrupt ∨ x = SystemExit →
   run matches body grab_body fuel
     (Readable (Some (Pending (ev :: rest) :: more)) rfifo :: script) s
   = Some (Return true, s1, t)) ∧
  (x = RestartException →
   run matches body grab_body fuel
     (Readable (Some (Pending (ev :: rest) :: more)) rfifo :: script) s
   = Some (Return false, s1, t)).
Proof.
  intros He Hrun. split; [|split].
  - intros Hx. simpl. rewrite He, Hrun. simpl.
    unfold control in Hx. destruct x; try done; exfalso; apply Hx; auto.
  - intros [-> | ->]; simpl; by rewrite He, Hrun.
  - intros ->. simpl. by rewrite He, Hrun.
Qed.

Lemma event_fault_is_logged_witness :
  ∃ s',
    next_events any_window faulty quiet_grab 3
      [CreateNotify 8; FocusIn 8] (on_manage [] (Fn 1%nat) new_WM).2
    = Some (Continue, s', [Call (Fn 1%nat) (Some false) (Some 8)]) ∧
    logged s' = [LogException "Boo" (Exception 0)] ∧
    focus_history s' = [8].
Proof.
  destruct (event_fault_is_logged_or_ends_run any_window faulty quiet_grab 3
              (CreateNotify 8) (λ fuel s, handle_create any_window faulty fuel 8 s)
              [FocusIn 8] [] None [] (on_manage [] (Fn 1%nat) new_WM).2
              (set_event_window (Some 8)
                 (send (XSelectInput 8
                          [StructureNotifyMask; PropertyChangeMask; FocusChangeMask])
                    (set_startup (Some false) (on_manage [] (Fn 1%nat) new_WM).2)))
              (Exception 0) [Call (Fn 1%nat) (Some false) (Some 8)])
    as (H & _).
  - reflexivity.
  - vm_compute. reflexivity.
  - eexists. rewrite H.
    + split; [vm_compute; reflexivity|]. split; vm_compute; reflexivity.
    + intros [H1|[H1|H1]]; discriminate H1.
Defined.

(** [run] comes back to its caller only on a stop or a restart request:
    as long as no handler raises one and neither [select] nor [XPending]
    is interrupted, [run] is still in its loop after any input, whatever
    else the handlers raise. *)
Theorem run_returns_only_on_stop_or_restart
    (matches : Z → list (string * kwval) → bool) (body : nat → WM → completion * WM)
    (grab_body : nat → bool → Z → Z → WM → completion * WM)
    (fuel : nat) (script : list wakeup) (s s' : WM) (v : verdict) (t : list invocation) :
  (∀ f s0 e, (body f s0).1 = Raised e → ¬ control e) →
  (∀ f pressed st kc s0 e, (grab_body f pressed st kc s0).1 = Raised e → ¬ control e) →
  uninterrupted script →
  run matches body grab_body fuel script s = Some (v, s', t) →
  v = Continue.
Proof. intros Hb Hg Hok Hrun. by eapply run_continue. Qed.

Lemma run_returns_only_witness :
  ∃ s' t,
    run any_window quiet quiet_grab 3
      [Readable (Some [Pending [CreateNotify 8; DestroyNotify 8]]) None] skipper
    = Some (Continue, s', t).
Proof.
  destruct (run any_window quiet quiet_grab 3
              [Readable (Some [Pending [CreateNotify 8; DestroyNotify 8]]) None] skipper)
    as [[[v s'] t]|] eqn:E; [|by vm_compute in E].
  exists s', t. f_equal. f_equal. f_equal.
  eapply (run_returns_only_on_stop_or_restart any_window quiet quiet_grab 3 _ skipper s' v t);
    [by intros | by intros | | exact E].
  repeat constructor; done.
Defined.

(** ** Signals *)

Lemma guard_keeps_signal_handlers (c : completion) (s : WM) :
  signal_handlers (guard c s).2 = signal_handlers s.
Proof. destruct c as [|[]]; reflexivity. Qed.

Lemma emit_each_all (matches : Z → list (string * kwval) → bool)
    (body : nat → WM → completion * WM) (name : string) :
  (∀ f s0, signal_handlers (body f s0).2 = signal_handlers s0) →
  (∀ f s0 e, (body f s0).1 = Raised e → ¬ control e) →
  ∀ fuel i s,
    Forall (λ h, ∃ f, h = Fn f) (signal_listeners name s) →
    (length (signal_listeners name s) - i < fuel)%nat →
    ∃ s' t,
      emit_each matches body fuel name i s = Some (Continue, s', t) ∧
      callee <$> t = drop i (signal_listeners name s) ∧
      signal_handlers s' = signal_handlers s.
Proof.
  intros Hframe Hctl. induction fuel as [|fuel IH]; intros i s Hfn Hfuel; [lia|].
  simpl. destruct (signal_listeners name s !! i) as [h|] eqn:Ei.
  - rewrite (drop_S _ _ _ Ei).
    assert (Hh : ∃ f, h = Fn f).
    { eapply Forall_forall in Hfn; [exact Hfn|]. by eapply list_elem_of_lookup_2. }
    destruct Hh as [f ->]. simpl.
    pose proof (Hframe f s) as Hf. pose proof (Hctl f s) as Hc.
    destruct (body f s) as [c1 s1]. simpl in Hf, Hc.
    pose proof (guard_continues c1 s1 (λ e H, Hc e H)) as Hg.
    pose proof (guard_keeps_signal_handlers c1 s1) as Hgs.
    destruct (guard c1 s1) as [v2 s2]. simpl in Hg, Hgs. subst v2.
    assert (Hl : signal_listeners name s2 = signal_listeners name s)
      by (unfold signal_listeners; congruence).
    apply lookup_lt_Some in Ei.
    destruct (IH (S i) s2) as (s' & t & Hrun & Ht & Hs').
    + by rewrite Hl.
    + rewrite Hl. lia.
    + exists s', (Call (Fn f) (startup s) (event_window s) :: t).
      split; [by rewrite Hrun|]. split; [|congruence].
      rewrite fmap_cons, Ht, Hl. done.
  - exists s, []. apply lookup_ge_None in Ei. rewrite drop_ge by done. done.
Qed.

(** Every listener of a signal is called, once and in registration
    order, even when listeners before it raise: an ordinary fault of one
    listener is caught before the next one is called.  This holds for
    listeners that are plain functions, leave the signal registry alone
    and raise no stop or restart request.  A signal without listeners
    does nothing. *)
Theorem signal_listeners_all_called_despite_faults
    (matches : Z → list (string * kwval) → bool) (body : nat → WM → completion * WM)
    (fuel : nat) (name : string) (s : WM) :
  (∀ f s0, signal_handlers (body f s0).2 = signal_handlers s0) →
  (∀ f s0 e, (body f s0).1 = Raised e → ¬ control e) →
  Forall (λ h, ∃ f, h = Fn f) (signal_listeners name s) →
  (length (signal_listeners name s) < fuel)%nat →
  ∃ s' t,
    signals matches body fuel [name] s = Some (Continue, s', t) ∧
    callee <$> t = signal_listeners name s ∧
    signal_handlers s' = signal_handlers s ∧
    (signal_handlers s !! name = None → s' = s) ∧
    (∀ func, signal_listeners name (on_signal name func s).2
             = signal_listeners name s ++ [func]).
Proof.
  intros Hframe Hctl Hfn Hfuel. simpl.
  destruct (decide (is_Some (signal_handlers s !! name))) as [Hsome|Hnone].
  - destruct (emit_each_all matches body name Hframe Hctl fuel 0 s Hfn)
      as (s' & t & Hrun & Ht & Hs'); [lia|].
    exists s', t. rewrite Hrun. simpl. rewrite app_nil_r, Ht, drop_0.
    do 3 (split; [done|]). split.
    + intros Hn. rewrite Hn in Hsome. by destruct Hsome.
    + intros func. unfold signal_listeners, on_signal. simpl. by rewrite lookup_insert_eq.
  - exists s, []. simpl.
    assert (Hn : signal_handlers s !! name = None)
      by (destruct (signal_handlers s !! name); [exfalso; apply Hnone; eauto | done]).
    unfold signal_listeners. rewrite Hn. simpl. do 4 (split; [done|]).
    intros func. unfold signal_listeners, on_signal. simpl.
    by rewrite lookup_insert_eq.
Qed.

Lemma signal_listeners_all_called_witness :
  ∃ s' t,
    signals any_window failing 3 ["reload"%string] signalled = Some (Continue, s', t) ∧
    callee <$> t = [Fn 1%nat; Fn 4%nat].
Proof.
  destruct (signal_listeners_all_called_despite_faults any_window failing
              3 "reload" signalled) as (s' & t & Hrun & Ht & _).
  - intros f s0. unfold failing. by case_decide.
  - intros f s0 e. unfold failing. case_decide; [|done].
    intros [= <-] [Hc|[Hc|Hc]]; discriminate Hc.
  - vm_compute. repeat constructor; eexists; reflexivity.
  - vm_compute. lia.
  - eexists _, _. split; vm_compute; reflexivity.
Defined.

(** ** The window matcher of [core.py] *)

Section MatcherFacts.
Context {regex : Type}.
Context (re_compile : string → option regex).
Context (re_match : regex → string → bool).

Lemma nonempty_Some (o : option string) :
  Core.nonempty o = true ↔ ∃ text, o = Some text ∧ text ≠ EmptyString.
Proof.
  destruct o as [[|a text]|]; simpl.
  - split; [done | by intros (t & [= <-] & ?)].
  - split; [intros _; by eexists | done].
  - split; [done | by intros (t & ? & _)].
Qed.

Lemma cache_sound_insert (c : gmap string regex) (p : string) (r : regex) :
  Core.cache_sound re_compile c → re_compile p = Some r →
  Core.cache_sound re_compile (<[p := r]> c).
Proof.
  intros Hc Hp q r' Hq. destruct (decide (q = p)) as [->|Hne].
  - rewrite lookup_insert_eq in Hq. congruence.
  - rewrite lookup_insert_ne in Hq by done. by apply Hc.
Qed.

Lemma match_string_spec (p : string) (data : option string) (c : gmap string regex)
    (r : regex) :
  Core.cache_sound re_compile c → re_compile p = Some r →
  ∃ v c',
    Core.match_string re_compile re_match p data c = (inr v, c') ∧
    Core.cache_sound re_compile c' ∧
    (Core.truthy v = true ↔
     ∃ text, data = Some text ∧ text ≠ EmptyString ∧ re_match r text = true).
Proof.
  intros Hc Hp. unfold Core.match_string.
  destruct data as [[|a text]|].
  - exists Core.PyFalse, c. split; [done|]. split; [done|].
    split; [done | by intros (t & [= <-] & ? & _)].
  - destruct (c !! p) as [r0|] eqn:E.
    + assert (r0 = r) as -> by (apply Hc in E; congruence).
      eexists _, c. split; [done|]. split; [done|].
      destruct (re_match r (String a text)) eqn:Em; simpl.
      * split; [intros _; by eexists | done].
      * split; [done | intros (t & [= <-] & _ & H); congruence].
    + rewrite Hp. eexists _, _. split; [done|].
      split; [by apply cache_sound_insert|].
      destruct (re_match r (String a text)) eqn:Em; simpl.
      * split; [intros _; by eexists | done].
      * split; [done | intros (t & [= <-] & _ & H); congruence].
  - exists Core.PyFalse, c. split; [done|]. split; [done|].
    split; [done | by intros (t & ? & _)].
Qed.

Lemma criterion_spec (pat attr : option string) (m : Core.pyvalue)
    (c : gmap string regex) :
  Core.cache_sound re_compile c → Core.compiles re_compile pat →
  ∃ v c',
    Core.criterion re_compile re_match pat attr (inr m, c) = (inr v, c') ∧
    Core.cache_sound re_compile c' ∧
    (Core.truthy v = true ↔
     Core.truthy m = true ∧ Core.pattern_holds re_compile re_match pat attr).
Proof.
  intros Hc Hpat. unfold Core.criterion, Core.pattern_holds.
  destruct (Core.truthy m) eqn:Em; simpl.
  - destruct (Core.nonempty pat) eqn:En; simpl.
    + apply nonempty_Some in En as (p & -> & Hp). simpl in Hpat.
      destruct Hpat as [r Hr]. simpl.
      destruct (match_string_spec p attr c r Hc Hr) as (v & c' & Heq & Hc' & Hv).
      exists v, c'. split; [done|]. split; [done|]. rewrite Hv. split.
      * intros (text & -> & Ht & Hm). split; [done|]. intros _.
        by exists p, text, r.
      * intros [_ H]. destruct (H eq_refl) as (p' & text & r' & [= <-] & -> & Ht & Hr' & Hm).
        exists text. split; [done|]. split; [done|]. congruence.
    + exists m, c. split; [done|]. split; [done|]. rewrite Em. split; [|done].
      intros _. split; [done|]. done.
  - exists m, c. split; [done|]. split; [done|]. rewrite Em.
    split; [done | by intros [? _]].
Qed.

(** The matcher of [core.py], for patterns that compile: [is_match]
    returns without a fault, and what it returns is true exactly when
    every criterion given holds.  A pattern criterion that is [None] or
    the empty string is not checked; any other holds when the attribute
    is present, is not the empty string, and the pattern matches at its
    start.  The desktop criterion, when not [None], holds when the
    window's desktop is that number.  The pattern cache stays sound. *)
Theorem is_match_true_iff_criteria_hold (window : Core.xwindow)
    (name cls role : option string) (desktop : option Z) (c : gmap string regex) :
  Core.cache_sound re_compile c →
  Core.compiles re_compile name →
  Core.compiles re_compile cls →
  Core.compiles re_compile role →
  ∃ v c',
    Core.is_match re_compile re_match window name cls role desktop c = (inr v, c') ∧
    Core.cache_sound re_compile c' ∧
    (Core.truthy v = true ↔ Core.code_matches re_compile re_match window name cls role desktop).
Proof.
  intros Hc Hn Hcl Hr. unfold Core.is_match, Core.code_matches.
  destruct (criterion_spec name (fst <$> Core.wm_class window) Core.PyTrue c Hc Hn)
    as (v1 & c1 & E1 & Hc1 & H1).
  rewrite E1.
  destruct (criterion_spec cls (snd <$> Core.wm_class window) v1 c1 Hc1 Hcl)
    as (v2 & c2 & E2 & Hc2 & H2).
  rewrite E2.
  destruct (criterion_spec role (Core.get_window_role window) v2 c2 Hc2 Hr)
    as (v3 & c3 & E3 & Hc3 & H3).
  rewrite E3.
  assert (H123 : Core.truthy v3 = true ↔
            Core.pattern_holds re_compile re_match name (fst <$> Core.wm_class window) ∧
            Core.pattern_holds re_compile re_match cls (snd <$> Core.wm_class window) ∧
            Core.pattern_holds re_compile re_match role (Core.get_window_role window)).
  { rewrite H3, H2, H1. simpl. intuition. }
  destruct desktop as [d|].
  - destruct (Core.truthy v3) eqn:E.
    + eexists _, c3. split; [done|]. split; [done|].
      case_decide as Hd; simpl.
      * split; [intros _|done]. destruct (proj1 H123 eq_refl) as (? & ? & ?). done.
      * split; [done|]. intros (_ & _ & _ & ?). done.
    + exists v3, c3. split; [done|]. split; [done|]. rewrite E.
      split; [done|]. intros (? & ? & ? & _).
      assert (false = true) by (apply H123; done). done.
  - exists v3, c3. split; [done|]. split; [done|]. rewrite H123. intuition.
Qed.

(** A window whose attribute is absent or the empty string fails any
    non-empty pattern given for it, whatever the pattern: the matcher
    returns [False] before the pattern is looked up or compiled, so not
    even a malformed pattern is reported. *)
Theorem absent_or_empty_name_fails_before_compiling (window : Core.xwindow)
    (name cls role : option string) (desktop : option Z) (c : gmap string regex) :
  Core.nonempty name = true →
  Core.nonempty (fst <$> Core.wm_class window) = false →
  Core.is_match re_compile re_match window name cls role desktop c = (inr Core.PyFalse, c).
Proof.
  intros Hn Hw. unfold Core.is_match.
  assert (E1 : Core.criterion re_compile re_match name (fst <$> Core.wm_class window)
                 (inr Core.PyTrue, c) = (inr Core.PyFalse, c)).
  { unfold Core.criterion. simpl. rewrite Hn.
    apply nonempty_Some in Hn as (p & -> & _). simpl. unfold Core.match_string.
    by destruct (fst <$> Core.wm_class window) as [[|??]|]. }
  rewrite E1. simpl. by destruct desktop.
Qed.

(** The pattern cache does not change what [match_string] answers: on a
    sound cache the answer is the one an empty cache gives; the cache
    stays sound, keeps its entries, and asking again changes nothing
    more. *)
Theorem match_string_cache_is_transparent (p : string) (data : option string)
    (c : gmap string regex) :
  Core.cache_sound re_compile c →
  (Core.match_string re_compile re_match p data c).1
    = (Core.match_string re_compile re_match p data ∅).1 ∧
  Core.cache_sound re_compile (Core.match_string re_compile re_match p data c).2 ∧
  (∀ q, is_Some (c !! q) →
        (Core.match_string re_compile re_match p data c).2 !! q = c !! q) ∧
  Core.match_string re_compile re_match p data
    (Core.match_string re_compile re_match p data c).2
  = Core.match_string re_compile re_match p data c.
Proof.
  intros Hc. unfold Core.match_string.
  destruct data as [[|a text]|]; try done.
  rewrite lookup_empty.
  destruct (c !! p) as [r0|] eqn:E.
  - rewrite (Hc _ _ E). simpl. rewrite E. done.
  - destruct (re_compile p) as [r|] eqn:Ep; simpl.
    + split; [done|]. split; [by apply cache_sound_insert|]. split.
      * intros q [r' Hq]. rewrite lookup_insert_ne; [done|]. intros <-. congruence.
      * by rewrite lookup_insert_eq.
    + rewrite E. simpl. done.
Qed.

End MatcherFacts.

Lemma empty_cache_sound {regex : Type} (re_compile : string → option regex) :
  Core.cache_sound re_compile ∅.
Proof. intros p r H. by rewrite lookup_empty in H. Qed.

Lemma is_match_true_iff_criteria_hold_witness :
  ∃ v c',
    Core.is_match Core.simple_compile Core.simple_match urxvt
      None (Some "UR.*"%string) None (Some 2) ∅ = (inr v, c') ∧
    Core.cache_sound Core.simple_compile c' ∧
    (Core.truthy v = true ↔
     Core.code_matches Core.simple_compile Core.simple_match urxvt
       None (Some "UR.*"%string) None (Some 2)).
Proof.
  apply (is_match_true_iff_criteria_hold Core.simple_compile Core.simple_match urxvt
           None (Some "UR.*"%string) None (Some 2) ∅).
  - apply empty_cache_sound.
  - exact I.
  - vm_compute. eexists. reflexivity.
  - exact I.
Defined.

Lemma absent_or_empty_name_witness :
  Core.is_match Core.simple_compile Core.simple_match nameless
    (Some ".*"%string) None None None ∅ = (inr Core.PyFalse, ∅).
Proof.
  apply (absent_or_empty_name_fails_before_compiling Core.simple_compile Core.simple_match
           nameless (Some ".*"%string) None None None ∅); reflexivity.
Defined.

Lemma match_string_cache_witness :
  (Core.match_string Core.simple_compile Core.simple_match "UR.*" (Some "URxvt"%string)
     (Core.match_string Core.simple_compile Core.simple_match "UR.*"
        (Some "URxvt"%string) ∅).2).1
  = (Core.match_string Core.simple_compile Core.simple_match "UR.*"
       (Some "URxvt"%string) ∅).1.
Proof.
  destruct (match_string_cache_is_transparent Core.simple_compile Core.simple_match
              "UR.*" (Some "URxvt"%string) ∅ (empty_cache_sound _)) as (_ & Hsound & _).
  destruct (match_string_cache_is_transparent Core.simple_compile Core.simple_match
              "UR.*" (Some "URxvt"%string) _ Hsound) as (H & _).
  exact H.
Defined.

(** ** Commands *)

(** A client message always carries five data items: the items given,
    in order, cut after the fifth, and zeros for the rest. *)
Theorem send_event_carries_five_items (window mtype : Z) (data : list Z) :
  ∃ d, _send_event window mtype data = [XSendEvent window mtype d] ∧
       length d = 5%nat ∧
       (∀ i, (i < 5)%nat → d !! i = Some (default 0 (data !! i))).
Proof.
  eexists. split; [reflexivity|]. split.
  - rewrite length_take, length_app, length_replicate. lia.
  - intros i Hi. rewrite lookup_take_lt by done.
    destruct (data !! i) as [x|] eqn:E; simpl.
    + by rewrite (lookup_app_l_Some _ _ _ _ E).
    + apply lookup_ge_None in E. rewrite lookup_app_r by done.
      apply lookup_replicate. split; [done | lia].
Qed.

(** [activate_window_desktop] answers [None] exactly for a window
    without a desktop and [False] exactly for a window on the current
    desktop, sending nothing in both cases; otherwise it answers [True].
    A message is sent only for a desktop that is not negative: for a
    window on a negative desktop other than the current one the answer
    is [True] although nothing is sent. *)
Theorem activate_window_desktop_answer (X : xlib) (wd : option Z) (current_desktop : Z) :
  ((activate_window_desktop X wd current_desktop).1 = None ↔ wd = None) ∧
  ((activate_window_desktop X wd current_desktop).1 = Some false
     ↔ wd = Some current_desktop) ∧
  ((activate_window_desktop X wd current_desktop).1 ≠ Some true →
   (activate_window_desktop X wd current_desktop).2 = []) ∧
  (∀ d, wd = Some d → d ≠ current_desktop →
     (activate_window_desktop X wd current_desktop).1 = Some true ∧
     (activate_window_desktop X wd current_desktop).2
     = if decide (d < 0) then []
       else [XSendEvent (DefaultRootWindow X) (AtomCache X "_NET_CURRENT_DESKTOP")
               [d; 0; 0; 0; 0]; XFlush]).
Proof.
  unfold activate_window_desktop, activate_desktop.
  destruct wd as [d|]; simpl.
  - destruct (decide (current_desktop ≠ d)) as [Hne|Heq]; simpl.
    + split; [done|]. split; [split; [done | intros [= ->]; done]|].
      split; [done|]. intros d' [= <-] _. split; [done|]. by case_decide.
    + apply dec_stable in Heq. subst d. split; [done|]. split; [done|].
      split; [done|]. intros d' [= <-] Hd. done.
  - split; [done|]. split; [done|]. split; [done|]. intros d' [= ].
Qed.

(** In [core.py] a window shown on all desktops, whose desktop property
    is [0xffffffff], has desktop [-1]: activating its desktop answers
    [True] and sends nothing, whatever the current desktop. *)
Theorem core_sticky_window_activates_nothing (root net_current_desktop : Z)
    (window : Core.xwindow) (current_desktop : Z) :
  Core.net_wm_desktop window = Some 4294967295 →
  0 ≤ current_desktop →
  Core.get_window_desktop window = Some (-1) ∧
  CoreDesktop.activate_window_desktop root net_current_desktop window current_desktop
  = (Some true, []).
Proof.
  intros Hd Hcur. unfold CoreDesktop.activate_window_desktop, Core.get_window_desktop.
  rewrite Hd. simpl. split; [done|].
  rewrite decide_True by lia. done.
Qed.

Lemma core_sticky_window_witness :
  CoreDesktop.activate_window_desktop 1 77 nameless 3 = (Some true, []).
Proof.
  apply (core_sticky_window_activates_nothing 1 77 nameless 3); [reflexivity | lia].
Defined.

(** [set_window_state] sends one message for each of [decorate],
    [taskbar], [otaskbar] and [pager] that is given, and the maximize
    message only when [vmax] and [hmax] are both given and equal: [vmax]
    alone, or with a different [hmax], asks for nothing.  It always ends
    with a flush. *)
Theorem set_window_state_maximize_needs_both (X : xlib) (window : Z)
    (taskbar pager decorate otaskbar vmax hmax : option bool) :
  last (set_window_state X window taskbar pager decorate otaskbar vmax hmax)
    = Some XFlush ∧
  length (set_window_state X window taskbar pager decorate otaskbar vmax hmax)
  = (length (option_list decorate) + length (option_list taskbar)
     + (if decide (is_Some vmax ∧ vmax = hmax) then 1 else 0)
     + length (option_list otaskbar) + length (option_list pager) + 1)%nat ∧
  set_window_state X window None None None None vmax hmax
  = match vmax with
    | Some v =>
        if decide (hmax = Some v) then
          [XSendEvent window (AtomCache X "_NET_WM_STATE")
             [as_long v; AtomCache X "_NET_WM_STATE_MAXIMIZED_VERT";
              AtomCache X "_NET_WM_STATE_MAXIMIZED_HORZ"; 0; 0]; XFlush]
        else [XFlush]
    | None => [XFlush]
    end.
Proof.
  split; [|split].
  - unfold set_window_state. rewrite !app_assoc. apply last_snoc.
  - unfold set_window_state. rewrite !length_app.
    destruct decorate, taskbar, otaskbar, pager; simpl;
      destruct vmax as [v|]; simpl;
      repeat case_decide; simpl; try lia;
      exfalso; naive_solver.
  - unfold set_window_state. destruct vmax as [v|]; simpl; [|done].
    repeat case_decide; try done; congruence.
Qed.

(** ** Shutdown *)

Lemma shutdown_each_all (matches : Z → list (string * kwval) → bool)
    (body : nat → WM → completion * WM) :
  (∀ f s0, shutdown_frame (body f s0).2 = shutdown_frame s0) →
  ∀ fuel i s,
    Forall (λ h, ∃ f, h = Fn f) (deinit_handlers s) →
    (length (deinit_handlers s) - i < fuel)%nat →
    ∃ s' t,
      shutdown_each matches body fuel i s = Some (s', t) ∧
      callee <$> t = drop i (deinit_handlers s) ∧
      shutdown_frame s' = shutdown_frame s.
Proof.
  intros Hframe. induction fuel as [|fuel IH]; intros i s Hfn Hfuel; [lia|].
  simpl. destruct (deinit_handlers s !! i) as [h|] eqn:Ei.
  - rewrite (drop_S _ _ _ Ei).
    assert (Hh : ∃ f, h = Fn f).
    { eapply Forall_forall in Hfn; [exact Hfn|]. by eapply list_elem_of_lookup_2. }
    destruct Hh as [f ->]. simpl.
    pose proof (Hframe f s) as Hf. destruct (body f s) as [c1 s1]. simpl in Hf.
    set (s2 := match c1 with
               | Normal => s1
               | Raised e => log (LogException "Shutdown error" e) s1
               end).
    assert (H2 : shutdown_frame s2 = shutdown_frame s) by (unfold s2; by destruct c1).
    assert (Hd : deinit_handlers s2 = deinit_handlers s)
      by (unfold shutdown_frame in H2; congruence).
    apply lookup_lt_Some in Ei.
    destruct (IH (S i) s2) as (s' & t & Hrun & Ht & Hs').
    + by rewrite Hd.
    + rewrite Hd. lia.
    + exists s', (Call (Fn f) (startup s) (event_window s) :: t).
      split; [by rewrite Hrun|]. split; [|congruence].
      rewrite fmap_cons, Ht, Hd. done.
  - exists s, []. apply lookup_ge_None in Ei. rewrite drop_ge by done. done.
Qed.

(** [stop] catches every fault of a deinit handler, an interrupt or a
    restart request included, so all deinit handlers are called, once and
    in order.  For deinit handlers that are plain functions and register
    nothing, it leaves every registry, the focus history and the lists of
    init and deinit handlers empty; the two grab slots it leaves as they
    were.  Unless it is told that the process exits, it ungrabs the keys
    of the root window and then of every client. *)
Theorem stop_empties_registries_and_catches_faults (X : xlib)
    (matches : Z → list (string * kwval) → bool) (body : nat → WM → completion * WM)
    (fuel : nat) (is_exit : bool) (clients : list Z) (s : WM) :
  (∀ f s0, shutdown_frame (body f s0).2 = shutdown_frame s0) →
  Forall (λ h, ∃ f, h = Fn f) (deinit_handlers s) →
  (length (deinit_handlers s) < fuel)%nat →
  ∃ s' t,
    stop X matches body fuel is_exit clients s
    = Some (s',
            if is_exit then []
            else XUngrabKey (DefaultRootWindow X) :: (XUngrabKey <$> clients),
            t) ∧
    callee <$> t = deinit_handlers s ∧
    registries s' = (∅, ∅, [], ∅, ∅, []) ∧
    init_handlers s' = [] ∧ deinit_handlers s' = [] ∧
    grab_keyboard_handler s' = grab_keyboard_handler s ∧
    grab_pointer_handler s' = grab_pointer_handler s.
Proof.
  intros Hframe Hfn Hfuel. unfold stop.
  set (s1 := set_signal_handlers ∅ _).
  destruct (shutdown_each_all matches body Hframe fuel 0 s1) as (s2 & t & Hrun & Ht & Hs2);
    [done | simpl; lia |].
  rewrite Hrun. simpl. eexists _, t. split; [reflexivity|].
  rewrite Ht, drop_0. split; [done|].
  unfold shutdown_frame, registries in Hs2. simpl in Hs2.
  injection Hs2 as Hk Hp Hc Hd Hsg Hfh Hdi Hgk Hgp.
  unfold registries. simpl. rewrite Hk, Hp, Hc, Hd, Hsg, Hfh. done.
Qed.

Lemma stop_empties_registries_witness :
  ∃ s' t,
    stop x11 any_window faulty 3 false [7] stopping
      = Some (s', [XUngrabKey 1; XUngrabKey 7], t) ∧
    callee <$> t = [Fn 1%nat; Fn 4%nat] ∧
    registries s' = (∅, ∅, [], ∅, ∅, []) ∧
    grab_keyboard_handler s' = Some (Fn 9%nat).
Proof.
  destruct (stop_empties_registries_and_catches_faults x11 any_window faulty 3 false [7]
              stopping) as (s' & t & Hrun & Ht & Hr & _ & _ & Hg & _).
  - intros f s0. unfold faulty. by destruct f as [|[|[|[|?]]]].
  - vm_compute. repeat constructor; eexists; reflexivity.
  - vm_compute. lia.
  - exists s', t. split; [exact Hrun|]. split; [exact Ht|]. split; [exact Hr|].
    rewrite Hg. vm_compute. reflexivity.
Defined.

(** ** The older three-mask expansion, removal of a creation listener,
       and the client finders *)

Lemma list_remove_first {A} `{EqDecision A} (x : A) (l1 l2 : list A) :
  x ∉ l1 → list_remove x (l1 ++ x :: l2) = Some (l1 ++ l2).
Proof.
  induction l1 as [|y l1 IH]; intros Hx; simpl.
  - by rewrite decide_True.
  - apply not_elem_of_cons in Hx as [Hne Hx].
    rewrite decide_False by congruence. by rewrite IH.
Qed.

(** [core.py] expands a key binding over three ignored masks only: the
    binding fires with no lock, with CapsLock or with NumLock, but the
    combination with both locks on stays unbound, so a key press in that
    state finds no handler.  The four-mask table of [wm.py] binds that
    combination too. *)
Theorem core_binding_misses_both_locks (X : xlib) (w modmask code : Z)
    (func : callable) (s : WM) :
  ignorable_bits_free X →
  Z.land modmask (Z.lor (LockMask X) (Mod2Mask X)) = 0 →
  let both := (Z.lor modmask (Z.lor (LockMask X) (Mod2Mask X)), code) in
  ∃ keys s_core s_wm,
    core_apply_binder X (KeyBinder w modmask code) func s
      = (func, Some (RemoveKeys w keys), s_core) ∧
    length keys = 3%nat ∧
    key_binding s_core w (Z.lor modmask 0, code) = Some func ∧
    key_binding s_core w (Z.lor modmask (LockMask X), code) = Some func ∧
    key_binding s_core w (Z.lor modmask (Mod2Mask X), code) = Some func ∧
    key_binding s_core w both = key_binding s w both ∧
    (apply_binder X (KeyBinder w modmask code) func s).2 = s_wm ∧
    key_binding s_wm w both = Some func.
Proof.
  intros HX Hm both.
  destruct (grab_all_spec w modmask code func (Core.IGNORED_MOD_MASKS X) [] s)
    as (s1 & Heq & _ & Hb & _ & _).
  destruct (apply_binder_spec X w modmask code func s) as (s2 & Heq2 & Hb2 & _ & _).
  exists ((λ i, (Z.lor modmask i, code)) <$> Core.IGNORED_MOD_MASKS X), s1, s2.
  unfold core_apply_binder. rewrite Heq, Heq2. split; [done|]. split; [done|].
  pose proof (expanded_keys_distinct X modmask code HX Hm) as Hnd.
  change (IGNORED_MOD_MASKS X)
    with (Core.IGNORED_MOD_MASKS X ++ [Z.lor (LockMask X) (Mod2Mask X)]) in Hnd.
  rewrite fmap_app in Hnd. apply NoDup_app in Hnd as (_ & Hdisj & _).
  rewrite !Hb, Hb2.
  split; [rewrite decide_True; [done|]; unfold Core.IGNORED_MOD_MASKS; set_solver|].
  split; [rewrite decide_True; [done|]; unfold Core.IGNORED_MOD_MASKS; set_solver|].
  split; [rewrite decide_True; [done|]; unfold Core.IGNORED_MOD_MASKS; set_solver|].
  split.
  - rewrite decide_False; [done|]. intros Hin. apply (Hdisj _ Hin). set_solver.
  - split; [done|]. rewrite decide_True; [done|].
    unfold IGNORED_MOD_MASKS. set_solver.
Qed.

Lemma core_binding_misses_both_locks_witness :
  ∃ keys s_core s_wm,
    core_apply_binder x11 (KeyBinder 5 12 57) (Fn 1%nat) new_WM
      = (Fn 1%nat, Some (RemoveKeys 5 keys), s_core) ∧
    length keys = 3%nat ∧
    key_binding s_core 5 (30, 57) = None ∧
    key_binding s_wm 5 (30, 57) = Some (Fn 1%nat).
Proof.
  destruct (core_binding_misses_both_locks x11 5 12 57 (Fn 1%nat) new_WM x11_bits_free
              eq_refl)
    as (keys & s1 & s2 & Heq & Hlen & _ & _ & _ & Hnone & _ & Hsome).
  exists keys, s1, s2. split; [exact Heq|]. split; [exact Hlen|].
  split; [exact Hnone | exact Hsome].
Defined.

Lemma list_remove_present {A} `{EqDecision A} (x : A) (l : list A) :
  x ∈ l → is_Some (list_remove x l).
Proof.
  induction l as [|y l IH]; intros Hx; simpl; [by apply elem_of_nil in Hx|].
  case_decide; [done|]. apply elem_of_cons in Hx as [->|Hx]; [done|].
  destruct (IH Hx) as [l' ->]. done.
Qed.

(** The removal handle of a creation listener takes the first entry of
    the list equal to the registered callable.  When the callable was not
    in the list before, registering and removing gives the list back; when
    it was (the same plain function passed to [on_manage] twice), the
    earlier entry goes and the new one stays at the end, so the handler is
    moved behind the others. *)
Theorem creation_listener_removal_takes_first_entry (X : xlib) (ignore_startup : bool)
    (matchers : list (string * kwval)) (func : callable) (s : WM) :
  ∃ f r s1 s2,
    _on_create_manage ignore_startup matchers func s = (f, Some r, s1) ∧
    create_handlers s1 = create_handlers s ++ [f] ∧
    invoke_remove X r s1 = (Normal, s2) ∧
    (f ∉ create_handlers s → create_handlers s2 = create_handlers s) ∧
    (∀ l1 l2, create_handlers s = l1 ++ f :: l2 → f ∉ l1 →
              create_handlers s2 = l1 ++ l2 ++ [f]).
Proof.
  unfold _on_create_manage.
  set (p1 := match matchers with [] => (func, s) | _ :: _ => _ end).
  assert (H1 : create_handlers p1.2 = create_handlers s)
    by (unfold p1; by destruct matchers).
  destruct p1 as [f1 s1]. simpl in H1.
  set (p2 := if ignore_startup then _ else (f1, s1)).
  assert (H2 : create_handlers p2.2 = create_handlers s)
    by (unfold p2; by destruct ignore_startup; simpl).
  destruct p2 as [f2 s2]. simpl in H2.
  destruct (list_remove_present f2 (create_handlers s ++ [f2])) as [l' Hl'];
    [set_solver|].
  eexists f2, _, _, _. split; [reflexivity|]. simpl. rewrite H2, Hl'.
  split; [done|]. split; [reflexivity|]. simpl. split.
  - intros Hnin.
    rewrite <- (app_nil_r (create_handlers s ++ [f2])), <- app_assoc in Hl'.
    simpl in Hl'. rewrite (list_remove_first f2 (create_handlers s) [] Hnin) in Hl'.
    injection Hl' as <-. apply app_nil_r.
  - intros l1 l2 Hl Hf. rewrite Hl, <- app_assoc, <- app_comm_cons in Hl'.
    rewrite (list_remove_first f2 l1 (l2 ++ [f2]) Hf) in Hl'. by injection Hl' as <-.
Qed.

(** [find_client] answers with the first client, in list order, that
    matches, and with [None] exactly when no client matches;
    [find_clients] keeps the matching clients in their order, each as
    often as it occurs. *)
Theorem find_client_is_first_match (matches : Z → list (string * kwval) → bool)
    (clients : list Z) (matchers : list (string * kwval)) :
  (∀ w, find_client matches clients matchers = Some w ↔
        ∃ before rest, clients = before ++ w :: rest ∧ matches w matchers = true ∧
                       Forall (λ c, matches c matchers = false) before) ∧
  (find_client matches clients matchers = None ↔
   Forall (λ c, matches c matchers = false) clients) ∧
  (∀ w, w ∈ find_clients matches clients matchers ↔
        w ∈ clients ∧ matches w matchers = true) ∧
  find_clients matches clients matchers `sublist_of` clients ∧
  (∀ before w rest, clients = before ++ w :: rest →
     find_clients matches clients matchers
     = find_clients matches before matchers
       ++ (if matches w matchers then [w] else [])
       ++ find_clients matches rest matchers).
Proof.
  unfold find_client, find_clients. split; [|split; [|split; [|split]]].
  - induction clients as [|c l IH]; intros w; simpl.
    + split; [done|]. intros (b & r & Hl & _). by destruct b.
    + rewrite filter_cons. case_decide as Hc.
      * simpl. split.
        -- intros [= ->]. by exists [], l.
        -- intros (b & r & Hl & Hw & Hb). destruct b as [|c' b].
           ++ by injection Hl as -> _.
           ++ injection Hl as -> _. apply Forall_cons in Hb as [Hb _]. congruence.
      * rewrite IH. apply not_true_is_false in Hc. split.
        -- intros (b & r & -> & Hw & Hb). exists (c :: b), r. by repeat constructor.
        -- intros (b & r & Hl & Hw & Hb). destruct b as [|c' b].
           ++ injection Hl as -> _. congruence.
           ++ injection Hl as -> ->. apply Forall_cons in Hb as [_ Hb]. by exists b, r.
  - induction clients as [|c l IH]; simpl; [done|].
    rewrite filter_cons. case_decide as Hc.
    + simpl. split; [done|]. intros Hall. apply Forall_cons in Hall as [Hf _]. congruence.
    + rewrite IH. apply not_true_is_false in Hc. split.
      * intros Hall. by constructor.
      * intros Hall. by apply Forall_cons in Hall as [_ ?].
  - intros w. rewrite list_elem_of_filter. tauto.
  - apply sublist_filter.
  - intros before w rest ->. rewrite filter_app, filter_cons.
    destruct (matches w matchers); by case_decide.
Qed.

Lemma creation_listener_removal_witness :
  ∃ f r s1 s2,
    on_manage [] (Fn 1%nat) (on_manage [] (Fn 2%nat) (on_manage [] (Fn 1%nat) new_WM).2).2
      = (f, Some r, s1) ∧
    invoke_remove x11 r s1 = (Normal, s2) ∧
    create_handlers s2 = [Fn 2%nat; Fn 1%nat].
Proof.
  destruct (creation_listener_removal_takes_first_entry x11 false [] (Fn 1%nat)
              (on_manage [] (Fn 2%nat) (on_manage [] (Fn 1%nat) new_WM).2).2)
    as (f & r & s1 & s2 & Hreg & _ & Hrem & _ & Hdup).
  exists f, r, s1, s2. split; [exact Hreg|]. split; [exact Hrem|].
  assert (Hf : f = Fn 1%nat) by (vm_compute in Hreg; congruence).
  subst f. apply (Hdup [] [Fn 2%nat]); [reflexivity | apply not_elem_of_nil].
Defined.

(** ** The startup flag from the replay to the first creation event *)





(** ** Faults in the run loop *)

Section RunClaim.
Context (matches : Z → list (string * kwval) → bool).
Context (body : nat → WM → completion * WM).
Context (grab_body : nat → bool → Z → Z → WM → completion * WM).





End RunClaim.


(** ** The window matcher against its specification *)

Section MatcherClaim.
Context {regex : Type}.
Context (re_compile : string → option regex).
Context (re_match : regex → string → bool).

Lemma criterion_true_iff (pat attr : option string)
    (st : (exn + Core.pyvalue) * gmap string regex) :
  Core.cache_sound re_compile st.2 →
  Core.cache_sound re_compile (Core.criterion re_compile re_match pat attr st).2 ∧
  ((∃ v, (Core.criterion re_compile re_match pat attr st).1 = inr v ∧ Core.truthy v = true)
   ↔ (∃ m, st.1 = inr m ∧ Core.truthy m = true)
     ∧ Core.pattern_holds re_compile re_match pat attr).
Proof.
  destruct st as [[e|m] c]; simpl; intros Hc.
  { split; [done|]. split; [by intros (v & ? & _) | by intros [(m & ? & _) _]]. }
  destruct (Core.truthy m) eqn:Em; simpl.
  2:{ split; [done|]. split.
      - intros (v & [= <-] & Hv). congruence.
      - intros [(m' & [= <-] & Hm') _]. congruence. }
  destruct (Core.nonempty pat) eqn:En.
  2:{ split; [done|]. split.
      - intros _. split; [by exists m|]. intros H. congruence.
      - intros _. by exists m. }
  pose proof En as En'. apply nonempty_Some in En as (p & -> & Hp). simpl.
  unfold Core.match_string.
  destruct attr as [[|a text]|].
  - split; [done|]. split; [by intros (v & [= <-] & ?)|].
    intros [_ H]. destruct (H En') as (? & ? & ? & _ & [= <-] & ? & _). done.
  - destruct (c !! p) as [r|] eqn:Ec.
    + split; [done|]. pose proof (Hc p r Ec) as Hr. split.
      * intros (v & [= <-] & Hv). split; [by exists m|]. intros _.
        exists p, (String a text), r. repeat split; try done.
        by destruct (re_match r (String a text)).
      * intros [_ H]. destruct (H En') as (p' & t' & r' & [= <-] & [= <-] & _ & Hr' & Hm).
        assert (r' = r) as -> by congruence. eexists. split; [done|]. by rewrite Hm.
    + destruct (re_compile p) as [r|] eqn:Er.
      * split; [by apply cache_sound_insert|]. split.
        -- intros (v & [= <-] & Hv). split; [by exists m|]. intros _.
           exists p, (String a text), r. repeat split; try done.
           by destruct (re_match r (String a text)).
        -- intros [_ H].
           destruct (H En') as (p' & t' & r' & [= <-] & [= <-] & _ & Hr' & Hm).
           assert (r' = r) as -> by congruence. eexists. split; [done|]. by rewrite Hm.
      * split; [done|]. split; [by intros (v & ? & _)|].
        intros [_ H]. destruct (H En') as (p' & t' & r' & [= <-] & _ & _ & Hr' & _).
        congruence.
  - split; [done|]. split; [by intros (v & [= <-] & ?)|].
    intros [_ H]. destruct (H En') as (? & ? & ? & _ & ? & _). done.
Qed.

Lemma pattern_holds_as_specified (pat attr : option string) :
  pat ≠ Some EmptyString → attr ≠ Some EmptyString →
  (Core.pattern_holds re_compile re_match pat attr
   ↔ Core.spec_pattern_holds re_compile re_match pat attr).
Proof.
  intros Hp Ha. unfold Core.pattern_holds, Core.spec_pattern_holds.
  destruct pat as [p|]; simpl.
  - destruct p as [|a p]; [done|]. simpl. split.
    + intros H. destruct (H eq_refl) as (p' & text & r & [= <-] & -> & _ & Hr & Hm).
      by exists text, r.
    + intros (text & r & -> & Hr & Hm) _. exists (String a p), text, r.
      repeat split; try done. by intros ->.
  - split; [done|]. intros _ H. done.
Qed.

(** C8, as the source has it.  Whatever the criteria given, on a pattern
    cache that holds compiled patterns only, [is_match] returns a true
    value exactly when every criterion holds in the sense of the source:
    a pattern criterion that is [None] or the empty string is not
    checked; any other holds when the attribute is present, is not the
    empty string, and the compiled pattern matches at its start; the
    desktop criterion, when given, holds when the window's desktop is
    that number.  This is the matcher of the specification whenever no
    pattern given and no attribute of the window is the empty string. *)
Theorem C8_match_iff_criteria_hold_up_to_empty_strings (window : Core.xwindow)
    (name cls role : option string) (desktop : option Z) (c : gmap string regex) :
  Core.cache_sound re_compile c →
  ((∃ v, (Core.is_match re_compile re_match window name cls role desktop c).1 = inr v
         ∧ Core.truthy v = true)
   ↔ Core.code_matches re_compile re_match window name cls role desktop) ∧
  (name ≠ Some EmptyString → cls ≠ Some EmptyString → role ≠ Some EmptyString →
   fst <$> Core.wm_class window ≠ Some EmptyString →
   snd <$> Core.wm_class window ≠ Some EmptyString →
   Core.get_window_role window ≠ Some EmptyString →
   ((∃ v, (Core.is_match re_compile re_match window name cls role desktop c).1 = inr v
          ∧ Core.truthy v = true)
    ↔ Core.spec_matches re_compile re_match window name cls role desktop)).
Proof.
  intros Hc.
  assert (Hmain : (∃ v, (Core.is_match re_compile re_match window name cls role desktop c).1
                        = inr v ∧ Core.truthy v = true)
                  ↔ Core.code_matches re_compile re_match window name cls role desktop).
  { unfold Core.is_match, Core.code_matches.
    set (st0 := (inr Core.PyTrue, c) : (exn + Core.pyvalue) * gmap string regex).
    destruct (criterion_true_iff name (fst <$> Core.wm_class window) st0 Hc) as [Hc1 H1].
    set (st1 := Core.criterion re_compile re_match name (fst <$> Core.wm_class window) st0)
      in *.
    destruct (criterion_true_iff cls (snd <$> Core.wm_class window) st1 Hc1) as [Hc2 H2].
    set (st2 := Core.criterion re_compile re_match cls (snd <$> Core.wm_class window) st1)
      in *.
    destruct (criterion_true_iff role (Core.get_window_role window) st2 Hc2) as [_ H3].
    set (st3 := Core.criterion re_compile re_match role (Core.get_window_role window) st2)
      in *.
    assert (H0 : ∃ m, st0.1 = inr m ∧ Core.truthy m = true) by (by exists Core.PyTrue).
    assert (H123 : (∃ v, st3.1 = inr v ∧ Core.truthy v = true) ↔
              Core.pattern_holds re_compile re_match name (fst <$> Core.wm_class window) ∧
              Core.pattern_holds re_compile re_match cls (snd <$> Core.wm_class window) ∧
              Core.pattern_holds re_compile re_match role (Core.get_window_role window)).
    { rewrite H3, H2, H1. intuition. }
    clearbody st3. clear H1 H2 H3. destruct st3 as [[e|m] c3]; simpl in *.
    - split; [by intros (v & ? & _)|]. intros (Hn & Hcl & Hr & _).
      destruct (proj2 H123 (conj Hn (conj Hcl Hr))) as (v & ? & _). done.
    - destruct desktop as [d|].
      + destruct (Core.truthy m) eqn:Em; simpl.
        * case_decide as Hd; simpl.
          -- split; [intros _|by eexists].
             destruct (proj1 H123) as (? & ? & ?); [by exists m|]. done.
          -- split; [by intros (v & [= <-] & ?)|]. intros (_ & _ & _ & ?). done.
        * split.
          -- intros (v & [= <-] & Hv). congruence.
          -- intros (Hn & Hcl & Hr & _).
             destruct (proj2 H123 (conj Hn (conj Hcl Hr))) as (v & [= <-] & Hv). congruence.
      + simpl. rewrite H123. intuition. }
  split; [exact Hmain|].
  intros Hn Hcl Hr Hwn Hwc Hwr. rewrite Hmain.
  unfold Core.code_matches, Core.spec_matches.
  rewrite (pattern_holds_as_specified name _ Hn Hwn),
          (pattern_holds_as_specified cls _ Hcl Hwc),
          (pattern_holds_as_specified role _ Hr Hwr). done.
Qed.

End MatcherClaim.

Lemma C8_match_iff_criteria_witness :
  (∃ v, (Core.is_match Core.simple_compile Core.simple_match urxvt
           (Some "urx"%string) (Some "UR.*"%string) (Some "term"%string) (Some 2) ∅).1 = inr v
        ∧ Core.truthy v = true)
  ∧ Core.spec_matches Core.simple_compile Core.simple_match urxvt
      (Some "urx"%string) (Some "UR.*"%string) (Some "term"%string) (Some 2).
Proof.
  destruct (C8_match_iff_criteria_hold_up_to_empty_strings
              Core.simple_compile Core.simple_match urxvt
              (Some "urx"%string) (Some "UR.*"%string) (Some "term"%string) (Some 2) ∅
              (empty_cache_sound Core.simple_compile)) as [_ Hspec].
  assert (Hret : ∃ v, (Core.is_match Core.simple_compile Core.simple_match urxvt
                         (Some "urx"%string) (Some "UR.*"%string) (Some "term"%string)
                         (Some 2) ∅).1 = inr v ∧ Core.truthy v = true)
    by (eexists; split; vm_compute; reflexivity).
  split; [exact Hret|].
  apply Hspec; [discriminate..|exact Hret].
Defined.

(** C8 as stated fails where an empty string is involved.  The window
    [nameless] has the empty string as its instance name: the pattern
    [.*] matches it from the start, so the name criterion of the claim
    holds, and [is_match] returns [False].  The same window has no role:
    a role criterion given as the empty pattern fails by the claim, the
    attribute being absent, and [is_match] returns [True]. *)
Lemma C8_empty_string_counterexample :
  Core.spec_matches Core.simple_compile Core.simple_match nameless
    (Some ".*"%string) None None None ∧
  Core.is_match Core.simple_compile Core.simple_match nameless
    (Some ".*"%string) None None None ∅ = (inr Core.PyFalse, ∅) ∧
  ¬ Core.spec_matches Core.simple_compile Core.simple_match nameless
      None None (Some EmptyString) None ∧
  Core.is_match Core.simple_compile Core.simple_match nameless
    None None (Some EmptyString) None ∅ = (inr Core.PyTrue, ∅).
Proof.
  split; [|split; [reflexivity|split; [|reflexivity]]].
  - repeat split. exists EmptyString, [Core.Star Core.AnyChar]. by repeat split.
  - intros (_ & _ & (text & r & Habs & _) & _). discriminate Habs.
Qed.
